(** * Keystroke-dynamics identification: feature extraction, training and
    prediction contracts.

    A shallow embedding of [keystyleid/features.py], [train.py], [predict.py]
    and of the key handlers and the three actions of [app.py].

    Conventions of the embedding.
    - A Python [float] timestamp is an exact rational [Qc] (canonical
      fractions, so that equal values are equal terms).  Only comparison and
      subtraction are applied to timestamps by the code.
    - A Python exception is [None] in the [option] monad; the partial
      primitives the code calls ([d[k]], [l.pop(0)], [l[i]],
      [statistics.mean], ...) are modelled as fallible.
    - A [dict] that is iterated over is an association list in insertion
      order; a [dict] that is only looked up is a [gmap].
    - The square root used by [statistics.stdev] and the scikit-learn
      classifier are parameters of the development. *)

From Stdlib Require Import QArith Qcanon Qround Ascii String.
From stdpp Require Import base option list numbers strings pretty gmap sorting.

Local Open Scope string_scope.
Local Open Scope list_scope.
Local Open Scope nat_scope.

(** ** Python primitives *)

Module py.

(** [for x in l: s = body(s, x)] where the body may raise. *)
Fixpoint for_each {S A : Type} (body : S → A → option S) (l : list A) (s : S)
  : option S :=
  match l with
  | [] => Some s
  | x :: l' => s' ← body s x; for_each body l' s'
  end.

(** Insertion of [x] in front of the first element whose sort key is not
    smaller: the one-element step of a stable sort. *)
Fixpoint insert_by {A : Type} (k : A → Qc) (x : A) (l : list A) : list A :=
  match l with
  | [] => [x]
  | y :: l' =>
      if bool_decide (k x ≤ k y)%Qc then x :: y :: l' else y :: insert_by k x l'
  end.

(** [l.sort(key=k)] and [sorted(l, key=k)]: ascending and stable, elements
    with equal keys keep their input order. *)
Fixpoint sort_by {A : Type} (k : A → Qc) (l : list A) : list A :=
  match l with
  | [] => []
  | x :: l' => insert_by k x (sort_by k l')
  end.

(** [l.pop(0)]: raises [IndexError] on the empty list. *)
Definition pop0 {A : Type} (l : list A) : option (A * list A) :=
  match l with
  | [] => None
  | x :: l' => Some (x, l')
  end.

(** A [dict] in insertion order. *)
Definition odict (V : Type) : Type := list (string * V).

Fixpoint odict_get {V : Type} (d : odict V) (k : string) : option V :=
  match d with
  | [] => None
  | (k', v) :: d' => if String.eqb k' k then Some v else odict_get d' k
  end.

Definition odict_mem {V : Type} (d : odict V) (k : string) : bool :=
  match odict_get d k with Some _ => true | None => false end.

(** [d[k] = v]: overwrites in place, or appends a new key at the end. *)
Fixpoint odict_set {V : Type} (d : odict V) (k : string) (v : V) : odict V :=
  match d with
  | [] => [(k, v)]
  | (k', v') :: d' =>
      if String.eqb k' k then (k', v) :: d' else (k', v') :: odict_set d' k v
  end.

Definition Qc_of_nat (n : nat) : Qc := Qc_of_Z (Z.of_nat n).

Definition Qc_sum (l : list Qc) : Qc := foldr Qcplus 0%Qc l.

(** A square root rounded down to three decimals ([0] below zero): one
    admissible value of the square-root parameter, used to evaluate examples. *)
Definition sqrt_rounded (x : Qc) : Qc :=
  Q2Qc (Z.sqrt (Qnum x * 1000000 / Zpos (Qden x)) # 1000).

(** [statistics.mean]: [StatisticsError] on no data. *)
Definition statistics_mean (data : list Qc) : option Qc :=
  match data with
  | [] => None
  | _ => Some (Qc_sum data / Qc_of_nat (length data))%Qc
  end.

(** [statistics.variance]: the sample variance; at least two data points. *)
Definition statistics_variance (data : list Qc) : option Qc :=
  if bool_decide (length data < 2) then None
  else
    xbar ← statistics_mean data;
    Some (Qc_sum ((λ x, (x - xbar) * (x - xbar))%Qc <$> data)
          / Qc_of_nat (length data - 1))%Qc.

(** [statistics.median]: the middle of the sorted data. *)
Definition statistics_median (data : list Qc) : option Qc :=
  let data := sort_by id data in
  let n := length data in
  if bool_decide (n = 0) then None
  else if bool_decide (n `mod` 2 = 1) then data !! (n `div` 2)
  else
    let i := n `div` 2 in
    a ← data !! (i - 1);
    b ← data !! i;
    Some ((a + b) / Qc_of_nat 2)%Qc.

End py.

(** ** [features.py] *)

Module features.
Import py.

(** An event dictionary [{'key': k, 'type': 'down' | 'up', 't': ms}]. *)
Record KeyEvent : Type := mkEvent {
  ev_key : string;
  ev_type : string;
  ev_t : Qc
}.

(** The dictionary returned by [extract_features], in its fixed order. *)
Record FeatureVector : Type := mkFeatures {
  dwell_mean : Qc;
  dwell_std : Qc;
  dwell_median : Qc;
  flight_mean : Qc;
  flight_std : Qc;
  flight_median : Qc
}.

Definition zero_features : FeatureVector :=
  mkFeatures 0%Qc 0%Qc 0%Qc 0%Qc 0%Qc 0%Qc.

(** [if key not in d: d[key] = []] followed by [d[key].append(timestamp)]. *)
Definition group_append (d : odict (list Qc)) (key : string) (timestamp : Qc)
  : option (odict (list Qc)) :=
  let d := if odict_mem d key then d else odict_set d key [] in
  l ← odict_get d key;
  Some (odict_set d key (l ++ [timestamp])).

(** Body of the first loop (lines 37-49): events are split per key into
    [keydowns] and [keyups]; any other ['type'] is skipped. *)
Definition group_step (s : odict (list Qc) * odict (list Qc)) (event : KeyEvent)
  : option (odict (list Qc) * odict (list Qc)) :=
  let '(keydowns, keyups) := s in
  let key := ev_key event in
  let event_type := ev_type event in
  let timestamp := ev_t event in
  if String.eqb event_type "down" then
    keydowns ← group_append keydowns key timestamp; Some (keydowns, keyups)
  else if String.eqb event_type "up" then
    keyups ← group_append keyups key timestamp; Some (keydowns, keyups)
  else Some s.

(** Body of the matching loop (lines 64-74) over the sorted
    [(timestamp, type, key)] triples; the state is [pending_downs] and
    [dwell_times]. *)
Definition dwell_step (s : gmap string (list Qc) * list Qc)
    (x : Qc * string * string) : option (gmap string (list Qc) * list Qc) :=
  let '(pending_downs, dwell_times) := s in
  let '(timestamp, event_type, key) := x in
  if String.eqb event_type "down" then
    let pending_downs :=
      if bool_decide (is_Some (pending_downs !! key)) then pending_downs
      else <[key := []]> pending_downs in
    l ← pending_downs !! key;
    Some (<[key := l ++ [timestamp]]> pending_downs, dwell_times)
  else if String.eqb event_type "up" then
    cond ← (if bool_decide (is_Some (pending_downs !! key))
            then l ← pending_downs !! key; Some (bool_decide (0 < length l))
            else Some false);
    if cond : bool then
      l ← pending_downs !! key;
      '(down_time, rest) ← pop0 l;
      let pending_downs := <[key := rest]> pending_downs in
      let dwell_time := (timestamp - down_time)%Qc in
      if bool_decide (0 < dwell_time)%Qc
      then Some (pending_downs, dwell_times ++ [dwell_time])
      else Some (pending_downs, dwell_times)
    else Some s
  else Some s.

(** Lines 56-74: the dwell samples of an event list. *)
Definition dwell_times_of (events : list KeyEvent) : option (list Qc) :=
  let all_events := (λ event, (ev_t event, ev_type event, ev_key event)) <$> events in
  let all_events := sort_by (λ x, x.1.1) all_events in
  snd <$> for_each dwell_step all_events (∅, []).

(** Lines 78-81: [all_downs], key by key in the order of [keydowns]. *)
Definition all_downs_of (keydowns : odict (list Qc)) : option (list (Qc * string)) :=
  for_each
    (λ all_downs key,
       l ← odict_get keydowns key;
       Some (all_downs ++ ((λ timestamp, (timestamp, key)) <$> l)))
    (fst <$> keydowns) [].

(** Lines 85-89: positive gaps between neighbours of the sorted [all_downs]. *)
Definition flight_loop (all_downs : list (Qc * string)) : option (list Qc) :=
  for_each
    (λ flight_times i,
       a ← all_downs !! (i + 1);
       b ← all_downs !! i;
       let flight_time := (a.1 - b.1)%Qc in
       if bool_decide (0 < flight_time)%Qc
       then Some (flight_times ++ [flight_time])
       else Some flight_times)
    (seq 0 (length all_downs - 1)) [].

(** Lines 34-49 and 78-89: the flight samples of an event list. *)
Definition flight_times_of (events : list KeyEvent) : option (list Qc) :=
  '(keydowns, keyups) ← for_each group_step events ([], []);
  all_downs ← all_downs_of keydowns;
  flight_loop (sort_by fst all_downs).

Section with_sqrt.

(** The square root of [statistics.stdev]. *)
Variable sqrt : Qc → Qc.

Definition statistics_stdev (data : list Qc) : option Qc :=
  sqrt <$> statistics_variance data.

(** The local function [calc_stats] (lines 92-99). *)
Definition calc_stats (values : list Qc) : option (Qc * Qc * Qc) :=
  match values with
  | [] => Some (0%Qc, 0%Qc, 0%Qc)
  | _ =>
      mean ← statistics_mean values;
      std ← (if bool_decide (1 < length values) then statistics_stdev values
             else Some 0%Qc);
      median ← statistics_median values;
      Some (mean, std, median)
  end.

Definition extract_features (events : list KeyEvent) : option FeatureVector :=
  if bool_decide (length events < 2) then Some zero_features
  else
    dwell_times ← dwell_times_of events;
    flight_times ← flight_times_of events;
    '(dwell_mean, dwell_std, dwell_median) ← calc_stats dwell_times;
    '(flight_mean, flight_std, flight_median) ← calc_stats flight_times;
    Some (mkFeatures dwell_mean dwell_std dwell_median
                     flight_mean flight_std flight_median).

End with_sqrt.

(** Python's [str.isspace] on ASCII code points. *)
Definition is_space (c : ascii) : bool :=
  let n := nat_of_ascii c in
  ((9 <=? n) && (n <=? 13) || (28 <=? n) && (n <=? 32))%nat.

(** Python's [str.lower] on ASCII code points. *)
Definition lower_char (c : ascii) : ascii :=
  let n := nat_of_ascii c in
  if ((65 <=? n) && (n <=? 90))%nat then ascii_of_nat (n + 32) else c.

Fixpoint lstrip (s : list ascii) : list ascii :=
  match s with
  | c :: s' => if is_space c then lstrip s' else s
  | [] => []
  end.

Definition strip (s : list ascii) : list ascii :=
  reverse (lstrip (reverse (lstrip s))).

Definition lower (s : list ascii) : list ascii := lower_char <$> s.

(** [typed_text.strip().lower()] *)
Definition clean (s : string) : list ascii :=
  lower (strip (list_ascii_of_string s)).

(** Body of the matching loop of [validate_typed_text] (lines 139-142). *)
Definition match_step (prompt_clean : list ascii) (s : nat * nat) (char : ascii)
  : option (nat * nat) :=
  let '(matches, prompt_idx) := s in
  cond ← (if bool_decide (prompt_idx < length prompt_clean)
          then p ← prompt_clean !! prompt_idx; Some (bool_decide (char = p))
          else Some false);
  if cond : bool then Some (matches + 1, prompt_idx + 1) else Some s.

(** [a / b] on two [int]s: [ZeroDivisionError] when [b] is zero. *)
Definition int_div (a b : nat) : option Qc :=
  if bool_decide (b = 0) then None else Some (Qc_of_nat a / Qc_of_nat b)%Qc.

Definition default_min_similarity : Qc := (Qc_of_nat 8 / Qc_of_nat 10)%Qc.

Definition validate_typed_text (typed_text prompt : string) (min_similarity : Qc)
  : option bool :=
  let typed_clean := clean typed_text in
  let prompt_clean := clean prompt in
  if bool_decide (typed_clean = prompt_clean) then Some true
  else if bool_decide (length prompt_clean = 0) then Some false
  else
    '(matches, prompt_idx) ← for_each (match_step prompt_clean) typed_clean (0, 0);
    similarity ← int_div matches (length prompt_clean);
    Some (bool_decide (min_similarity ≤ similarity)%Qc).

End features.

(** ** The external collaborators: scikit-learn and the file system *)

Module sklearn.

(** The classifier capability: [train_test_split], the fitting of a
    [RandomForestClassifier] and the three queries the code makes on a fitted
    model.  Splitting and fitting may raise. *)
Record Classifier : Type := mkClassifier {
  Model : Type;
  train_test_split :
    list (list Qc) → list string → ∀ (test_size : Qc) (random_state : nat)
      (stratify : list string),
      option (list (list Qc) * list (list Qc) * list string * list string);
  fit : ∀ (n_estimators random_state : nat),
      list (list Qc) → list string → option Model;
  predict : Model → list (list Qc) → list string;
  predict_proba : Model → list (list Qc) → list (list Qc);
  classes_ : Model → list string
}.

(** [accuracy_score(y_true, y_pred)]: the fraction of exact matches; raises
    when the two lengths differ. *)
Definition accuracy_score (y_true y_pred : list string) : option Qc :=
  if bool_decide (length y_true = length y_pred) then
    let hits := length (filter (λ p : string * string, p.1 = p.2) (zip y_true y_pred)) in
    Some (py.Qc_of_nat hits / py.Qc_of_nat (length y_true))%Qc
  else None.

(** A small stand-in for the classifier, used to evaluate examples: it
    memorizes the training rows, answers with the label of the first row
    that has the queried features (the first class otherwise) and puts the
    whole probability on that label; the split takes the first
    [ceil(test_size * n)] rows as test partition. *)
Definition memorizer_predict1 (model : list (list Qc * string)) (x : list Qc)
  : string :=
  match filter (λ row : list Qc * string, row.1 = x) model with
  | row :: _ => row.2
  | [] => default "" (head (remove_dups model.*2))
  end.

Definition memorizer : Classifier := {|
  Model := list (list Qc * string);
  train_test_split X y test_size random_state stratify :=
    let n_test := Z.to_nat (Qceiling (test_size * py.Qc_of_nat (length X))%Qc) in
    Some (drop n_test X, take n_test X, drop n_test y, take n_test y);
  fit n_estimators random_state X y :=
    if bool_decide (length X = length y) then Some (zip X y) else None;
  predict model X := memorizer_predict1 model <$> X;
  predict_proba model X :=
    (λ x, (λ c, if bool_decide (c = memorizer_predict1 model x)
                then py.Qc_of_nat 1 else py.Qc_of_nat 0)
            <$> remove_dups model.*2) <$> X;
  classes_ model := remove_dups model.*2
|}.

End sklearn.

Module io.
Import features.

(** A stored session [{'user', 'events', 'typed_text', 'created_at'}];
    [user] and [events] are read with [dict.get] and may be absent. *)
Record Session : Type := mkSession {
  user : option string;
  events : option (list KeyEvent);
  typed_text : string;
  created_at : string
}.

Section with_classifier.
Variable sk : sklearn.Classifier.

(** What a path can hold. *)
Inductive File : Type :=
  | SessionsJson (sessions : list Session)
  | ModelJoblib (model : sklearn.Model sk)
  | FeatureOrderJoblib (feature_order : list string).

(** The files on disk and the log of the paths loaded so far. *)
Record World : Type := mkWorld {
  files : gmap string File;
  loaded : list string
}.

(** A computation that reads and writes the world and may raise; what it
    wrote before raising stays written. *)
Definition IO (A : Type) : Type := World → option A * World.

Definition ret {A} (x : A) : IO A := λ w, (Some x, w).
Definition raise {A} : IO A := λ w, (None, w).
Definition bind {A B} (m : IO A) (k : A → IO B) : IO B :=
  λ w, match m w with
       | (Some x, w') => k x w'
       | (None, w') => (None, w')
       end.
Definition lift {A} (o : option A) : IO A := λ w, (o, w).

(** [os.path.exists(path)] *)
Definition path_exists (path : string) : IO bool :=
  λ w, (Some (bool_decide (is_Some (files w !! path))), w).

(** [json.load] / [joblib.load]: raises when the path is missing. *)
Definition load (path : string) : IO File :=
  λ w, (files w !! path, mkWorld (files w) (loaded w ++ [path])).

(** [json.dump] / [joblib.dump]: replaces the file wholesale. *)
Definition dump (path : string) (f : File) : IO unit :=
  λ w, (Some (), mkWorld (<[path := f]> (files w)) (loaded w)).

(** [try: body except Exception: handler] *)
Definition try_except {A} (body : IO A) (handler : IO A) : IO A :=
  λ w, match body w with
       | (Some x, w') => (Some x, w')
       | (None, w') => handler w'
       end.

End with_classifier.

Arguments SessionsJson {sk} _.
Arguments FeatureOrderJoblib {sk} _.
Arguments ModelJoblib {sk} _.
Arguments ret {sk A} _ _.
Arguments raise {sk A} _.
Arguments bind {sk A B} _ _ _.
Arguments lift {sk A} _ _.
Arguments path_exists {sk} _ _.
Arguments load {sk} _ _.
Arguments dump {sk} _ _ _.
Arguments try_except {sk A} _ _ _.
Arguments files {sk} _.
Arguments loaded {sk} _.
Arguments mkWorld {sk} _ _.

#[global] Instance io_ret {sk} : MRet (IO sk) := λ A, ret.
#[global] Instance io_bind {sk} : MBind (IO sk) := λ A B k m, bind m k.

End io.

(** ** [train.py] *)

Module train.
Import py features io.

Definition default_data_path : string := "data/sessions.json".
Definition default_model_path : string := "artifacts/model.joblib".
Definition feature_order_path : string := "artifacts/feature_order.joblib".
Definition default_min_per_user : Z := 10.
Definition default_test_size : Qc := (Qc_of_nat 2 / Qc_of_nat 10)%Qc.

(** The dictionaries [train_model] returns.  The three failures are the
    ['success': False] results, told apart by their ['error'] message:
    "No sessions found. ...", "Not enough samples. Need at least
    {min_per_user} per user." (with ['user_counts']) and "Need at least 2
    different users to train a classifier.". *)
Inductive TrainResult : Type :=
  | NoData
  | InsufficientSamples (min_per_user : Z) (user_counts : gmap string nat)
  | InsufficientClasses
  | Trained (accuracy : Qc) (user_counts : gmap string nat)
            (total_sessions train_size test_size : nat).

(** [session.get('user', '')] *)
Definition label (session : Session) : string := default "" (user session).

Definition check_minimum_samples (sessions : list Session) (min_per_user : Z)
  : bool * gmap string nat :=
  let user_counts :=
    foldl (λ (user_counts : gmap string nat) session,
             let user := label session in
             <[user := default 0 (user_counts !! user) + 1]> user_counts)
          ∅ sessions in
  let has_enough :=
    forallb (λ count : nat, bool_decide (min_per_user ≤ Z.of_nat count)%Z)
            (filter (λ count, 0 < count) ((map_to_list user_counts).*2)) in
  (has_enough, user_counts).

(** The six features as a list, in the order written in [prepare_features]. *)
Definition feature_vector (features : FeatureVector) : list Qc :=
  [dwell_mean features; dwell_std features; dwell_median features;
   flight_mean features; flight_std features; flight_median features].

(** The list saved as [feature_order.joblib]. *)
Definition feature_order : list string :=
  ["dwell_mean"; "dwell_std"; "dwell_median";
   "flight_mean"; "flight_std"; "flight_median"].

Section with_externals.
Variable sqrt : Qc → Qc.
Variable sk : sklearn.Classifier.

Definition load_sessions (data_path : string) : IO sk (list Session) :=
  found ← path_exists data_path;
  if negb found then mret []
  else
    f ← load data_path;
    match f with
    | SessionsJson sessions => mret sessions
    | _ => raise
    end.

Definition prepare_features (sessions : list Session)
  : option (list (list Qc) * list string) :=
  for_each
    (λ '(features_list, labels_list) session,
       let events := default [] (events session) in
       features ← extract_features sqrt events;
       Some (features_list ++ [feature_vector features],
             labels_list ++ [label session]))
    sessions ([], []).

Definition train_model (data_path model_path : string) (min_per_user : Z)
    (test_size : Qc) : IO sk TrainResult :=
  sessions ← load_sessions data_path;
  if bool_decide (length sessions = 0) then mret NoData
  else
    let '(has_enough, user_counts) := check_minimum_samples sessions min_per_user in
    if negb has_enough then mret (InsufficientSamples min_per_user user_counts)
    else
      '(X, y) ← lift (prepare_features sessions);
      if bool_decide (size (list_to_set y : gset string) < 2)
      then mret InsufficientClasses
      else
        '(X_train, X_test, y_train, y_test) ←
          (if bool_decide (10 ≤ length sessions)%nat
           then lift (sklearn.train_test_split sk X y test_size 42 y)
           else mret (X, X, y, y));
        model ← lift (sklearn.fit sk 100 42 X_train y_train);
        let y_pred := sklearn.predict sk model X_test in
        accuracy ← lift (sklearn.accuracy_score y_test y_pred);
        _ ← dump model_path (ModelJoblib model);
        _ ← dump feature_order_path (FeatureOrderJoblib feature_order);
        mret (Trained accuracy user_counts (length sessions)
                      (length X_train) (length X_test)).

End with_externals.

End train.

(** ** [predict.py] *)

Module predict.
Import py features io.

(** The dictionaries [predict_user] returns. *)
Inductive PredictResult : Type :=
  | ModelNotFound
  | Predicted (predicted_user : string) (confidence : Qc)
              (probabilities : gmap string Qc).

(** The six features as a list, in the order written in [predict_user]. *)
Definition feature_vector (features : FeatureVector) : list Qc :=
  [dwell_mean features; dwell_std features; dwell_median features;
   flight_mean features; flight_std features; flight_median features].

(** [max(l)]: raises on the empty list; the first maximum wins. *)
Definition py_max (l : list Qc) : option Qc :=
  match l with
  | [] => None
  | x :: l' => Some (foldl (λ m y, if bool_decide (m < y)%Qc then y else m) x l')
  end.

Section with_externals.
Variable sqrt : Qc → Qc.
Variable sk : sklearn.Classifier.

(** [{class_names[i]: float(prob) for i, prob in enumerate(probabilities)}] *)
Definition prob_dict_of (class_names : list string) (probabilities : list Qc)
  : option (gmap string Qc) :=
  for_each
    (λ (prob_dict : gmap string Qc) '(i, prob),
       name ← class_names !! i;
       Some (<[name := prob]> prob_dict))
    (imap (λ i prob, (i, prob)) probabilities) ∅.

Definition predict_user (events : list KeyEvent) (model_path : string)
  : IO sk PredictResult :=
  found ← path_exists model_path;
  if negb found then mret ModelNotFound
  else
    f ← load model_path;
    match f with
    | ModelJoblib model =>
        features ← lift (extract_features sqrt events);
        let feature_vector := feature_vector features in
        predicted_user ← lift (sklearn.predict sk model [feature_vector] !! 0);
        probabilities ← lift (sklearn.predict_proba sk model [feature_vector] !! 0);
        confidence ← lift (py_max probabilities);
        let class_names := sklearn.classes_ sk model in
        prob_dict ← lift (prob_dict_of class_names probabilities);
        mret (Predicted predicted_user confidence prob_dict)
    | _ => raise
    end.

End with_externals.

End predict.

(** ** [app.py]: the two guarded actions of [KeystrokeApp] *)

Module app.
Import py features io.

Definition PROMPT_TEXT : string := "the quick brown fox jumps over the lazy dog".
Definition SESSIONS_FILE : string := "data/sessions.json".

(** A [messagebox] call. *)
Inductive Dialog : Type :=
  | showwarning (message : string)
  | showinfo (message : string)
  | showerror (message : string).

Definition MSG_NOTHING_TYPED : string := "Please type something first.".
Definition MSG_MISMATCH : string :=
  "Typed text doesn't match the prompt well enough. Please type the exact prompt text.".
Definition MSG_TOO_FEW_EVENTS : string := "Not enough key events captured.".
Definition MSG_MODEL_NOT_FOUND : string := "Model not found. Please train the model first.".
Definition MSG_PREDICTION_FAILED : string := "Prediction failed".

(** What the results pane of the Predict tab displays. *)
Inductive Results : Type :=
  | ResultsEmpty
  | ResultsPredicting
  | ResultsPrediction (predicted_user : string) (confidence : Qc)
                      (probabilities : gmap string Qc)
  | ResultsError (message : string).

(** The attributes of [KeystrokeApp] the two actions read or write, and the
    dialogs shown so far. *)
Record App : Type := mkApp {
  text_input : string;
  user_var : string;
  current_events : list KeyEvent;
  session_start_time : option Qc;
  collect_status : string;
  predict_text_input : string;
  predict_events : list KeyEvent;
  predict_results : Results;
  dialogs : list Dialog
}.

Definition show (d : Dialog) (a : App) : App :=
  mkApp (text_input a) (user_var a) (current_events a) (session_start_time a)
        (collect_status a) (predict_text_input a) (predict_events a)
        (predict_results a) (dialogs a ++ [d]).

Definition set_results (r : Results) (a : App) : App :=
  mkApp (text_input a) (user_var a) (current_events a) (session_start_time a)
        (collect_status a) (predict_text_input a) (predict_events a)
        r (dialogs a).

(** [widget.get('1.0', tk.END).strip()] *)
Definition stripped (content : string) : string :=
  string_of_list_ascii (strip (list_ascii_of_string content)).

(** [sum(1 for s in sessions if s['user'] == user)]: [s['user']] raises on a
    session without a user. *)
Definition count_user (sessions : list Session) (u : string) : option nat :=
  for_each
    (λ n s, su ← user s; Some (if String.eqb su u then n + 1 else n))
    sessions 0.

Section with_externals.
Variable sqrt : Qc → Qc.
Variable sk : sklearn.Classifier.

(** [KeystrokeApp.save_session]; [now] is [datetime.now().isoformat()]. *)
Definition save_session (now : string) (a : App) : IO sk App :=
  let typed_text := stripped (text_input a) in
  let user := user_var a in
  if bool_decide (typed_text = "") then mret (show (showwarning MSG_NOTHING_TYPED) a)
  else
    valid ← lift (validate_typed_text typed_text PROMPT_TEXT default_min_similarity);
    if negb valid then mret (show (showwarning MSG_MISMATCH) a)
    else if bool_decide (length (current_events a) < 4)
    then mret (show (showwarning MSG_TOO_FEW_EVENTS) a)
    else
      found ← path_exists SESSIONS_FILE;
      sessions ← (if found : bool then
                    f ← load SESSIONS_FILE;
                    match f with
                    | SessionsJson sessions => mret sessions
                    | _ => raise
                    end
                  else mret []);
      let new_session := mkSession (Some user) (Some (current_events a)) typed_text now in
      let sessions := sessions ++ [new_session] in
      _ ← dump SESSIONS_FILE (SessionsJson sessions);
      n ← lift (count_user sessions user);
      let status :=
        ("Session saved! Total sessions for user " ++ user ++ ": "
           ++ pretty n)%string in
      mret (show (showinfo ("Session saved for user " ++ user ++ "!")%string)
              (mkApp "" user [] None status (predict_text_input a)
                     (predict_events a) (predict_results a) (dialogs a))).

(** [KeystrokeApp.predict_action] *)
Definition predict_action (a : App) : IO sk App :=
  let typed_text := stripped (predict_text_input a) in
  if bool_decide (typed_text = "") then mret (show (showwarning MSG_NOTHING_TYPED) a)
  else
    valid ← lift (validate_typed_text typed_text PROMPT_TEXT default_min_similarity);
    if negb valid then mret (show (showwarning MSG_MISMATCH) a)
    else if bool_decide (length (predict_events a) < 4)
    then mret (show (showwarning MSG_TOO_FEW_EVENTS) a)
    else
      let a := set_results ResultsPredicting a in
      try_except
        (result ← predict.predict_user sqrt sk (predict_events a)
                                       train.default_model_path;
         match result with
         | predict.Predicted predicted_user confidence probabilities =>
             mret (set_results
                     (ResultsPrediction predicted_user confidence probabilities) a)
         | predict.ModelNotFound =>
             mret (show (showerror MSG_MODEL_NOT_FOUND)
                     (set_results (ResultsError MSG_MODEL_NOT_FOUND) a))
         end)
        (mret (show (showerror MSG_PREDICTION_FAILED)
                 (set_results (ResultsError MSG_PREDICTION_FAILED) a))).

End with_externals.

End app.

(** ** Concrete data for evaluating the definitions *)

Module sample.
Import py features io.

(** Three keys typed with a constant hold time and a constant rhythm. *)
Definition typing (dwell gap : Z) : list KeyEvent :=
  [mkEvent "t" "down" (Qc_of_Z 0); mkEvent "t" "up" (Qc_of_Z dwell);
   mkEvent "h" "down" (Qc_of_Z gap); mkEvent "h" "up" (Qc_of_Z (gap + dwell));
   mkEvent "e" "down" (Qc_of_Z (2 * gap));
   mkEvent "e" "up" (Qc_of_Z (2 * gap + dwell))].

Definition session (u : string) (dwell gap : Z) : Session :=
  mkSession (Some u) (Some (typing dwell gap)) app.PROMPT_TEXT
            "2024-01-01T00:00:00".

Definition alice : Session := session "A" 80 120.
Definition bob : Session := session "B" 90 150.

Definition empty_world : World sklearn.memorizer := mkWorld ∅ [].

(** A disk that holds only the session collection. *)
Definition world (sessions : list Session) : World sklearn.memorizer :=
  mkWorld {[ train.default_data_path := SessionsJson sessions ]} [].

(** The same disk once [load_sessions] has read it. *)
Definition world_loaded (sessions : list Session) : World sklearn.memorizer :=
  mkWorld {[ train.default_data_path := SessionsJson sessions ]}
          [train.default_data_path].

(** The memorized rows of [alice] and [bob]. *)
Definition model : sklearn.Model sklearn.memorizer :=
  [([Qc_of_Z 80; Qc_of_Z 0; Qc_of_Z 80; Qc_of_Z 120; Qc_of_Z 0; Qc_of_Z 120], "A");
   ([Qc_of_Z 90; Qc_of_Z 0; Qc_of_Z 90; Qc_of_Z 150; Qc_of_Z 0; Qc_of_Z 150], "B")].

(** A disk that holds the model and a feature order that is not the one of
    the code. *)
Definition model_world : World sklearn.memorizer :=
  mkWorld
    (<[ train.feature_order_path :=
          FeatureOrderJoblib (reverse train.feature_order) ]>
       {[ train.default_model_path := ModelJoblib (sk:=sklearn.memorizer) model ]})
    [].

(** The application right after start, and with the prompt typed in both
    tabs while only one key stroke was captured. *)
Definition fresh_app : app.App :=
  app.mkApp "" "A" [] None "Ready to collect data" "" [] app.ResultsEmpty [].

Definition pasted_app : app.App :=
  app.mkApp app.PROMPT_TEXT "A"
            [mkEvent "t" "down" (Qc_of_Z 0); mkEvent "t" "up" (Qc_of_Z 80)] None
            "Ready to collect data" app.PROMPT_TEXT
            [mkEvent "t" "down" (Qc_of_Z 0); mkEvent "t" "up" (Qc_of_Z 80)]
            app.ResultsEmpty [].

End sample.

(** ** The properties, in the specification's own terms *)

Module spec.
Import py features.

(** [s] is the input [l] sorted by [k], ascending, ties in input order. *)
Definition stable_sorted {A : Type} (k : A → Qc) (l s : list A) : Prop :=
  Sorted (λ x y, k x ≤ k y)%Qc s ∧ s ≡ₚ l ∧
  ∀ τ, filter (λ x, k x = τ) s = filter (λ x, k x = τ) l.

(** The pending press timestamps of every key, oldest first. *)
Definition queues : Type := string → list Qc.

Definition no_pending : queues := λ _, [].

Definition set_queue (q : queues) (k : string) (l : list Qc) : queues :=
  λ k', if bool_decide (k' = k) then l else q k'.

Definition is_press (e : KeyEvent) : Prop := ev_type e = "down".
Definition is_release (e : KeyEvent) : Prop := ev_type e = "up".

(** Per-key FIFO matching of releases with presses over a sequence that is
    already in processing order. *)
Fixpoint fifo_dwell (q : queues) (evs : list KeyEvent) : list Qc :=
  match evs with
  | [] => []
  | e :: evs' =>
      let k := ev_key e in
      if bool_decide (is_press e) then
        fifo_dwell (set_queue q k (q k ++ [ev_t e])) evs'
      else if bool_decide (is_release e) then
        match q k with
        | [] => fifo_dwell q evs'
        | press_t :: rest =>
            let d := (ev_t e - press_t)%Qc in
            (if bool_decide (0 < d)%Qc then [d] else [])
              ++ fifo_dwell (set_queue q k rest) evs'
        end
      else fifo_dwell q evs'
  end.

(** Two orderings of an event list agree, for every key, on the relative
    order of that key's events that carry one and the same timestamp. *)
Definition same_key_ties (l l' : list KeyEvent) : Prop :=
  ∀ κ τ, filter (λ e, ev_key e = κ ∧ ev_t e = τ) l
         = filter (λ e, ev_key e = κ ∧ ev_t e = τ) l'.

(** The strictly positive differences of neighbours. *)
Fixpoint positive_gaps (ts : list Qc) : list Qc :=
  match ts with
  | [] => []
  | a :: ts' =>
      match ts' with
      | [] => []
      | b :: _ =>
          (if bool_decide (0 < b - a)%Qc then [(b - a)%Qc] else [])
            ++ positive_gaps ts'
      end
  end.

(** The timestamps of all presses, whatever their key. *)
Definition press_times (events : list KeyEvent) : list Qc :=
  ev_t <$> filter is_press events.

(** Prompt characters matched in order by one left-to-right scan of the
    typed text. *)
Fixpoint matched_in_order (typed prompt : list ascii) : nat :=
  match typed with
  | [] => 0
  | c :: typed' =>
      match prompt with
      | [] => 0
      | p :: prompt' =>
          if bool_decide (c = p) then S (matched_in_order typed' prompt')
          else matched_in_order typed' prompt
      end
  end.

(** A press and a release of key [k] at [ms] milliseconds. *)
Definition press (k : string) (ms : Z) : KeyEvent := mkEvent k "down" (Qc_of_Z ms).
Definition release (k : string) (ms : Z) : KeyEvent := mkEvent k "up" (Qc_of_Z ms).

(** Mean, sample variance and median of a sample list. *)
Definition mean (l : list Qc) : Qc := (Qc_sum l / Qc_of_nat (length l))%Qc.

Definition sample_variance (l : list Qc) : Qc :=
  (Qc_sum ((λ x, (x - mean l) * (x - mean l)) <$> l) / Qc_of_nat (length l - 1))%Qc.

(** [m] is the middle element, or the average of the two middle elements,
    of the ascending arrangement [s]. *)
Definition is_median_of_sorted (s : list Qc) (m : Qc) : Prop :=
  (length s `mod` 2 = 1 → s !! (length s `div` 2) = Some m) ∧
  (length s `mod` 2 = 0 →
   ∃ a b, s !! (length s `div` 2 - 1) = Some a ∧
          s !! (length s `div` 2) = Some b ∧
          m = ((a + b) / Qc_of_nat 2)%Qc).

(** Number of sessions carrying the label [u]. *)
Definition sessions_of (sessions : list io.Session) (u : string) : nat :=
  length (filter (λ s, train.label s = u) sessions).

(** The message of the dialog an action stops at when fewer than four
    events were captured, as a function of the stripped typed text. *)
Definition gate_message (typed_text : string) : string :=
  if bool_decide (typed_text = "") then app.MSG_NOTHING_TYPED
  else if bool_decide (validate_typed_text typed_text app.PROMPT_TEXT
                         default_min_similarity = Some true)
       then app.MSG_TOO_FEW_EVENTS
       else app.MSG_MISMATCH.

End spec.

(** ** Auxiliary notions of the proofs *)

Module aux.
Import py features.

(** The tuple [(event['t'], event['type'], event['key'])] of line 58. *)
Definition triple (e : KeyEvent) : Qc * string * string :=
  (ev_t e, ev_type e, ev_key e).

(** The dictionary of pending presses represents the queues. *)
Definition represents (m : gmap string (list Qc)) (q : spec.queues) : Prop :=
  ∀ k, default [] (m !! k) = q k.

(** FIFO matching for the single key [κ], events of other keys skipped. *)
Fixpoint key_dwell (κ : string) (pending : list Qc) (evs : list KeyEvent)
  : list Qc :=
  match evs with
  | [] => []
  | e :: evs' =>
      if bool_decide (ev_key e = κ) then
        if bool_decide (spec.is_press e) then
          key_dwell κ (pending ++ [ev_t e]) evs'
        else if bool_decide (spec.is_release e) then
          match pending with
          | [] => key_dwell κ [] evs'
          | press_t :: rest =>
              let d := (ev_t e - press_t)%Qc in
              (if bool_decide (0 < d)%Qc then [d] else [])
                ++ key_dwell κ rest evs'
          end
        else key_dwell κ pending evs'
      else key_dwell κ pending evs'
  end.

(** Body of the counting loop of [check_minimum_samples]. *)
Definition count_step (user_counts : gmap string nat) (session : io.Session)
  : gmap string nat :=
  <[train.label session :=
      default 0 (user_counts !! train.label session) + 1]> user_counts.

(** The numerators and denominators of a result, for comparing values. *)
Definition feature_values (o : option FeatureVector) : option (list Q) :=
  (λ f, this <$> train.feature_vector f) <$> o.

Definition sample_values (o : option (list Qc)) : option (list Q) :=
  fmap (M:=list) this <$> o.

End aux.

(** ** [app.py]: key capture and the training action *)

Module capture.
Import py features.

(** The part of a Tk key event the handlers read. *)
Record TkEvent : Type := mkTkEvent {
  char : string;
  keysym : string
}.

(** The capture state of one tab: [current_events] with
    [session_start_time] on the Collect tab, [predict_events] with
    [predict_start_time] on the Predict tab.  The handlers of the two tabs
    ([on_key_down] and [on_predict_key_down], ...) are the same code on the
    two pairs of attributes. *)
Record Capture : Type := mkCapture {
  events : list KeyEvent;
  start_time : option Qc
}.

Definition initial : Capture := mkCapture [] None.

(** What happens to a text widget, in the order of occurrence. *)
Inductive Action : Type :=
  | FocusIn
  | KeyPress (event : TkEvent)
  | KeyRelease (event : TkEvent)
  | Clear.

Section with_clock.

(** [clock i] is the value of [datetime.now().timestamp() * 1000] at the
    [i]-th reading of the clock; a handler is run from the number of readings
    made so far and returns the new number. *)
Variable clock : nat → Qc.

(** [event.char if event.char else event.keysym] *)
Definition key_of (event : TkEvent) : string :=
  if bool_decide (char event = "") then keysym event else char event.

Definition on_focus_in (s : Capture * nat) : Capture * nat :=
  let '(c, n) := s in
  (mkCapture [] (Some (clock n)), n + 1).

Definition on_key_down (event : TkEvent) (s : Capture * nat) : Capture * nat :=
  let '(c, n) := s in
  let '(start, n) :=
    match start_time c with
    | None => (clock n, n + 1)
    | Some start => (start, n)
    end in
  let current_time := clock n in
  let relative_time := (current_time - start)%Qc in
  let key := key_of event in
  (mkCapture (events c ++ [mkEvent key "down" relative_time]) (Some start),
   n + 1).

Definition on_key_up (event : TkEvent) (s : Capture * nat) : Capture * nat :=
  let '(c, n) := s in
  match start_time c with
  | None => (c, n)
  | Some start =>
      let current_time := clock n in
      let relative_time := (current_time - start)%Qc in
      let key := key_of event in
      (mkCapture (events c ++ [mkEvent key "up" relative_time]) (Some start),
       n + 1)
  end.

(** The capture part of [clear_input] and [clear_predict_input]. *)
Definition clear_input (s : Capture * nat) : Capture * nat :=
  let '(c, n) := s in (mkCapture [] None, n).

Definition handle (a : Action) : Capture * nat → Capture * nat :=
  match a with
  | FocusIn => on_focus_in
  | KeyPress event => on_key_down event
  | KeyRelease event => on_key_up event
  | Clear => clear_input
  end.

(** The handlers run on a sequence of actions. *)
Definition run (actions : list Action) (s : Capture * nat) : Capture * nat :=
  foldl (λ s a, handle a s) s actions.

End with_clock.

End capture.

Module gui.
Import py features io.

(** The ['error'] message of a failed training. *)
Definition error_message (result : train.TrainResult) : string :=
  match result with
  | train.NoData => "No sessions found. Please collect data first."
  | train.InsufficientSamples min_per_user _ =>
      ("Not enough samples. Need at least " ++ pretty min_per_user
         ++ " per user.")%string
  | train.InsufficientClasses =>
      "Need at least 2 different users to train a classifier."
  | train.Trained _ _ _ _ _ => ""
  end.

(** What the results pane of the Train tab displays at the end. *)
Inductive TrainPane : Type :=
  | PaneSuccess (accuracy : Qc) (total_sessions train_size test_size : nat)
                (user_counts : gmap string nat)
  | PaneFailure (error : string) (user_counts : option (gmap string nat))
  | PaneException.

Section with_externals.
Variable sqrt : Qc → Qc.
Variable sk : sklearn.Classifier.

(** [KeystrokeApp.train_model_action]: the pane and the dialog it ends with. *)
Definition train_model_action : IO sk (TrainPane * app.Dialog) :=
  try_except
    (result ← train.train_model sqrt sk train.default_data_path
                train.default_model_path train.default_min_per_user
                train.default_test_size;
     match result with
     | train.Trained accuracy user_counts total_sessions train_size test_size =>
         mret (PaneSuccess accuracy total_sessions train_size test_size
                 user_counts,
               app.showinfo "Model trained successfully!")
     | train.InsufficientSamples _ user_counts =>
         mret (PaneFailure (error_message result) (Some user_counts),
               app.showerror (error_message result))
     | _ =>
         mret (PaneFailure (error_message result) None,
               app.showerror (error_message result))
     end)
    (mret (PaneException, app.showerror "Training failed")).

End with_externals.

End gui.

(** ** Further notions used to state properties of the code *)

Module more.
Import py features.

(** One key stroke: a key held from [down] to [up]. *)
Record Stroke : Type := mkStroke {
  stroke_key : string;
  down : Qc;
  up : Qc
}.

(** The press and the release of each stroke, in typing order. *)
Definition events_of (strokes : list Stroke) : list KeyEvent :=
  strokes ≫= λ k, [mkEvent (stroke_key k) "down" (down k);
                   mkEvent (stroke_key k) "up" (up k)].

(** Every key is released strictly after it is pressed. *)
Definition held (strokes : list Stroke) : Prop :=
  Forall (λ k, down k < up k)%Qc strokes.

(** No two strokes overlap: each key is released strictly before the next
    one is pressed. *)
Fixpoint one_at_a_time (strokes : list Stroke) : Prop :=
  match strokes with
  | [] => True
  | k :: strokes' =>
      match strokes' with
      | [] => True
      | k' :: _ => (up k < down k')%Qc
      end ∧ one_at_a_time strokes'
  end.

(** A press or a release: the only events the extractor acts on. *)
Definition is_transition (e : KeyEvent) : Prop :=
  spec.is_press e ∨ spec.is_release e.

#[global] Instance is_transition_dec e : Decision (is_transition e).
Proof. unfold is_transition, spec.is_press, spec.is_release. apply _. Defined.

(** The sum of the counts of a [user_counts] dictionary. *)
Definition total_count (user_counts : gmap string nat) : nat :=
  map_fold (λ _ n acc, n + acc) 0 user_counts.

(** Readings of the clock never go back. *)
Definition monotone (clock : nat → Qc) : Prop :=
  ∀ i j, i ≤ j → (clock i ≤ clock j)%Qc.

(** A capture state after [n] readings of the clock: outside a session
    nothing is recorded; inside a session started at reading [i], the events
    are in time order and each was stamped at a reading from [i] on. *)
Definition in_session (clock : nat → Qc) (s : capture.Capture * nat) : Prop :=
  match capture.start_time s.1 with
  | None => capture.events s.1 = []
  | Some start =>
      ∃ i, i < s.2 ∧ start = clock i ∧
           StronglySorted (λ a b, ev_t a ≤ ev_t b)%Qc (capture.events s.1) ∧
           Forall (λ e, is_transition e ∧
                        ∃ j, i ≤ j < s.2 ∧ ev_t e = (clock j - clock i)%Qc)
                  (capture.events s.1)
  end.

(** A stored session with a ['user'] entry. *)
Definition has_user (s : io.Session) : Prop := is_Some (io.user s).

End more.

(** * Proofs *)

Ltac io_simpl :=
  unfold mbind, mret, io.io_bind, io.io_ret, io.bind, io.ret, io.lift, io.raise.

(** ** Facts about the Python primitives *)

Section sort_facts.
Import py.
Context {A : Type} (k : A → Qc).

Let le_k : relation A := λ x y, (k x ≤ k y)%Qc.

Lemma insert_by_perm x l : insert_by k x l ≡ₚ x :: l.
Proof.
  induction l as [|y l IH]; simpl; [done|].
  case_bool_decide; [done|]. rewrite IH. apply perm_swap.
Qed.

Lemma sort_by_perm l : sort_by k l ≡ₚ l.
Proof.
  induction l as [|x l IH]; simpl; [done|].
  by rewrite insert_by_perm, IH.
Qed.

Lemma length_sort_by l : length (sort_by k l) = length l.
Proof. by rewrite sort_by_perm. Qed.

Lemma insert_by_sorted x l : Sorted le_k l → Sorted le_k (insert_by k x l).
Proof.
  induction 1 as [|y l Hl IH Hy]; simpl.
  - repeat constructor.
  - case_bool_decide as Hxy.
    + repeat constructor; done.
    + constructor; [done|].
      assert (le_k y x) as Hyx by (apply Qclt_le_weak; by apply Qclt_nge).
      destruct Hy as [|z l Hyz]; simpl; [by repeat constructor|].
      case_bool_decide; by constructor.
Qed.

Lemma sort_by_sorted l : Sorted le_k (sort_by k l).
Proof.
  induction l as [|x l IH]; simpl; [constructor|]. by apply insert_by_sorted.
Qed.

Lemma insert_by_filter τ x l :
  filter (λ y, k y = τ) (insert_by k x l) = filter (λ y, k y = τ) (x :: l).
Proof.
  induction l as [|y l IH]; simpl; [done|].
  case_bool_decide as Hxy; [done|].
  rewrite filter_cons, IH, !filter_cons.
  repeat case_decide; try done.
  exfalso. apply Hxy. by replace (k x) with τ; replace (k y) with τ.
Qed.

Lemma sort_by_filter τ l :
  filter (λ y, k y = τ) (sort_by k l) = filter (λ y, k y = τ) l.
Proof.
  induction l as [|x l IH]; simpl; [done|].
  by rewrite insert_by_filter, !filter_cons, IH.
Qed.

Lemma sort_by_stable l : spec.stable_sorted k l (sort_by k l).
Proof.
  split_and!; [apply sort_by_sorted | apply sort_by_perm |].
  intros τ; apply sort_by_filter.
Qed.

(** Two arrangements of the same elements, both ascending and with the same
    order among ties, are the same list. *)
Lemma sorted_ties_unique s1 s2 :
  Sorted le_k s1 → Sorted le_k s2 → s1 ≡ₚ s2 →
  (∀ τ, filter (λ y, k y = τ) s1 = filter (λ y, k y = τ) s2) → s1 = s2.
Proof.
  assert (Transitive le_k) as Htrans.
  { intros x y z. unfold le_k. apply Qcle_trans. }
  intros H1 H2. apply Sorted_StronglySorted in H1, H2; try done.
  revert s2 H2. induction H1 as [|x s1 Hs1 IH Hx]; intros s2 H2 Hperm Hties.
  { by apply Permutation_nil_l in Hperm. }
  destruct H2 as [|y s2 Hs2 Hy]; [by apply Permutation_nil_r in Hperm|].
  assert (k x = k y) as Hk.
  { apply Qcle_antisym.
    - assert (y ∈ x :: s1) as [->|Hin]%elem_of_cons by (rewrite Hperm; left).
      + apply Qcle_refl.
      + by apply (proj1 (Forall_forall _ _) Hx).
    - assert (x ∈ y :: s2) as [->|Hin]%elem_of_cons by (rewrite <-Hperm; left).
      + apply Qcle_refl.
      + by apply (proj1 (Forall_forall _ _) Hy). }
  assert (x = y) as ->.
  { specialize (Hties (k x)). rewrite !filter_cons in Hties.
    rewrite decide_True in Hties by done.
    rewrite decide_True in Hties by done. congruence. }
  f_equal. apply IH; [done|by apply (inj (cons y))|].
  intros τ. specialize (Hties τ). rewrite !filter_cons in Hties.
  case_decide; congruence.
Qed.

Lemma stable_sorted_sort_by l s : spec.stable_sorted k l s → s = sort_by k l.
Proof.
  intros (Hs & Hp & Ht). destruct (sort_by_stable l) as (Hs' & Hp' & Ht').
  apply sorted_ties_unique; [done..|by rewrite Hp, Hp'|].
  intros τ. by rewrite Ht, Ht'.
Qed.

End sort_facts.

Lemma sort_by_fmap {A B} (k : A → Qc) (f : B → A) (l : list B) :
  py.sort_by k (f <$> l) = f <$> py.sort_by (k ∘ f) l.
Proof.
  induction l as [|x l IH]; [done|].
  rewrite fmap_cons. cbn [py.sort_by]. rewrite IH.
  generalize (py.sort_by (k ∘ f) l). intros s.
  induction s as [|y s IHs]; [done|].
  rewrite fmap_cons. cbn [py.insert_by]. unfold compose at 1 2.
  destruct (bool_decide _); [done|]. by rewrite fmap_cons, IHs.
Qed.

(** With the order on the elements themselves, sorting depends on the
    elements only, not on their input order. *)
Lemma sort_by_id_perm (l1 l2 : list Qc) :
  l1 ≡ₚ l2 → py.sort_by id l1 = py.sort_by id l2.
Proof.
  intros Hp. apply (Sorted_unique Qcle).
  - apply (sort_by_sorted id).
  - apply (sort_by_sorted id).
  - by rewrite !sort_by_perm.
Qed.

(** ** Dwell samples *)

Section dwell_facts.
Import py features spec aux.

Lemma represents_empty : represents ∅ no_pending.
Proof. intros k. by rewrite lookup_empty. Qed.

Lemma represents_insert m q k l :
  represents m q → represents (<[k := l]> m) (set_queue q k l).
Proof.
  intros Hr k'. unfold set_queue. case_bool_decide as Hk.
  - subst. by rewrite lookup_insert_eq.
  - rewrite lookup_insert_ne by done. apply Hr.
Qed.

Lemma dwell_step_fifo m q d e evs :
  represents m q →
  ∃ m' q' d',
    dwell_step (m, d) (triple e) = Some (m', d ++ d') ∧ represents m' q' ∧
    fifo_dwell q (e :: evs) = d' ++ fifo_dwell q' evs.
Proof.
  intros Hr. unfold dwell_step, triple. cbn [fifo_dwell].
  unfold is_press, is_release.
  destruct (String.eqb_spec (ev_type e) "down") as [Hd|Hd].
  { rewrite (bool_decide_eq_true_2 (ev_type e = "down")) by done.
    pose proof (Hr (ev_key e)) as Hk.
    destruct (m !! ev_key e) as [l|] eqn:Hl; simpl in Hk.
    - rewrite bool_decide_eq_true_2 by done. rewrite Hl. simpl.
      eexists _, _, []. rewrite app_nil_r. split_and!; [done| |done].
      rewrite <-Hk. by apply represents_insert.
    - rewrite bool_decide_eq_false_2 by (by intros [??]).
      rewrite lookup_insert_eq. simpl.
      eexists _, _, []. rewrite app_nil_r. split_and!; [done| |done].
      rewrite <-Hk. rewrite insert_insert_eq. by apply represents_insert. }
  rewrite (bool_decide_eq_false_2 (ev_type e = "down")) by done.
  destruct (String.eqb_spec (ev_type e) "up") as [Hu|Hu].
  { rewrite (bool_decide_eq_true_2 (ev_type e = "up")) by done.
    pose proof (Hr (ev_key e)) as Hk.
    destruct (m !! ev_key e) as [l|] eqn:Hl; simpl in Hk.
    - rewrite bool_decide_eq_true_2 by done. simpl. rewrite <-Hk.
      destruct l as [|press_t rest]; simpl.
      + eexists m, q, []. by rewrite app_nil_r.
      + case_bool_decide.
        * eexists _, _, [_]. split_and!; [done| |done].
          by apply represents_insert.
        * eexists _, _, []. rewrite app_nil_r. split_and!; [done| |done].
          by apply represents_insert.
    - rewrite bool_decide_eq_false_2 by (by intros [??]). simpl.
      rewrite <-Hk. eexists m, q, []. by rewrite app_nil_r. }
  rewrite (bool_decide_eq_false_2 (ev_type e = "up")) by done.
  eexists m, q, []. by rewrite app_nil_r.
Qed.

Lemma dwell_loop_fifo evs : ∀ m q d,
  represents m q →
  ∃ m', for_each dwell_step (triple <$> evs) (m, d)
        = Some (m', d ++ fifo_dwell q evs).
Proof.
  induction evs as [|e evs IH]; intros m q d Hr.
  { exists m. simpl. by rewrite app_nil_r. }
  destruct (dwell_step_fifo m q d e evs Hr) as (m' & q' & d' & Hstep & Hr' & Hq).
  rewrite Hq, fmap_cons. cbn [for_each]. rewrite Hstep. simpl.
  destruct (IH m' q' (d ++ d') Hr') as [m'' ->].
  exists m''. by rewrite app_assoc.
Qed.

Lemma dwell_times_of_fifo events :
  dwell_times_of events = Some (fifo_dwell no_pending (sort_by ev_t events)).
Proof.
  unfold dwell_times_of.
  change (λ event, (ev_t event, ev_type event, ev_key event)) with triple.
  rewrite (sort_by_fmap (λ x, x.1.1) triple).
  destruct (dwell_loop_fifo (sort_by ((λ x, x.1.1) ∘ triple) events)
              ∅ no_pending [] represents_empty) as [m' ->].
  done.
Qed.

Lemma fifo_dwell_positive evs : ∀ q d, d ∈ fifo_dwell q evs → (0 < d)%Qc.
Proof.
  induction evs as [|e evs IH]; intros q d; simpl; [by intros ?%elem_of_nil|].
  repeat case_bool_decide; eauto.
  destruct (q (ev_key e)); eauto.
  case_bool_decide; simpl; eauto.
  intros [->|?]%elem_of_cons; eauto.
Qed.

End dwell_facts.

(** ** Insertion-ordered dictionaries *)

Section odict_facts.
Import py.
Context {V : Type}.
Implicit Types (d : odict V) (k : string) (v : V).

Lemma odict_get_None d k : odict_get d k = None → k ∉ d.*1.
Proof.
  induction d as [|[k' v'] d IH]; simpl; [intros _; apply not_elem_of_nil|].
  destruct (String.eqb_spec k' k); [done|].
  intros Hd [->|?]%elem_of_cons; [done|]. by apply IH.
Qed.

Lemma odict_get_head d1 d2 k v :
  k ∉ d1.*1 → odict_get (d1 ++ (k, v) :: d2) k = Some v.
Proof.
  induction d1 as [|[k' v'] d1 IH]; simpl.
  - by rewrite String.eqb_refl.
  - intros Hk. apply not_elem_of_cons in Hk as [Hne Hk].
    destruct (String.eqb_spec k' k); [congruence|]. by apply IH.
Qed.

Lemma odict_set_new d k v : odict_get d k = None → odict_set d k v = d ++ [(k, v)].
Proof.
  induction d as [|[k' v'] d IH]; simpl; [done|].
  destruct (String.eqb_spec k' k); [done|]. intros Hd. by rewrite IH.
Qed.

Lemma odict_set_old d k v0 v :
  odict_get d k = Some v0 →
  ∃ d1 d2, d = d1 ++ (k, v0) :: d2 ∧ odict_set d k v = d1 ++ (k, v) :: d2.
Proof.
  induction d as [|[k' v'] d IH]; simpl; [done|].
  destruct (String.eqb_spec k' k) as [->|Hne].
  - intros [= ->]. by exists [], d.
  - intros Hd. destruct (IH Hd) as (d1 & d2 & -> & ->).
    by exists ((k', v') :: d1), d2.
Qed.

End odict_facts.

(** ** Flight samples *)

Section flight_facts.
Import py features spec.

Lemma group_append_spec d k ts :
  NoDup d.*1 →
  ∃ d', group_append d k ts = Some d' ∧ NoDup d'.*1 ∧
        concat d'.*2 ≡ₚ ts :: concat d.*2.
Proof.
  intros Hnd. unfold group_append, odict_mem.
  destruct (odict_get d k) as [l|] eqn:Hget.
  - rewrite Hget. simpl.
    destruct (odict_set_old d k l (l ++ [ts]) Hget) as (d1 & d2 & -> & ->).
    eexists. split_and!; [done| |].
    + by rewrite fmap_app, fmap_cons in *.
    + rewrite !fmap_app, !fmap_cons, !concat_app, !concat_cons. simpl.
      rewrite <-(assoc_L (++) l). simpl.
      by rewrite <-!Permutation_middle.
  - rewrite (odict_set_new d k [] Hget).
    rewrite (odict_get_head d [] k []) by (by apply odict_get_None). simpl.
    destruct (odict_set_old (d ++ [(k, [])]) k [] [ts]) as (d1 & d2 & Heq & ->).
    { apply odict_get_head. by apply odict_get_None. }
    eexists. split_and!; [done| |].
    + apply (f_equal (fmap fst)) in Heq.
      rewrite !fmap_app, !fmap_cons in *. cbn [fst] in *. rewrite <-Heq.
      apply NoDup_app. split_and!; [done| |apply NoDup_singleton].
      intros k' Hk' ->%list_elem_of_singleton. by apply odict_get_None in Hget.
    + apply (f_equal (λ d, concat d.*2)) in Heq.
      rewrite !fmap_app, !fmap_cons, !concat_app, !concat_cons in *.
      simpl in *. rewrite app_nil_r in Heq. rewrite Heq.
      by rewrite <-Permutation_middle.
Qed.

Lemma group_step_spec kd ku e :
  NoDup kd.*1 → NoDup ku.*1 →
  ∃ kd' ku', group_step (kd, ku) e = Some (kd', ku') ∧
             NoDup kd'.*1 ∧ NoDup ku'.*1 ∧
             concat kd'.*2 ≡ₚ press_times [e] ++ concat kd.*2.
Proof.
  intros Hkd Hku. unfold group_step, press_times.
  rewrite filter_cons, filter_nil. unfold is_press at 1.
  destruct (String.eqb_spec (ev_type e) "down") as [Hd|Hd].
  - destruct (group_append_spec kd (ev_key e) (ev_t e) Hkd) as (kd1 & -> & Hnd & Hp).
    exists kd1, ku. by rewrite decide_True.
  - rewrite decide_False by done.
    destruct (String.eqb (ev_type e) "up").
    + destruct (group_append_spec ku (ev_key e) (ev_t e) Hku) as (ku1 & -> & Hnd & Hp).
      by exists kd, ku1.
    + by exists kd, ku.
Qed.

Lemma group_loop_spec events : ∀ kd ku,
  NoDup kd.*1 → NoDup ku.*1 →
  ∃ kd' ku', for_each group_step events (kd, ku) = Some (kd', ku') ∧
             NoDup kd'.*1 ∧ NoDup ku'.*1 ∧
             concat kd'.*2 ≡ₚ concat kd.*2 ++ press_times events.
Proof.
  induction events as [|e events IH]; intros kd ku Hkd Hku.
  { exists kd, ku. unfold press_times. simpl. by rewrite app_nil_r. }
  cbn [for_each].
  destruct (group_step_spec kd ku e Hkd Hku) as (kd1 & ku1 & -> & Hkd1 & Hku1 & Hp).
  cbn [mbind option_bind]. destruct (IH kd1 ku1 Hkd1 Hku1) as (kd' & ku' & Heq & ? & ? & Hp').
  exists kd', ku'. split_and!; [exact Heq|done..|].
  rewrite Hp', Hp. unfold press_times. rewrite (filter_cons _ e events).
  rewrite filter_cons, filter_nil.
  case_decide; simpl; [|done]. by rewrite <-Permutation_middle.
Qed.

Lemma all_downs_loop (d1 d2 : odict (list Qc)) (acc : list (Qc * string)) :
  NoDup (d1 ++ d2).*1 →
  ∃ l, for_each
         (λ all_downs key,
            l ← odict_get (d1 ++ d2) key;
            Some (all_downs ++ ((λ timestamp, (timestamp, key)) <$> l)))
         d2.*1 acc = Some l ∧
       l.*1 = acc.*1 ++ concat d2.*2.
Proof.
  revert d1 acc. induction d2 as [|[k v] d2 IH]; intros d1 acc Hnd.
  { exists acc. simpl. by rewrite app_nil_r. }
  rewrite fmap_cons. cbn [for_each fst].
  rewrite odict_get_head; last first.
  { rewrite fmap_app, fmap_cons in Hnd. apply NoDup_app in Hnd as (_ & Hnd & _).
    intros Hk. apply (Hnd k Hk). left. }
  simpl. specialize (IH (d1 ++ [(k, v)])). rewrite <-(assoc_L (++)) in IH.
  destruct (IH (acc ++ ((λ timestamp, (timestamp, k)) <$> v)) Hnd) as (l & Heq & Hl).
  exists l. split; [exact Heq|]. rewrite Hl, fmap_app, <-(assoc_L (++)).
  do 2 f_equal. rewrite <-list_fmap_compose.
  clear. induction v as [|x v IHv]; [done|]. rewrite fmap_cons. by f_equal.
Qed.

Lemma all_downs_of_spec (d : odict (list Qc)) :
  NoDup d.*1 → ∃ l, all_downs_of d = Some l ∧ l.*1 = concat d.*2.
Proof. intros Hnd. apply (all_downs_loop [] d []). done. Qed.

Lemma positive_gaps_drop (ts : list Qc) i a b :
  ts !! i = Some a → ts !! (i + 1) = Some b →
  positive_gaps (drop i ts) =
  (if bool_decide (0 < b - a)%Qc then [(b - a)%Qc] else [])
    ++ positive_gaps (drop (i + 1) ts).
Proof.
  intros Ha Hb. rewrite (drop_S _ _ _ Ha).
  replace (S i) with (i + 1) by lia. rewrite (drop_S _ _ _ Hb). done.
Qed.

Lemma flight_loop_from (l : list (Qc * string)) cnt : ∀ i acc,
  i + cnt = length l - 1 →
  for_each
    (λ flight_times i,
       a ← l !! (i + 1);
       b ← l !! i;
       let flight_time := (a.1 - b.1)%Qc in
       if bool_decide (0 < flight_time)%Qc
       then Some (flight_times ++ [flight_time])
       else Some flight_times)
    (seq i cnt) acc = Some (acc ++ positive_gaps (drop i l.*1)).
Proof.
  induction cnt as [|cnt IH]; intros i acc Hi.
  { simpl. rewrite Nat.add_0_r in Hi.
    assert (length (drop i l.*1) ≤ 1) as Hlen.
    { rewrite length_drop, length_fmap. lia. }
    destruct (drop i l.*1) as [|? [|??]]; simpl in *; [by rewrite app_nil_r..|lia]. }
  cbn [seq for_each].
  destruct (lookup_lt_is_Some_2 l (i + 1)) as [a Ha]; [lia|].
  destruct (lookup_lt_is_Some_2 l i) as [b Hb]; [lia|].
  rewrite Ha, Hb. simpl.
  rewrite (positive_gaps_drop l.*1 i b.1 a.1)
    by (by rewrite list_lookup_fmap; (rewrite Ha || rewrite Hb)).
  replace (S i) with (i + 1) by lia.
  case_bool_decide; simpl.
  - rewrite IH by lia. by rewrite <-(assoc_L (++)).
  - rewrite IH by lia. done.
Qed.

Lemma flight_loop_spec l : flight_loop l = Some (positive_gaps l.*1).
Proof. unfold flight_loop. by rewrite (flight_loop_from l _ 0 []). Qed.

Lemma flight_times_of_spec events :
  flight_times_of events = Some (positive_gaps (sort_by id (press_times events))).
Proof.
  unfold flight_times_of.
  destruct (group_loop_spec events [] [])
    as (kd & ku & -> & Hnd & _ & Hp); [constructor..|].
  simpl. destruct (all_downs_of_spec kd Hnd) as (l & -> & Hl). simpl.
  rewrite flight_loop_spec. f_equal. f_equal.
  trans (sort_by id l.*1); [exact (eq_sym (sort_by_fmap id fst l))|].
  apply sort_by_id_perm. by rewrite Hl, Hp.
Qed.

Lemma positive_gaps_positive ts d : d ∈ positive_gaps ts → (0 < d)%Qc.
Proof.
  induction ts as [|a [|b ts] IH]; simpl; [by intros ?%elem_of_nil..|].
  case_bool_decide; simpl; [|done].
  intros [->|?]%elem_of_cons; eauto.
Qed.

End flight_facts.

(** ** Statistics *)

Section stats_facts.
Import py features spec.
Variable sqrt : Qc → Qc.

Lemma statistics_mean_spec values :
  values ≠ [] → statistics_mean values = Some (mean values).
Proof. by destruct values. Qed.

Lemma statistics_stdev_spec values :
  1 < length values →
  statistics_stdev sqrt values = Some (sqrt (sample_variance values)).
Proof.
  intros Hlen. unfold statistics_stdev, statistics_variance.
  rewrite bool_decide_eq_false_2 by lia.
  rewrite statistics_mean_spec by (intros ->; simpl in *; lia). done.
Qed.

Lemma statistics_median_spec values :
  values ≠ [] →
  ∃ m, statistics_median values = Some m ∧
       is_median_of_sorted (sort_by id values) m.
Proof.
  intros Hne. unfold statistics_median, is_median_of_sorted.
  set (s := sort_by id values).
  assert (0 < length s) as Hlen.
  { unfold s. rewrite length_sort_by. destruct values; [done|simpl; lia]. }
  cbv zeta. rewrite bool_decide_eq_false_2 by lia.
  pose proof (Nat.div_lt (length s) 2 Hlen) as Hhalf.
  destruct (lookup_lt_is_Some_2 s (length s `div` 2)) as [b Hb]; [lia|].
  case_bool_decide as Hodd.
  - exists b. split; [done|]. split; [done|lia].
  - destruct (lookup_lt_is_Some_2 s (length s `div` 2 - 1)) as [a Ha]; [lia|].
    rewrite Ha, Hb. simpl. eexists. split; [done|].
    split; [done|]. intros _. by exists a, b.
Qed.

Lemma calc_stats_nonempty values :
  values ≠ [] →
  ∃ median,
    is_median_of_sorted (sort_by id values) median ∧
    calc_stats sqrt values =
      Some (mean values,
            if bool_decide (1 < length values)
            then sqrt (sample_variance values) else 0%Qc,
            median).
Proof.
  intros Hne. destruct (statistics_median_spec values Hne) as (m & Hm & Hmed).
  exists m. split; [done|]. unfold calc_stats.
  destruct values as [|x values]; [done|].
  rewrite statistics_mean_spec by done. cbn [mbind option_bind].
  case_bool_decide.
  - rewrite statistics_stdev_spec by done. cbn [mbind option_bind].
    by rewrite Hm.
  - cbn [mbind option_bind]. by rewrite Hm.
Qed.

Lemma calc_stats_total values : is_Some (calc_stats sqrt values).
Proof.
  destruct (decide (values = [])) as [->|Hne]; [done|].
  destruct (calc_stats_nonempty values Hne) as (? & _ & ->). done.
Qed.

Lemma extract_features_unfold events :
  2 ≤ length events →
  ∃ dm ds dmed fm fs fmed,
    calc_stats sqrt (fifo_dwell no_pending (sort_by ev_t events))
      = Some (dm, ds, dmed) ∧
    calc_stats sqrt (positive_gaps (sort_by id (press_times events)))
      = Some (fm, fs, fmed) ∧
    extract_features sqrt events = Some (mkFeatures dm ds dmed fm fs fmed).
Proof.
  intros Hlen. unfold extract_features.
  rewrite bool_decide_eq_false_2 by lia.
  rewrite dwell_times_of_fifo, flight_times_of_spec. cbn [mbind option_bind].
  destruct (calc_stats_total (fifo_dwell no_pending (sort_by ev_t events)))
    as [[[dm ds] dmed] ->].
  destruct (calc_stats_total (positive_gaps (sort_by id (press_times events))))
    as [[[fm fs] fmed] ->].
  by exists dm, ds, dmed, fm, fs, fmed.
Qed.

End stats_facts.

Import spec aux.

Section evaluation.
Import features aux.

#[global] Instance this_inj : Inj (=) (=) this.
Proof. intros x y Hxy. apply Qc_is_canon. by rewrite Hxy. Qed.

#[global] Instance feature_vector_inj : Inj (=) (=) train.feature_vector.
Proof. intros [] [] [=]. by simplify_eq/=. Qed.

Lemma feature_values_inj o1 o2 : feature_values o1 = feature_values o2 → o1 = o2.
Proof.
  unfold feature_values. intros H.
  apply (inj (fmap (M:=option) (fmap (M:=list) this ∘ train.feature_vector))).
  exact H.
Qed.

Lemma sample_values_inj o1 o2 : sample_values o1 = sample_values o2 → o1 = o2.
Proof. apply (inj (fmap (M:=option) (fmap (M:=list) this))). Qed.

End evaluation.

Ltac by_evaluation :=
  first [apply feature_values_inj | apply sample_values_inj];
  vm_compute; reflexivity.

Section feature_claims.
Import py features spec.
Variable sqrt : Qc → Qc.

Lemma extract_features_returns (events : list KeyEvent) :
  is_Some (extract_features sqrt events).
Proof.
  destruct (decide (length events < 2)) as [Hlt|Hge].
  - unfold extract_features. by rewrite bool_decide_eq_true_2.
  - destruct (extract_features_unfold sqrt events)
      as (dm & ds & dmed & fm & fs & fmed & _ & _ & ->); [lia|]. done.
Qed.

(** C3: [extract_features] returns a feature vector on every event list,
    and on fewer than two events it returns the all-zero vector. *)
Theorem extract_features_total (events : list KeyEvent) :
  (∃ fv, extract_features sqrt events = Some fv) ∧
  (length events < 2 → extract_features sqrt events = Some zero_features).
Proof.
  split.
  - apply extract_features_returns.
  - intros Hlt. unfold extract_features. by rewrite bool_decide_eq_true_2.
Qed.

(** C4: the dwell samples are those of per-key FIFO matching over the events
    in stable timestamp order; every recorded sample is strictly positive. *)
Theorem dwell_fifo_matching (events : list KeyEvent) :
  ∃ s, stable_sorted ev_t events s ∧
       dwell_times_of events = Some (fifo_dwell no_pending s) ∧
       ∀ d, d ∈ fifo_dwell no_pending s → (0 < d)%Qc.
Proof.
  exists (sort_by ev_t events). split_and!.
  - apply sort_by_stable.
  - apply dwell_times_of_fifo.
  - intros d. apply fifo_dwell_positive.
Qed.

Lemma positive_gaps_elem_of (s : list Qc) (d : Qc) :
  d ∈ positive_gaps s ↔
  ∃ i a b, s !! i = Some a ∧ s !! (i + 1) = Some b ∧
           d = (b - a)%Qc ∧ (0 < d)%Qc.
Proof.
  induction s as [|a [|b s] IH].
  - simpl. split; [by intros ?%elem_of_nil|]. by intros (i & ? & ? & ? & _).
  - simpl. split; [by intros ?%elem_of_nil|].
    intros (i & ? & ? & _ & Hb & _). by destruct i.
  - cbn [positive_gaps]. rewrite elem_of_app, IH. split.
    + intros [Hd|(i & x & y & Hx & Hy & Hd)].
      * case_bool_decide; [|by apply elem_of_nil in Hd].
        apply list_elem_of_singleton in Hd as ->. by exists 0, a, b.
      * exists (S i), x, y. done.
    + intros (i & x & y & Hx & Hy & -> & Hpos). destruct i as [|i].
      * simpl in Hx, Hy. simplify_eq. left.
        rewrite bool_decide_eq_true_2 by done. by apply list_elem_of_singleton.
      * right. by exists i, x, y.
Qed.

(** C5: the flight samples are the strictly positive differences of
    neighbouring press timestamps in ascending order, whatever the keys. *)
Theorem flight_positive_gaps :
  (∀ events, ∃ s, Sorted Qcle s ∧ s ≡ₚ press_times events ∧
                  flight_times_of events = Some (positive_gaps s)) ∧
  (∀ s d, d ∈ positive_gaps s ↔
          ∃ i a b, s !! i = Some a ∧ s !! (i + 1) = Some b ∧
                   d = (b - a)%Qc ∧ (0 < d)%Qc) ∧
  flight_times_of [press "a" 0; release "a" 30; press "b" 50; release "b" 80]
    = Some [Qc_of_Z 50] ∧
  flight_times_of [press "a" 0; press "b" 0; release "a" 30; release "b" 40]
    = Some [].
Proof.
  split_and!.
  - intros events. exists (sort_by id (press_times events)). split_and!.
    + apply (sort_by_sorted id).
    + apply sort_by_perm.
    + apply flight_times_of_spec.
  - apply positive_gaps_elem_of.
  - by_evaluation.
  - by_evaluation.
Qed.

(** C6: each sample list is reduced to (mean, sample standard deviation,
    median), all zero on no samples, and the six values are returned dwell
    first, flight second. *)
Theorem calc_stats_reduction :
  calc_stats sqrt [] = Some (0%Qc, 0%Qc, 0%Qc) ∧
  (∀ values, values ≠ [] →
     ∃ s median,
       Sorted Qcle s ∧ s ≡ₚ values ∧ is_median_of_sorted s median ∧
       calc_stats sqrt values =
         Some (mean values,
               if bool_decide (1 < length values)
               then sqrt (sample_variance values) else 0%Qc,
               median)) ∧
  (∀ events, 2 ≤ length events →
     ∃ dwell flight dm ds dmed fm fs fmed,
       dwell_times_of events = Some dwell ∧
       flight_times_of events = Some flight ∧
       calc_stats sqrt dwell = Some (dm, ds, dmed) ∧
       calc_stats sqrt flight = Some (fm, fs, fmed) ∧
       extract_features sqrt events = Some (mkFeatures dm ds dmed fm fs fmed)) ∧
  dwell_times_of [press "a" 0; release "a" 100] = Some [Qc_of_Z 100] ∧
  flight_times_of [press "a" 0; release "a" 100] = Some [] ∧
  extract_features sqrt [press "a" 0; release "a" 100]
    = Some (mkFeatures (Qc_of_Z 100) 0%Qc (Qc_of_Z 100) 0%Qc 0%Qc 0%Qc).
Proof.
  split_and!.
  - done.
  - intros values Hne.
    destruct (calc_stats_nonempty sqrt values Hne) as (m & Hm & Heq).
    exists (sort_by id values), m. split_and!; [|apply sort_by_perm|done..].
    apply (sort_by_sorted id).
  - intros events Hlen.
    destruct (extract_features_unfold sqrt events Hlen)
      as (dm & ds & dmed & fm & fs & fmed & Hd & Hf & Heq).
    eexists _, _, dm, ds, dmed, fm, fs, fmed.
    split_and!; [apply dwell_times_of_fifo|apply flight_times_of_spec|done..].
  - by_evaluation.
  - by_evaluation.
  - by_evaluation.
Qed.

End feature_claims.

Lemma extract_features_total_witness :
  length [press "a" 0] < 2 ∧
  features.extract_features py.sqrt_rounded [press "a" 0]
    = Some features.zero_features.
Proof.
  split; [simpl; lia|].
  apply (proj2 (extract_features_total py.sqrt_rounded [press "a" 0])).
  simpl; lia.
Defined.

Lemma dwell_fifo_matching_witness :
  features.dwell_times_of [release "a" 5; press "a" 10; release "a" 30]
    = Some [Qc_of_Z 20] ∧
  (0 < Qc_of_Z 20)%Qc.
Proof.
  assert (features.dwell_times_of [release "a" 5; press "a" 10; release "a" 30]
          = Some [Qc_of_Z 20]) as Hrun by by_evaluation.
  split; [done|].
  destruct (dwell_fifo_matching [release "a" 5; press "a" 10; release "a" 30])
    as (s & _ & Heq & Hpos).
  apply Hpos. rewrite Hrun in Heq. injection Heq as <-. left.
Defined.

Lemma calc_stats_reduction_witness :
  [Qc_of_Z 100; Qc_of_Z 300] ≠ [] ∧
  2 ≤ length [press "a" 0; release "a" 100] ∧
  (∃ median,
     features.calc_stats py.sqrt_rounded [Qc_of_Z 100; Qc_of_Z 300]
     = Some (mean [Qc_of_Z 100; Qc_of_Z 300],
             py.sqrt_rounded (sample_variance [Qc_of_Z 100; Qc_of_Z 300]),
             median)) ∧
  is_Some (features.extract_features py.sqrt_rounded
             [press "a" 0; release "a" 100]).
Proof.
  assert ([Qc_of_Z 100; Qc_of_Z 300] ≠ []) as Hne by done.
  assert (2 ≤ length [press "a" 0; release "a" 100]) as Hlen by (simpl; lia).
  destruct (calc_stats_reduction py.sqrt_rounded) as (_ & Hstats & Hall & _).
  split_and!; [done..| |].
  - destruct (Hstats _ Hne) as (s & m & _ & _ & _ & Heq). by exists m.
  - destruct (Hall _ Hlen)
      as (? & ? & ? & ? & ? & ? & ? & ? & _ & _ & _ & _ & ->).
    done.
Defined.

Section order_facts.
Import py features spec.

Lemma filter_key_unique {A} (k : A → Qc) (l l' : list A) τ :
  NoDup (k <$> l) → l ≡ₚ l' →
  filter (λ x, k x = τ) l = filter (λ x, k x = τ) l'.
Proof.
  intros Hnd Hp.
  assert (∀ l0 : list A, NoDup (k <$> l0) → length (filter (λ x, k x = τ) l0) ≤ 1)
    as Hshort.
  { clear. induction l0 as [|x l0 IH]; [simpl; lia|].
    rewrite fmap_cons, NoDup_cons, filter_cons. intros [Hx Hnd].
    case_decide as Hk; [|by apply IH]. simpl.
    destruct (filter (λ x, k x = τ) l0) as [|y ?] eqn:Hf; [simpl; lia|].
    exfalso. apply Hx.
    assert (y ∈ filter (λ x, k x = τ) l0) as [Hy Hin]%list_elem_of_filter
      by (rewrite Hf; left).
    rewrite Hk, <-Hy. by apply list_elem_of_fmap_2. }
  assert (filter (λ x, k x = τ) l ≡ₚ filter (λ x, k x = τ) l') as Hpf
    by (by rewrite Hp).
  pose proof (Hshort l Hnd) as H1.
  assert (NoDup (k <$> l')) as Hnd' by (by rewrite <-Hp).
  pose proof (Hshort l' Hnd') as H2.
  destruct (filter (λ x, k x = τ) l) as [|x [|??]];
    destruct (filter (λ x, k x = τ) l') as [|x' [|??]]; simpl in *; try lia.
  - done.
  - by apply Permutation_nil_cons in Hpf.
  - by apply Permutation_sym, Permutation_nil_cons in Hpf.
  - by apply Permutation_singleton_l in Hpf.
Qed.

Lemma flight_times_of_perm l l' :
  l ≡ₚ l' → flight_times_of l = flight_times_of l'.
Proof.
  intros Hp. rewrite !flight_times_of_spec. do 2 f_equal.
  apply sort_by_id_perm. unfold press_times. by rewrite Hp.
Qed.

End order_facts.

(** ** Statistics of permuted samples *)

Section permuted_samples.
Import py features spec.
Variable sqrt : Qc → Qc.

Lemma Qc_sum_perm (l l' : list Qc) : l ≡ₚ l' → Qc_sum l = Qc_sum l'.
Proof.
  induction 1 as [|x l l' _ IH|x y l|l l' l'' _ IH1 _ IH2]; simpl.
  - done.
  - by rewrite IH.
  - by rewrite !Qcplus_assoc, (Qcplus_comm y x).
  - by rewrite IH1.
Qed.

Lemma statistics_mean_perm (l l' : list Qc) :
  l ≡ₚ l' → statistics_mean l = statistics_mean l'.
Proof.
  intros Hp. unfold statistics_mean.
  rewrite (Qc_sum_perm l l' Hp), (Permutation_length Hp).
  destruct l, l'; try done.
  - by apply Permutation_nil_cons in Hp.
  - by apply Permutation_sym, Permutation_nil_cons in Hp.
Qed.

Lemma statistics_variance_perm (l l' : list Qc) :
  l ≡ₚ l' → statistics_variance l = statistics_variance l'.
Proof.
  intros Hp. unfold statistics_variance.
  rewrite (statistics_mean_perm l l' Hp), (Permutation_length Hp).
  case_bool_decide; [done|].
  destruct (statistics_mean l') as [xbar|]; [|done]. simpl.
  do 2 f_equal. apply Qc_sum_perm. by rewrite Hp.
Qed.

Lemma statistics_median_perm (l l' : list Qc) :
  l ≡ₚ l' → statistics_median l = statistics_median l'.
Proof.
  intros Hp. unfold statistics_median. by rewrite (sort_by_id_perm l l' Hp).
Qed.

Lemma calc_stats_perm (l l' : list Qc) :
  l ≡ₚ l' → calc_stats sqrt l = calc_stats sqrt l'.
Proof.
  intros Hp. unfold calc_stats, statistics_stdev.
  rewrite (statistics_mean_perm l l' Hp), (statistics_variance_perm l l' Hp),
    (statistics_median_perm l l' Hp), (Permutation_length Hp).
  destruct l, l'; try done.
  - by apply Permutation_nil_cons in Hp.
  - by apply Permutation_sym, Permutation_nil_cons in Hp.
Qed.

End permuted_samples.

(** ** Dwell samples, key by key *)

Section per_key.
Import py features spec aux.

Lemma key_dwell_filter κ evs : ∀ pending,
  key_dwell κ pending (filter (λ e, ev_key e = κ) evs) = key_dwell κ pending evs.
Proof.
  induction evs as [|e evs IH]; intros pending; [done|].
  rewrite filter_cons. cbn [key_dwell]. case_decide as Hk.
  - cbn [key_dwell]. rewrite bool_decide_eq_true_2 by done.
    repeat case_bool_decide; rewrite ?IH; try done.
    destruct pending; by rewrite ?IH.
  - by rewrite bool_decide_eq_false_2.
Qed.

Lemma concat_update (f g : string → list Qc) k out ks :
  NoDup ks → k ∈ ks →
  (∀ κ, κ ≠ k → f κ = g κ) → f k = out ++ g k →
  concat (f <$> ks) ≡ₚ out ++ concat (g <$> ks).
Proof.
  intros Hnd Hin Hother Hk.
  induction Hnd as [|κ0 ks Hnotin Hnd IH]; [by apply elem_of_nil in Hin|].
  rewrite !fmap_cons, !concat_cons.
  destruct (decide (κ0 = k)) as [->|Hne].
  - rewrite Hk, <-(assoc_L (++)). do 2 f_equiv.
    assert (f <$> ks = g <$> ks) as ->; [|done].
    apply list_fmap_ext. intros i κ Hi. apply Hother.
    intros ->. apply Hnotin. by eapply list_elem_of_lookup_2.
  - apply elem_of_cons in Hin as [->|Hin]; [done|].
    rewrite (IH Hin), (Hother κ0 Hne).
    by rewrite !(assoc_L (++)), (Permutation_app_comm out).
Qed.

Lemma fifo_dwell_per_key ks evs : ∀ q,
  NoDup ks → (∀ e, e ∈ evs → ev_key e ∈ ks) →
  fifo_dwell q evs ≡ₚ concat ((λ κ, key_dwell κ (q κ) evs) <$> ks).
Proof.
  induction evs as [|e evs IH]; intros q Hnd Hkeys.
  { clear. induction ks as [|κ ks IHks]; [done|].
    by rewrite fmap_cons, concat_cons. }
  assert (ev_key e ∈ ks) as Hk by (apply Hkeys; left).
  assert (∀ e', e' ∈ evs → ev_key e' ∈ ks) as Hkeys'
    by (intros e' He'; apply Hkeys; by right).
  assert (∀ q' out,
            (∀ κ, κ ≠ ev_key e → q' κ = q κ) →
            key_dwell (ev_key e) (q (ev_key e)) (e :: evs)
              = out ++ key_dwell (ev_key e) (q' (ev_key e)) evs →
            out ++ fifo_dwell q' evs
              ≡ₚ concat ((λ κ, key_dwell κ (q κ) (e :: evs)) <$> ks)) as Hstep.
  { intros q' out Hq' Hout. rewrite (IH q' Hnd Hkeys'). symmetry.
    apply (concat_update _ _ (ev_key e)); [done..| |done].
    intros κ Hne. cbn [key_dwell].
    rewrite bool_decide_eq_false_2 by done. by rewrite Hq'. }
  cbn [fifo_dwell]. cbv zeta.
  case_bool_decide as Hpress.
  { apply (Hstep _ []).
    - intros κ Hne. unfold set_queue. by rewrite bool_decide_eq_false_2.
    - cbn [key_dwell]. rewrite !bool_decide_eq_true_2 by done.
      unfold set_queue. by rewrite bool_decide_eq_true_2. }
  case_bool_decide as Hrelease.
  - destruct (q (ev_key e)) as [|press_t rest] eqn:Hq.
    + apply (Hstep q []); [done|].
      cbn [key_dwell]. rewrite bool_decide_eq_true_2 by done.
      rewrite bool_decide_eq_false_2 by done.
      rewrite bool_decide_eq_true_2 by done. by rewrite ?Hq.
    + apply Hstep.
      * intros κ Hne. unfold set_queue. by rewrite bool_decide_eq_false_2.
      * cbn [key_dwell]. rewrite bool_decide_eq_true_2 by done.
        rewrite bool_decide_eq_false_2 by done.
        rewrite bool_decide_eq_true_2 by done. rewrite ?Hq.
        unfold set_queue.
        by rewrite (bool_decide_eq_true_2 (ev_key e = ev_key e)).
  - apply (Hstep q []); [done|].
    cbn [key_dwell]. rewrite bool_decide_eq_true_2 by done.
    by rewrite !bool_decide_eq_false_2.
Qed.

Lemma StronglySorted_filter {A} (R : relation A) (P : A → Prop)
    `{!∀ x, Decision (P x)} (l : list A) :
  StronglySorted R l → StronglySorted R (filter P l).
Proof.
  induction 1 as [|x l Hl IH Hx]; [constructor|].
  rewrite filter_cons. case_decide; [|done].
  constructor; [done|].
  apply Forall_forall. intros y [_ Hy]%list_elem_of_filter.
  by apply (proj1 (Forall_forall _ _) Hx).
Qed.

Lemma sort_by_key_ties κ τ l :
  filter (λ e, ev_t e = τ) (filter (λ e, ev_key e = κ) (sort_by ev_t l))
  = filter (λ e, ev_key e = κ ∧ ev_t e = τ) l.
Proof.
  rewrite list_filter_filter.
  rewrite (list_filter_iff _ (λ e, ev_key e = κ ∧ ev_t e = τ))
    by (intros; tauto).
  rewrite <-(list_filter_filter (λ e, ev_key e = κ) (λ e, ev_t e = τ)).
  rewrite sort_by_filter. apply list_filter_filter.
Qed.

Lemma sort_by_per_key κ l l' :
  l ≡ₚ l' → same_key_ties l l' →
  filter (λ e, ev_key e = κ) (sort_by ev_t l)
  = filter (λ e, ev_key e = κ) (sort_by ev_t l').
Proof.
  intros Hp Hties.
  assert (Transitive (λ x y : KeyEvent, (ev_t x ≤ ev_t y)%Qc)) as Htrans.
  { intros x y z. apply Qcle_trans. }
  apply (sorted_ties_unique ev_t).
  - apply StronglySorted_Sorted, StronglySorted_filter.
    apply Sorted_StronglySorted; [done|]. apply sort_by_sorted.
  - apply StronglySorted_Sorted, StronglySorted_filter.
    apply Sorted_StronglySorted; [done|]. apply sort_by_sorted.
  - by rewrite !sort_by_perm, Hp.
  - intros τ. rewrite !sort_by_key_ties. apply Hties.
Qed.

Lemma fifo_dwell_same_key_ties l l' :
  l ≡ₚ l' → same_key_ties l l' →
  fifo_dwell no_pending (sort_by ev_t l)
  ≡ₚ fifo_dwell no_pending (sort_by ev_t l').
Proof.
  intros Hp Hties.
  set (ks := remove_dups (ev_key <$> l)).
  assert (NoDup ks) as Hnd by apply NoDup_remove_dups.
  rewrite (fifo_dwell_per_key ks (sort_by ev_t l)); [|done|].
  2:{ intros e He. apply elem_of_remove_dups, list_elem_of_fmap_2.
      by rewrite <-(sort_by_perm ev_t l). }
  rewrite (fifo_dwell_per_key ks (sort_by ev_t l')); [|done|].
  2:{ intros e He. apply elem_of_remove_dups, list_elem_of_fmap_2.
      by rewrite Hp, <-(sort_by_perm ev_t l'). }
  assert ((λ κ, key_dwell κ (no_pending κ) (sort_by ev_t l)) <$> ks
          = (λ κ, key_dwell κ (no_pending κ) (sort_by ev_t l')) <$> ks) as ->;
    [|done].
  apply list_fmap_ext. intros _ κ _. cbv beta.
  rewrite <-(key_dwell_filter κ (sort_by ev_t l)).
  rewrite <-(key_dwell_filter κ (sort_by ev_t l')).
  by rewrite (sort_by_per_key κ l l' Hp Hties).
Qed.

Lemma extract_features_same_key_ties sqrt l l' :
  l ≡ₚ l' → same_key_ties l l' →
  extract_features sqrt l = extract_features sqrt l'.
Proof.
  intros Hp Hties. unfold extract_features.
  rewrite !dwell_times_of_fifo, (flight_times_of_perm l l' Hp).
  rewrite (Permutation_length Hp). case_bool_decide; [done|].
  cbn [mbind option_bind].
  destruct (flight_times_of l') as [flight|]; [|done]. cbn [mbind option_bind].
  by rewrite (calc_stats_perm sqrt _ _ (fifo_dwell_same_key_ties l l' Hp Hties)).
Qed.

Lemma distinct_timestamps_ties l l' :
  l ≡ₚ l' → NoDup (ev_t <$> l) → same_key_ties l l'.
Proof.
  intros Hp Hnd κ τ.
  rewrite <-!(list_filter_filter (λ e, ev_key e = κ) (λ e, ev_t e = τ)).
  by rewrite (filter_key_unique ev_t l l' τ Hnd Hp).
Qed.

End per_key.

Section order_claim.
Import py features spec aux.
Variable sqrt : Qc → Qc.

(** C1 (amended): the features are unchanged by every reordering of the
    events that keeps, key by key, the events of one timestamp in their
    relative order, so by every reordering when timestamps are pairwise
    distinct; the flight samples are unchanged by every reordering;
    timestamp values matter. *)
Theorem extract_features_reordering :
  (∀ l l', l ≡ₚ l' → same_key_ties l l' →
     extract_features sqrt l = extract_features sqrt l') ∧
  (∀ l l', l ≡ₚ l' → NoDup (ev_t <$> l) →
     extract_features sqrt l = extract_features sqrt l') ∧
  (∀ l l', l ≡ₚ l' → flight_times_of l = flight_times_of l') ∧
  extract_features sqrt [press "a" 0; release "a" 100]
    ≠ extract_features sqrt [press "a" 0; release "a" 200].
Proof.
  split_and!.
  - apply extract_features_same_key_ties.
  - intros l l' Hp Hnd. apply extract_features_same_key_ties; [done|].
    by apply distinct_timestamps_ties.
  - apply flight_times_of_perm.
  - intros Heq. apply (f_equal feature_values) in Heq.
    vm_compute in Heq. discriminate.
Qed.

End order_claim.

Lemma extract_features_reordering_witness :
  [press "a" 0; press "b" 10; release "a" 30; release "b" 30]
    ≡ₚ [press "a" 0; press "b" 10; release "b" 30; release "a" 30] ∧
  same_key_ties
    [press "a" 0; press "b" 10; release "a" 30; release "b" 30]
    [press "a" 0; press "b" 10; release "b" 30; release "a" 30] ∧
  features.dwell_times_of
    [press "a" 0; press "b" 10; release "a" 30; release "b" 30]
    = Some [Qc_of_Z 30; Qc_of_Z 20] ∧
  features.dwell_times_of
    [press "a" 0; press "b" 10; release "b" 30; release "a" 30]
    = Some [Qc_of_Z 20; Qc_of_Z 30] ∧
  features.extract_features py.sqrt_rounded
      [press "a" 0; press "b" 10; release "a" 30; release "b" 30]
    = features.extract_features py.sqrt_rounded
        [press "a" 0; press "b" 10; release "b" 30; release "a" 30] ∧
  [press "a" 0; release "a" 100] ≡ₚ [release "a" 100; press "a" 0] ∧
  NoDup (features.ev_t <$> [press "a" 0; release "a" 100]) ∧
  features.extract_features py.sqrt_rounded [press "a" 0; release "a" 100]
    = features.extract_features py.sqrt_rounded [release "a" 100; press "a" 0].
Proof.
  assert ([press "a" 0; press "b" 10; release "a" 30; release "b" 30]
            ≡ₚ [press "a" 0; press "b" 10; release "b" 30; release "a" 30])
    as Hp1 by (do 2 apply perm_skip; apply perm_swap).
  assert (same_key_ties
            [press "a" 0; press "b" 10; release "a" 30; release "b" 30]
            [press "a" 0; press "b" 10; release "b" 30; release "a" 30])
    as Hties.
  { intros κ τ. rewrite !filter_cons, !filter_nil.
    repeat case_decide; destruct_and?; simplify_eq/=; done. }
  assert ([press "a" 0; release "a" 100] ≡ₚ [release "a" 100; press "a" 0])
    as Hp2 by apply perm_swap.
  assert (NoDup (features.ev_t <$> [press "a" 0; release "a" 100])) as Hnd.
  { apply (bool_decide_unpack _). vm_compute. exact I. }
  destruct (extract_features_reordering py.sqrt_rounded)
    as (Hsame & Hdistinct & _).
  split_and!; [done|done|by_evaluation|by_evaluation| |done|done|].
  - by apply Hsame.
  - by apply Hdistinct.
Defined.

(** C1, as stated: swapping a release and a press of one key that carry the
    same timestamp, two positions apart, changes the dwell features. *)
Lemma extract_features_tie_order_matters :
  [release "a" 10; press "b" 5; press "a" 10; release "a" 20]
    ≡ₚ [press "a" 10; press "b" 5; release "a" 10; release "a" 20] ∧
  features.dwell_times_of
    [release "a" 10; press "b" 5; press "a" 10; release "a" 20]
    = Some [Qc_of_Z 10] ∧
  features.dwell_times_of
    [press "a" 10; press "b" 5; release "a" 10; release "a" 20]
    = Some [] ∧
  ∀ sqrt,
    features.extract_features sqrt
      [release "a" 10; press "b" 5; press "a" 10; release "a" 20]
    ≠ features.extract_features sqrt
        [press "a" 10; press "b" 5; release "a" 10; release "a" 20].
Proof.
  split_and!.
  - etrans; [apply perm_swap|]. etrans; [apply perm_skip, perm_swap|].
    apply perm_swap.
  - by_evaluation.
  - by_evaluation.
  - intros sqrt Heq. apply (f_equal feature_values) in Heq.
    vm_compute in Heq. discriminate.
Qed.

(** ** Transcript validation *)

Section validation.
Import py features spec.

Lemma match_step_spec prompt matches i c :
  match_step prompt (matches, i) c =
  Some (match prompt !! i with
        | Some p => if bool_decide (c = p) then (matches + 1, i + 1) else (matches, i)
        | None => (matches, i)
        end).
Proof.
  unfold match_step. destruct (decide (i < length prompt)) as [Hlt|Hge].
  - rewrite bool_decide_eq_true_2 by done.
    destruct (lookup_lt_is_Some_2 prompt i Hlt) as [p ->]. simpl.
    by case_bool_decide.
  - rewrite bool_decide_eq_false_2 by done.
    rewrite lookup_ge_None_2 by lia. done.
Qed.

Lemma match_loop_spec prompt typed : ∀ matches prompt_idx,
  ∃ prompt_idx',
    for_each (match_step prompt) typed (matches, prompt_idx)
    = Some (matches + matched_in_order typed (drop prompt_idx prompt),
            prompt_idx').
Proof.
  induction typed as [|c typed IH]; intros matches i.
  { exists i. simpl. by rewrite Nat.add_0_r. }
  cbn [for_each matched_in_order]. rewrite match_step_spec.
  cbn [mbind option_bind].
  destruct (prompt !! i) as [p|] eqn:Hp.
  - rewrite (drop_S _ _ _ Hp). case_bool_decide.
    + destruct (IH (matches + 1) (i + 1)) as [i' Heq].
      exists i'. rewrite Heq. replace (i + 1) with (S i) by lia.
      do 2 f_equal. lia.
    + destruct (IH matches i) as [i' Heq].
      exists i'. by rewrite Heq, (drop_S _ _ _ Hp).
  - apply lookup_ge_None_1 in Hp. rewrite drop_ge by lia.
    destruct (IH matches i) as [i' Heq].
    exists i'. rewrite Heq, drop_ge by lia.
    by destruct typed.
Qed.

Lemma Qc_div_by_zero (x : Qc) : (x / Qc_of_nat 0)%Qc = 0%Qc.
Proof.
  unfold Qcdiv. replace (/ Qc_of_nat 0)%Qc with 0%Qc.
  - apply Qcmult_0_r.
  - by apply Qc_is_canon.
Qed.

Lemma not_min_similarity_le_zero : ¬ (default_min_similarity ≤ 0)%Qc.
Proof. apply Qclt_not_le. reflexivity. Qed.

(** C2: the transcript is accepted exactly when the normalizations are equal
    or the ordered-match ratio reaches 0.8. *)
Theorem validate_typed_text_ratio :
  (∀ typed_text prompt,
     ∃ accepted,
       validate_typed_text typed_text prompt default_min_similarity
         = Some accepted ∧
       (accepted = true ↔
        clean typed_text = clean prompt ∨
        (Qc_of_nat 8 / Qc_of_nat 10
         ≤ Qc_of_nat (matched_in_order (clean typed_text) (clean prompt))
           / Qc_of_nat (length (clean prompt)))%Qc)) ∧
  validate_typed_text "The Quick Brown Fox" "the quick brown fox"
    default_min_similarity = Some true ∧
  validate_typed_text "xyz" "the quick brown fox jumps over the lazy dog"
    default_min_similarity = Some false.
Proof.
  split_and!; [|by vm_compute..].
  intros typed_text prompt. unfold validate_typed_text. cbv zeta.
  set (typed_clean := clean typed_text). set (prompt_clean := clean prompt).
  case_bool_decide as Heq.
  { exists true. split; [done|]. by split; [left|]. }
  case_bool_decide as Hempty.
  { exists false. split; [done|]. split; [done|].
    intros [?|Hle]; [done|]. exfalso.
    rewrite Hempty, Qc_div_by_zero in Hle.
    by apply not_min_similarity_le_zero. }
  destruct (match_loop_spec prompt_clean typed_clean 0 0) as [i' ->].
  cbn [mbind option_bind]. unfold int_div.
  rewrite bool_decide_eq_false_2 by done. cbn [mbind option_bind].
  rewrite drop_0, Nat.add_0_l. eexists. split; [done|].
  rewrite bool_decide_eq_true. unfold default_min_similarity.
  split; [by right|]. by intros [?|?].
Qed.

End validation.

(** ** Training *)

Section train_facts.
Import py features io train spec aux.

Lemma user_counts_fold sessions : ∀ (m : gmap string nat) u,
  foldl count_step m sessions !! u =
  match m !! u, sessions_of sessions u with
  | None, 0 => None
  | o, n => Some (default 0 o + n)
  end.
Proof.
  induction sessions as [|s sessions IH]; intros m u.
  { unfold sessions_of. simpl. destruct (m !! u) as [n|]; simpl; [by rewrite Nat.add_0_r|done]. }
  cbn [foldl]. rewrite IH. unfold sessions_of, count_step.
  rewrite filter_cons. destruct (decide (label s = u)) as [->|Hne].
  - rewrite lookup_insert_eq. cbn [length default].
    destruct (m !! u); simpl; unfold id; apply (f_equal Some); lia.
  - by rewrite lookup_insert_ne.
Qed.

Lemma user_counts_spec sessions min_per_user u :
  (check_minimum_samples sessions min_per_user).2 !! u =
  if bool_decide (sessions_of sessions u = 0) then None
  else Some (sessions_of sessions u).
Proof.
  trans (foldl count_step ∅ sessions !! u); [done|].
  rewrite user_counts_fold, lookup_empty.
  by destruct (sessions_of sessions u).
Qed.

Lemma sessions_of_pos sessions s : s ∈ sessions → 0 < sessions_of sessions (label s).
Proof.
  intros Hin. unfold sessions_of.
  assert (s ∈ filter (λ s', label s' = label s) sessions) as Hf
    by (by apply list_elem_of_filter).
  destruct (filter _ sessions); [by apply elem_of_nil in Hf|simpl; lia].
Qed.

Lemma sessions_of_pos_inv sessions u :
  0 < sessions_of sessions u → ∃ s, s ∈ sessions ∧ label s = u.
Proof.
  unfold sessions_of. intros Hpos.
  destruct (filter (λ s, label s = u) sessions) as [|s l] eqn:Hf; [simpl in *; lia|].
  assert (s ∈ filter (λ s, label s = u) sessions) as [? ?]%list_elem_of_filter
    by (rewrite Hf; left).
  by exists s.
Qed.

Lemma has_enough_spec sessions min_per_user :
  (check_minimum_samples sessions min_per_user).1 = true ↔
  ∀ s, s ∈ sessions →
       (min_per_user ≤ Z.of_nat (sessions_of sessions (label s)))%Z.
Proof.
  pose proof (user_counts_spec sessions min_per_user) as Hcounts.
  unfold check_minimum_samples in *. cbn [fst snd] in *.
  set (user_counts := foldl _ ∅ sessions) in *.
  rewrite <-Is_true_true, forallb_True, Forall_forall. split.
  - intros Hall s Hs. pose proof (sessions_of_pos sessions s Hs) as Hpos.
    specialize (Hall (sessions_of sessions (label s))).
    rewrite bool_decide_spec in Hall. apply Hall.
    apply list_elem_of_filter. split; [done|].
    apply list_elem_of_fmap. exists (label s, sessions_of sessions (label s)).
    split; [done|]. apply elem_of_map_to_list. rewrite Hcounts.
    rewrite bool_decide_eq_false_2 by lia. done.
  - intros Hall n [Hpos Hn]%list_elem_of_filter. rewrite bool_decide_spec.
    apply list_elem_of_fmap in Hn as [[u n'] [-> Hu%elem_of_map_to_list]].
    rewrite Hcounts in Hu. case_bool_decide; [done|]. simplify_eq/=.
    destruct (sessions_of_pos_inv sessions u Hpos) as (s & Hs & <-).
    by apply Hall.
Qed.

Lemma size_labels (y : list string) :
  size (list_to_set y : gset string) < 2 ↔ ∀ a b, a ∈ y → b ∈ y → a = b.
Proof.
  split.
  - intros Hsize a b Ha Hb. destruct (decide (a = b)) as [|Hne]; [done|].
    exfalso.
    assert (({[a; b]} : gset string) ⊆ list_to_set y) as Hsub.
    { intros x. rewrite elem_of_union, !elem_of_singleton, elem_of_list_to_set.
      by intros [->| ->]. }
    apply subseteq_size in Hsub.
    rewrite size_union, !size_singleton in Hsub by set_solver. lia.
  - intros Hsame. destruct y as [|a y]; [by rewrite list_to_set_nil, size_empty; lia|].
    assert ((list_to_set (a :: y) : gset string) = {[a]}) as ->.
    { apply set_eq. intros x. rewrite elem_of_list_to_set, elem_of_singleton.
      split; [|intros ->; left]. intros Hx. apply Hsame; [done|left]. }
    rewrite size_singleton. lia.
Qed.

Variable sqrt : Qc → Qc.

Lemma prepare_features_loop sessions : ∀ X y,
  ∃ X', for_each
          (λ '(features_list, labels_list) session,
             let events := default [] (events session) in
             features ← extract_features sqrt events;
             Some (features_list ++ [feature_vector features],
                   labels_list ++ [label session]))
          sessions (X, y) = Some (X ++ X', y ++ (label <$> sessions)) ∧
        length X' = length sessions.
Proof.
  induction sessions as [|s sessions IH]; intros X y.
  { exists []. by rewrite !app_nil_r. }
  cbn [for_each].
  destruct (extract_features_returns sqrt (default [] (events s))) as [fv ->].
  cbn [mbind option_bind].
  destruct (IH (X ++ [feature_vector fv]) (y ++ [label s])) as (X' & Heq & Hlen).
  exists (feature_vector fv :: X'). split; [|simpl; by rewrite Hlen].
  etrans; [exact Heq|]. by rewrite fmap_cons, <-!(assoc_L (++)).
Qed.

Lemma prepare_features_spec sessions :
  ∃ X, prepare_features sqrt sessions = Some (X, label <$> sessions) ∧
       length X = length sessions.
Proof. apply (prepare_features_loop sessions [] []). Qed.

End train_facts.

Section train_claims.
Import py features io train spec.
Variable sqrt : Qc → Qc.
Variable sk : sklearn.Classifier.

Lemma train_model_after_load w w' sessions data_path model_path min_per_user test_size :
  load_sessions sk data_path w = (Some sessions, w') →
  train_model sqrt sk data_path model_path min_per_user test_size w =
  (if bool_decide (length sessions = 0) then mret NoData
   else
     if negb (check_minimum_samples sessions min_per_user).1
     then mret (InsufficientSamples min_per_user
                  (check_minimum_samples sessions min_per_user).2)
     else
       '(X, y) ← lift (prepare_features sqrt sessions);
       if bool_decide (size (list_to_set y : gset string) < 2)
       then mret InsufficientClasses
       else
         '(X_train, X_test, y_train, y_test) ←
           (if bool_decide (10 ≤ length sessions)
            then lift (sklearn.train_test_split sk X y test_size 42 y)
            else mret (X, X, y, y));
         model ← lift (sklearn.fit sk 100 42 X_train y_train);
         accuracy ← lift (sklearn.accuracy_score y_test
                            (sklearn.predict sk model X_test));
         _ ← dump model_path (ModelJoblib model);
         _ ← dump feature_order_path (FeatureOrderJoblib feature_order);
         mret (Trained accuracy (check_minimum_samples sessions min_per_user).2
                 (length sessions) (length X_train) (length X_test))) w'.
Proof.
  intros Hload. unfold train_model.
  unfold mbind at 1, io_bind at 1, bind at 1. rewrite Hload.
  by destruct (check_minimum_samples sessions min_per_user).
Qed.

(** C7: the failure conditions of training, in the order they are checked. *)
Theorem train_model_failure_order w w' sessions data_path model_path
    min_per_user test_size :
  load_sessions sk data_path w = (Some sessions, w') →
  (sessions = [] →
   train_model sqrt sk data_path model_path min_per_user test_size w
   = (Some NoData, w')) ∧
  (sessions ≠ [] →
   (∃ s, s ∈ sessions ∧
         (Z.of_nat (sessions_of sessions (label s)) < min_per_user)%Z) →
   ∃ user_counts,
     train_model sqrt sk data_path model_path min_per_user test_size w
     = (Some (InsufficientSamples min_per_user user_counts), w') ∧
     ∀ u, user_counts !! u =
          if bool_decide (sessions_of sessions u = 0) then None
          else Some (sessions_of sessions u)) ∧
  (sessions ≠ [] →
   (∀ s, s ∈ sessions →
         (min_per_user ≤ Z.of_nat (sessions_of sessions (label s)))%Z) →
   (∀ s1 s2, s1 ∈ sessions → s2 ∈ sessions → label s1 = label s2) →
   train_model sqrt sk data_path model_path min_per_user test_size w
   = (Some InsufficientClasses, w')) ∧
  default_min_per_user = 10%Z.
Proof.
  intros Hload.
  rewrite (train_model_after_load w w' sessions) by done.
  split_and!; [| | |done].
  - intros ->. done.
  - intros Hne (s & Hs & Hlt).
    rewrite bool_decide_eq_false_2 by (by destruct sessions).
    destruct (check_minimum_samples sessions min_per_user).1 eqn:Henough.
    { pose proof (proj1 (has_enough_spec sessions min_per_user) Henough s Hs). lia. }
    eexists. split; [done|]. apply user_counts_spec.
  - intros Hne Hall Hsame.
    rewrite bool_decide_eq_false_2 by (by destruct sessions).
    rewrite (proj2 (has_enough_spec sessions min_per_user) Hall).
    destruct (prepare_features_spec sqrt sessions) as (X & HX & _).
    io_simpl. rewrite HX. cbn [negb].
    rewrite bool_decide_eq_true_2; [done|].
    apply size_labels. intros a b.
    intros (s1 & -> & Hs1)%list_elem_of_fmap (s2 & -> & Hs2)%list_elem_of_fmap.
    by apply Hsame.
Qed.

(** C8: with ten sessions or more the data is split (test fraction, seed 42,
    stratified on the labels); with fewer, the model is fitted and evaluated
    on the full set; the report carries accuracy, counts, total and the two
    partition sizes. *)
Theorem train_model_split_policy w w' sessions data_path model_path
    min_per_user test_size :
  load_sessions sk data_path w = (Some sessions, w') →
  sessions ≠ [] →
  (∀ s, s ∈ sessions →
        (min_per_user ≤ Z.of_nat (sessions_of sessions (label s)))%Z) →
  (∃ s1 s2, s1 ∈ sessions ∧ s2 ∈ sessions ∧ label s1 ≠ label s2) →
  ∃ X user_counts,
    prepare_features sqrt sessions = Some (X, label <$> sessions) ∧
    length X = length sessions ∧
    (∀ u, user_counts !! u =
          if bool_decide (sessions_of sessions u = 0) then None
          else Some (sessions_of sessions u)) ∧
    (∀ result w'',
       train_model sqrt sk data_path model_path min_per_user test_size w
       = (Some result, w'') ↔
       ∃ X_train X_test y_train y_test model accuracy,
         (10 ≤ length sessions →
          sklearn.train_test_split sk X (label <$> sessions) test_size 42
            (label <$> sessions)
          = Some (X_train, X_test, y_train, y_test)) ∧
         (length sessions < 10 →
          (X_train, X_test, y_train, y_test)
          = (X, X, label <$> sessions, label <$> sessions)) ∧
         sklearn.fit sk 100 42 X_train y_train = Some model ∧
         sklearn.accuracy_score y_test (sklearn.predict sk model X_test)
         = Some accuracy ∧
         result = Trained accuracy user_counts (length sessions)
                          (length X_train) (length X_test) ∧
         w'' = mkWorld
                 (<[feature_order_path := FeatureOrderJoblib feature_order]>
                    (<[model_path := ModelJoblib model]> (files w')))
                 (loaded w')) ∧
    default_test_size = (Qc_of_nat 2 / Qc_of_nat 10)%Qc.
Proof.
  intros Hload Hne Hall (s1 & s2 & Hs1 & Hs2 & Hdiff).
  destruct (prepare_features_spec sqrt sessions) as (X & HX & HlenX).
  exists X, (check_minimum_samples sessions min_per_user).2.
  split_and!; [done|done|apply user_counts_spec| |done].
  intros result w''.
  rewrite (train_model_after_load w w' sessions) by done.
  rewrite bool_decide_eq_false_2 by (by destruct sessions).
  rewrite (proj2 (has_enough_spec sessions min_per_user) Hall). cbn [negb].
  set (y := label <$> sessions) in *.
  unfold mbind at 1, io_bind at 1, bind at 1, lift at 1. rewrite HX.
  rewrite bool_decide_eq_false_2; last first.
  { rewrite size_labels. intros Hsame. apply Hdiff.
    apply Hsame; by apply list_elem_of_fmap_2. }
  io_simpl. unfold dump.
  case_bool_decide as Hten.
  - destruct (sklearn.train_test_split sk X y test_size 42 y)
      as [[[[X_train X_test] y_train] y_test]|] eqn:Hsplit; last first.
    { split; [done|]. intros (?&?&?&?&?&?& Hs & _). by specialize (Hs Hten). }
    destruct (sklearn.fit sk 100 42 X_train y_train) as [model|] eqn:Hfit.
    + destruct (sklearn.accuracy_score y_test (sklearn.predict sk model X_test))
        as [accuracy|] eqn:Hacc.
      * split.
        -- intros [= <- <-]. exists X_train, X_test, y_train, y_test, model, accuracy.
           split_and!; [done|lia|done..].
        -- intros (?&?&?&?&?&?& Hs & _ & Hf & Ha & -> & ->).
           specialize (Hs Hten). simplify_eq. done.
      * split; [done|].
        intros (?&?&?&?&?&?& Hs & _ & Hf & Ha & _).
        specialize (Hs Hten). simplify_eq.
    + split; [done|].
      intros (?&?&?&?&?&?& Hs & _ & Hf & _). specialize (Hs Hten). simplify_eq.
  - assert (length sessions < 10) as Hlt by lia.
    destruct (sklearn.fit sk 100 42 X y) as [model|] eqn:Hfit.
    + destruct (sklearn.accuracy_score y (sklearn.predict sk model X))
        as [accuracy|] eqn:Hacc.
      * split.
        -- intros [= <- <-]. exists X, X, y, y, model, accuracy.
           split_and!; [lia|done..].
        -- intros (?&?&?&?&?&?& _ & Hs & Hf & Ha & -> & ->).
           specialize (Hs Hlt). simplify_eq. done.
      * split; [done|].
        intros (?&?&?&?&?&?& _ & Hs & Hf & Ha & _).
        specialize (Hs Hlt). simplify_eq.
    + split; [done|].
      intros (?&?&?&?&?&?& _ & Hs & Hf & _). specialize (Hs Hlt). simplify_eq.
Qed.

End train_claims.

(** ** Prediction *)

Section predict_facts.
Import py features io predict.

Lemma for_each_app {S A} (body : S → A → option S) l1 l2 s :
  for_each body (l1 ++ l2) s = for_each body l1 s ≫= for_each body l2.
Proof.
  revert s. induction l1 as [|x l1 IH]; intros s; [done|].
  cbn [for_each app]. destruct (body s x) as [s'|]; [|done]. apply IH.
Qed.

Lemma py_max_spec l m :
  py_max l = Some m → m ∈ l ∧ ∀ p, p ∈ l → (p ≤ m)%Qc.
Proof.
  destruct l as [|x l]; [done|]. intros [= <-]. revert x.
  induction l as [|y l IH]; intros x.
  { simpl. split; [left|]. intros p ->%list_elem_of_singleton. apply Qcle_refl. }
  cbn [foldl]. case_bool_decide as Hlt.
  - destruct (IH y) as [Hin Hmax]. split.
    + right. exact Hin.
    + intros p [->|Hp]%elem_of_cons; [|by apply Hmax].
      apply Qclt_le_weak. eapply Qclt_le_trans; [exact Hlt|]. apply Hmax. left.
  - destruct (IH x) as [Hin Hmax]. split.
    + apply elem_of_cons in Hin as [->|Hin]; [left|]. right. by right.
    + intros p [->|[->|Hp]%elem_of_cons]%elem_of_cons.
      * apply Hmax. left.
      * apply Qcle_trans with x; [by apply Qcle_ngt|]. apply Hmax. left.
      * apply Hmax. by right.
Qed.

Lemma py_max_total l : l ≠ [] → is_Some (py_max l).
Proof. by destruct l. Qed.

Lemma prob_dict_of_spec (class_names : list string) (probabilities : list Qc) :
  NoDup class_names → length probabilities ≤ length class_names →
  ∃ prob_dict,
    prob_dict_of class_names probabilities = Some prob_dict ∧
    ∀ c p, prob_dict !! c = Some p ↔
           ∃ i, class_names !! i = Some c ∧ probabilities !! i = Some p.
Proof.
  intros Hnd. unfold prob_dict_of.
  induction probabilities as [|x probs IH] using rev_ind; intros Hlen.
  { exists ∅. split; [done|]. intros c p. rewrite lookup_empty.
    split; [done|]. by intros (i & _ & ?). }
  rewrite length_app in Hlen. simpl in Hlen.
  destruct IH as (m & Hm & Hchar); [lia|].
  destruct (lookup_lt_is_Some_2 class_names (length probs)) as [c0 Hc0]; [lia|].
  exists (<[c0 := x]> m). split.
  - rewrite imap_app, for_each_app, Hm. cbn [mbind option_bind imap for_each].
    rewrite Nat.add_0_r, Hc0. done.
  - intros c p. destruct (decide (c = c0)) as [->|Hne].
    + rewrite lookup_insert_eq. split.
      * intros [= <-]. exists (length probs). split; [done|].
        by rewrite lookup_app_r, Nat.sub_diag by lia.
      * intros (i & Hi & Hp).
        assert (i = length probs) as -> by (by eapply NoDup_lookup).
        rewrite lookup_app_r, Nat.sub_diag in Hp by lia. by simplify_eq/=.
    + rewrite lookup_insert_ne by done. rewrite Hchar. split.
      * intros (i & Hi & Hp). exists i. split; [done|].
        by rewrite lookup_app_l by (by eapply lookup_lt_Some).
      * intros (i & Hi & Hp). exists i. split; [done|].
        destruct (decide (i < length probs)) as [Hlt|Hge].
        -- by rewrite lookup_app_l in Hp.
        -- rewrite lookup_app_r in Hp by lia.
           destruct (i - length probs) as [|?] eqn:Hd; [|done].
           assert (i = length probs) as -> by lia. congruence.
Qed.

End predict_facts.

Section predict_claim.
Import py features io predict.
Variable sqrt : Qc → Qc.
Variable sk : sklearn.Classifier.

Lemma predict_user_missing events model_path w :
  files w !! model_path = None →
  predict_user sqrt sk events model_path w = (Some ModelNotFound, w).
Proof.
  intros Hnone. unfold predict_user. io_simpl. unfold path_exists.
  rewrite Hnone. rewrite bool_decide_eq_false_2 by (by intros [??]). done.
Qed.

Lemma predict_user_present events model_path w f :
  files w !! model_path = Some f →
  predict_user sqrt sk events model_path w =
  (match f with
   | ModelJoblib model =>
       features ← extract_features sqrt events;
       let feature_vector := feature_vector features in
       predicted_user ← sklearn.predict sk model [feature_vector] !! 0;
       probabilities ← sklearn.predict_proba sk model [feature_vector] !! 0;
       confidence ← py_max probabilities;
       prob_dict ← prob_dict_of (sklearn.classes_ sk model) probabilities;
       Some (Predicted predicted_user confidence prob_dict)
   | _ => None
   end,
   mkWorld (files w) (loaded w ++ [model_path])).
Proof.
  intros Hsome. unfold predict_user. io_simpl. unfold path_exists, load.
  rewrite Hsome. rewrite bool_decide_eq_true_2 by done. cbn [negb].
  rewrite ?Hsome. destruct f as [|model|]; [done| |done]. cbn [files loaded].
  destruct (extract_features sqrt events) as [fv|]; [|done].
  cbn [mbind option_bind].
  destruct (sklearn.predict sk model _ !! 0); [|done].
  destruct (sklearn.predict_proba sk model _ !! 0) as [probs|]; [|done].
  cbn [mbind option_bind].
  destruct (py_max probs); [|done]. cbn [mbind option_bind].
  by destruct (prob_dict_of _ probs).
Qed.

(** C9 (amended): [ModelNotFound] exactly when nothing is stored at the
    model path; otherwise only the model file is loaded, the features are
    passed in the order used in training, and the answer carries the
    classifier's label, the largest probability and the class-to-probability
    mapping. *)
Theorem predict_user_contract events model_path w :
  ((predict_user sqrt sk events model_path w).1 = Some ModelNotFound ↔
   files w !! model_path = None) ∧
  (∀ fv, feature_vector fv = train.feature_vector fv) ∧
  (∀ model, files w !! model_path = Some (ModelJoblib model) →
     (predict_user sqrt sk events model_path w).2
       = mkWorld (files w) (loaded w ++ [model_path]) ∧
     ∃ fv, extract_features sqrt events = Some fv ∧
       ∀ predicted_user probabilities,
         sklearn.predict sk model [train.feature_vector fv] !! 0
           = Some predicted_user →
         sklearn.predict_proba sk model [train.feature_vector fv] !! 0
           = Some probabilities →
         probabilities ≠ [] →
         NoDup (sklearn.classes_ sk model) →
         length probabilities = length (sklearn.classes_ sk model) →
         ∃ confidence prob_dict,
           (predict_user sqrt sk events model_path w).1
             = Some (Predicted predicted_user confidence prob_dict) ∧
           confidence ∈ probabilities ∧
           (∀ p, p ∈ probabilities → (p ≤ confidence)%Qc) ∧
           (∀ c p, prob_dict !! c = Some p ↔
                   ∃ i, sklearn.classes_ sk model !! i = Some c ∧
                        probabilities !! i = Some p) ∧
           (∀ c, c ∈ sklearn.classes_ sk model → is_Some (prob_dict !! c))).
Proof.
  split_and!.
  - destruct (files w !! model_path) as [f|] eqn:Hf.
    + rewrite (predict_user_present events model_path w f Hf). cbn [fst].
      split; [|done]. destruct f as [|model|]; [done| |done].
      destruct (extract_features sqrt events) as [fv|]; [|done].
      cbn [mbind option_bind].
      destruct (sklearn.predict sk model _ !! 0); [|done].
      destruct (sklearn.predict_proba sk model _ !! 0) as [probs|]; [|done].
      cbn [mbind option_bind].
      destruct (py_max probs); [|done]. cbn [mbind option_bind].
      by destruct (prob_dict_of _ probs).
    + by rewrite predict_user_missing.
  - done.
  - intros model Hf.
    rewrite (predict_user_present events model_path w _ Hf). cbn [fst snd].
    split; [done|].
    destruct (extract_features_returns sqrt events) as [fv Hfv].
    exists fv. split; [done|].
    intros predicted_user probs Hpred Hproba Hne Hnd Hlen.
    rewrite Hfv. cbn [mbind option_bind].
    change (feature_vector fv) with (train.feature_vector fv).
    rewrite Hpred, Hproba. cbn [mbind option_bind].
    destruct (py_max_total probs Hne) as [confidence Hmax].
    destruct (prob_dict_of_spec (sklearn.classes_ sk model) probs)
      as (prob_dict & Hdict & Hchar); [done|lia|].
    rewrite Hmax, Hdict. cbn [mbind option_bind].
    destruct (py_max_spec probs confidence Hmax) as [Hin Hle].
    exists confidence, prob_dict. split_and!; [done..|].
    intros c (i & Hi)%list_elem_of_lookup_1.
    destruct (lookup_lt_is_Some_2 probs i) as [p Hp].
    { rewrite Hlen. by eapply lookup_lt_Some. }
    exists p. apply Hchar. by exists i.
Qed.

End predict_claim.

(** ** The GUI actions *)

Section app_claim.
Import py features io app spec.
Variable sqrt : Qc → Qc.
Variable sk : sklearn.Classifier.

Lemma validate_typed_text_total typed_text prompt min_similarity :
  is_Some (validate_typed_text typed_text prompt min_similarity).
Proof.
  unfold validate_typed_text. cbv zeta.
  case_bool_decide; [done|]. case_bool_decide; [done|].
  destruct (match_loop_spec (clean prompt) (clean typed_text) 0 0) as [i' ->].
  cbn [mbind option_bind]. unfold int_div.
  rewrite bool_decide_eq_false_2 by done. done.
Qed.

Lemma save_session_gate now a w :
  length (current_events a) < 4 →
  save_session sk now a w
  = (Some (show (showwarning (gate_message (stripped (text_input a)))) a), w).
Proof.
  intros Hfew. unfold save_session, gate_message. cbv zeta.
  case_bool_decide as Hempty; [done|].
  destruct (validate_typed_text_total (stripped (text_input a)) PROMPT_TEXT
              default_min_similarity) as [valid Hvalid].
  io_simpl. rewrite Hvalid. rewrite (bool_decide_eq_true_2 (_ < 4)) by done.
  destruct valid; cbn [negb].
  - by rewrite bool_decide_eq_true_2.
  - by rewrite bool_decide_eq_false_2.
Qed.

Lemma predict_action_gate a w :
  length (predict_events a) < 4 →
  predict_action sqrt sk a w
  = (Some (show (showwarning (gate_message (stripped (predict_text_input a)))) a),
     w).
Proof.
  intros Hfew. unfold predict_action, gate_message. cbv zeta.
  case_bool_decide as Hempty; [done|].
  destruct (validate_typed_text_total (stripped (predict_text_input a))
              PROMPT_TEXT default_min_similarity) as [valid Hvalid].
  io_simpl. rewrite Hvalid. rewrite (bool_decide_eq_true_2 (_ < 4)) by done.
  destruct valid; cbn [negb].
  - by rewrite bool_decide_eq_true_2.
  - by rewrite bool_decide_eq_false_2.
Qed.

Lemma gate_message_cases typed_text :
  (typed_text = "" → gate_message typed_text = MSG_NOTHING_TYPED) ∧
  (typed_text ≠ "" →
   validate_typed_text typed_text PROMPT_TEXT default_min_similarity
     = Some false →
   gate_message typed_text = MSG_MISMATCH) ∧
  (typed_text ≠ "" →
   validate_typed_text typed_text PROMPT_TEXT default_min_similarity
     = Some true →
   gate_message typed_text = MSG_TOO_FEW_EVENTS).
Proof.
  unfold gate_message. split_and!.
  - intros ->. done.
  - intros Hne Hv. rewrite bool_decide_eq_false_2 by done.
    rewrite bool_decide_eq_false_2; [done|]. by rewrite Hv.
  - intros Hne Hv. rewrite bool_decide_eq_false_2 by done.
    by rewrite bool_decide_eq_true_2.
Qed.

(** C10 (amended): with fewer than four captured events neither action goes
    through: each returns after a single warning dialog and leaves the files
    and the captured state as they were.  The warning is the too-few-events
    one when the stripped text is non-empty and passes validation; an empty
    text and a text that fails validation are reported first. *)
Theorem too_few_events_gate now a w :
  (length (current_events a) < 4 →
   save_session sk now a w
   = (Some (show (showwarning (gate_message (stripped (text_input a)))) a),
      w)) ∧
  (length (predict_events a) < 4 →
   predict_action sqrt sk a w
   = (Some (show (showwarning
                    (gate_message (stripped (predict_text_input a)))) a),
      w)) ∧
  (∀ typed_text,
     (typed_text = "" → gate_message typed_text = MSG_NOTHING_TYPED) ∧
     (typed_text ≠ "" →
      validate_typed_text typed_text PROMPT_TEXT default_min_similarity
        = Some false →
      gate_message typed_text = MSG_MISMATCH) ∧
     (typed_text ≠ "" →
      validate_typed_text typed_text PROMPT_TEXT default_min_similarity
        = Some true →
      gate_message typed_text = MSG_TOO_FEW_EVENTS)).
Proof.
  split_and!;
    [apply save_session_gate|apply predict_action_gate|apply gate_message_cases].
Qed.

End app_claim.

(** ** The claims on concrete data *)

Section load_facts.
Import io train.
Variable sk : sklearn.Classifier.

Lemma load_sessions_missing data_path (w : World sk) :
  files w !! data_path = None →
  load_sessions sk data_path w = (Some [], w).
Proof.
  intros Hnone. unfold load_sessions. io_simpl. unfold path_exists.
  rewrite Hnone. by rewrite bool_decide_eq_false_2 by (by intros [??]).
Qed.

Lemma load_sessions_present data_path (w : World sk) sessions :
  files w !! data_path = Some (SessionsJson sessions) →
  load_sessions sk data_path w
  = (Some sessions, mkWorld (files w) (loaded w ++ [data_path])).
Proof.
  intros Hsome. unfold load_sessions. io_simpl. unfold path_exists, load.
  rewrite Hsome. rewrite bool_decide_eq_true_2 by done. cbn [negb].
  by rewrite ?Hsome.
Qed.

End load_facts.

Import py features io spec aux.

Ltac in_list :=
  repeat (first [apply list_elem_of_here | apply list_elem_of_further]).

Ltac for_all_in H :=
  repeat (apply elem_of_cons in H as [->|H]); [..|by apply elem_of_nil in H].

Lemma sample_world_loads sessions :
  train.load_sessions sklearn.memorizer train.default_data_path
    (sample.world sessions)
  = (Some sessions, sample.world_loaded sessions).
Proof. apply load_sessions_present. apply lookup_singleton_eq. Qed.

Lemma train_model_failure_order_witness :
  train.train_model sqrt_rounded sklearn.memorizer train.default_data_path
    train.default_model_path 10 train.default_test_size sample.empty_world
  = (Some train.NoData, sample.empty_world) ∧
  (∃ user_counts,
     train.train_model sqrt_rounded sklearn.memorizer train.default_data_path
       train.default_model_path 10 train.default_test_size
       (sample.world [sample.alice; sample.bob])
     = (Some (train.InsufficientSamples 10 user_counts),
        sample.world_loaded [sample.alice; sample.bob]) ∧
     user_counts !! "A" = Some 1) ∧
  train.train_model sqrt_rounded sklearn.memorizer train.default_data_path
    train.default_model_path 1 train.default_test_size
    (sample.world [sample.alice; sample.alice])
  = (Some train.InsufficientClasses,
     sample.world_loaded [sample.alice; sample.alice]).
Proof.
  split_and!.
  - destruct (train_model_failure_order sqrt_rounded sklearn.memorizer
                sample.empty_world sample.empty_world []
                train.default_data_path train.default_model_path 10
                train.default_test_size) as (Hnodata & _).
    + apply load_sessions_missing. apply lookup_empty.
    + by apply Hnodata.
  - destruct (train_model_failure_order sqrt_rounded sklearn.memorizer
                (sample.world [sample.alice; sample.bob])
                (sample.world_loaded [sample.alice; sample.bob])
                [sample.alice; sample.bob] train.default_data_path
                train.default_model_path 10 train.default_test_size)
      as (_ & Hsamples & _); [apply sample_world_loads|].
    destruct Hsamples as (user_counts & Heq & Hcounts); [done| |].
    { exists sample.alice. split; [in_list|]. by vm_compute. }
    exists user_counts. split; [exact Heq|]. rewrite Hcounts. by vm_compute.
  - destruct (train_model_failure_order sqrt_rounded sklearn.memorizer
                (sample.world [sample.alice; sample.alice])
                (sample.world_loaded [sample.alice; sample.alice])
                [sample.alice; sample.alice] train.default_data_path
                train.default_model_path 1 train.default_test_size)
      as (_ & _ & Hclasses & _); [apply sample_world_loads|].
    apply Hclasses; [done| |].
    + intros s Hs. for_all_in Hs; by vm_compute.
    + intros s1 s2 Hs1 Hs2. for_all_in Hs1; for_all_in Hs2; reflexivity.
Defined.

Lemma memorizer_fit (X : list (list Qc)) (y : list string) :
  length X = length y →
  sklearn.fit sklearn.memorizer 100 42 X y = Some (zip X y).
Proof. intros Hlen. cbn. by rewrite bool_decide_eq_true_2. Qed.

Lemma memorizer_split (X : list (list Qc)) (y : list string) test_size seed :
  sklearn.train_test_split sklearn.memorizer X y test_size seed y =
  Some (drop (Z.to_nat (Qceiling (test_size * Qc_of_nat (length X))%Qc)) X,
        take (Z.to_nat (Qceiling (test_size * Qc_of_nat (length X))%Qc)) X,
        drop (Z.to_nat (Qceiling (test_size * Qc_of_nat (length X))%Qc)) y,
        take (Z.to_nat (Qceiling (test_size * Qc_of_nat (length X))%Qc)) y).
Proof. done. Qed.

Lemma memorizer_accuracy model (X : list (list Qc)) (y : list string) :
  length X = length y →
  is_Some (sklearn.accuracy_score y (sklearn.predict sklearn.memorizer model X)).
Proof.
  intros Hlen. unfold sklearn.accuracy_score. cbn.
  rewrite bool_decide_eq_true_2; [done|]. by rewrite length_fmap.
Qed.

Lemma train_model_split_policy_witness :
  (∃ accuracy user_counts w'',
     train.train_model sqrt_rounded sklearn.memorizer train.default_data_path
       train.default_model_path 1 train.default_test_size
       (sample.world [sample.alice; sample.bob])
     = (Some (train.Trained accuracy user_counts 2 2 2), w'')) ∧
  (∃ accuracy user_counts w'',
     train.train_model sqrt_rounded sklearn.memorizer train.default_data_path
       train.default_model_path 5 train.default_test_size
       (sample.world (replicate 5 sample.alice ++ replicate 5 sample.bob))
     = (Some (train.Trained accuracy user_counts 10 8 2), w'')).
Proof.
  split.
  - destruct (train_model_split_policy sqrt_rounded sklearn.memorizer
                (sample.world [sample.alice; sample.bob])
                (sample.world_loaded [sample.alice; sample.bob])
                [sample.alice; sample.bob] train.default_data_path
                train.default_model_path 1 train.default_test_size)
      as (X & user_counts & HX & HlenX & _ & Hiff & _).
    + apply sample_world_loads.
    + done.
    + intros s Hs. for_all_in Hs; by vm_compute.
    + exists sample.alice, sample.bob. split_and!; [in_list..|done].
    + set (y := train.label <$> [sample.alice; sample.bob]) in *.
      assert (length X = length y) as Hlen by (by rewrite HlenX).
      destruct (memorizer_accuracy (zip X y) X y Hlen) as [accuracy Hacc].
      exists accuracy, user_counts. eexists. apply Hiff.
      exists X, X, y, y, (zip X y), accuracy.
      split_and!; [simpl; lia|done|by apply memorizer_fit|done| |done].
      by rewrite HlenX.
  - destruct (train_model_split_policy sqrt_rounded sklearn.memorizer
                (sample.world (replicate 5 sample.alice ++ replicate 5 sample.bob))
                (sample.world_loaded
                   (replicate 5 sample.alice ++ replicate 5 sample.bob))
                (replicate 5 sample.alice ++ replicate 5 sample.bob)
                train.default_data_path
                train.default_model_path 5 train.default_test_size)
      as (X & user_counts & HX & HlenX & _ & Hiff & _).
    + apply sample_world_loads.
    + done.
    + intros s Hs. simpl in Hs. for_all_in Hs; by vm_compute.
    + exists sample.alice, sample.bob. split_and!; [simpl; in_list..|done].
    + set (sessions := replicate 5 sample.alice ++ replicate 5 sample.bob) in *.
      set (y := train.label <$> sessions) in *.
      assert (length sessions = 10) as Hten by done.
      assert (length y = 10) as Hleny by done.
      rewrite Hten in HlenX.
      assert (Z.to_nat (Qceiling (train.default_test_size * Qc_of_nat 10)%Qc) = 2)
        as Hn by (by vm_compute).
      assert (length (drop 2 X) = length (drop 2 y)) as Hlen1
        by (rewrite !length_drop; lia).
      assert (length (take 2 X) = length (take 2 y)) as Hlen2
        by (rewrite !length_take; lia).
      destruct (memorizer_accuracy (zip (drop 2 X) (drop 2 y))
                  (take 2 X) (take 2 y) Hlen2) as [accuracy Hacc].
      exists accuracy, user_counts. eexists. apply Hiff.
      exists (drop 2 X), (take 2 X), (drop 2 y), (take 2 y),
        (zip (drop 2 X) (drop 2 y)), accuracy.
      split_and!; [|lia|by apply memorizer_fit|done| |done].
      * intros _. by rewrite memorizer_split, HlenX, Hn.
      * rewrite Hten, length_drop, length_take, HlenX. done.
Defined.

Lemma model_world_model :
  files sample.model_world !! train.default_model_path
  = Some (ModelJoblib (sk:=sklearn.memorizer) sample.model).
Proof.
  unfold sample.model_world. cbn [files].
  rewrite lookup_insert_ne by done. apply lookup_singleton_eq.
Qed.

Lemma model_world_feature_order :
  files sample.model_world !! train.feature_order_path
  = Some (FeatureOrderJoblib (reverse train.feature_order)).
Proof. unfold sample.model_world. cbn [files]. apply lookup_insert_eq. Qed.

Lemma predict_user_contract_witness :
  files sample.model_world !! train.default_model_path
    = Some (ModelJoblib (sk:=sklearn.memorizer) sample.model) ∧
  NoDup (sklearn.classes_ sklearn.memorizer sample.model) ∧
  ∃ confidence prob_dict,
    (predict.predict_user sqrt_rounded sklearn.memorizer
       (sample.typing 80 120) train.default_model_path sample.model_world).1
      = Some (predict.Predicted "A" confidence prob_dict) ∧
    (∀ p, p ∈ [Qc_of_nat 1; Qc_of_nat 0] → (p ≤ confidence)%Qc) ∧
    is_Some (prob_dict !! "B").
Proof.
  assert (NoDup (sklearn.classes_ sklearn.memorizer sample.model)) as Hnd.
  { apply (bool_decide_unpack _). vm_compute. exact I. }
  split_and!; [apply model_world_model|done|].
  destruct (predict_user_contract sqrt_rounded sklearn.memorizer
              (sample.typing 80 120) train.default_model_path
              sample.model_world) as (_ & _ & Hpresent).
  destruct (Hpresent sample.model model_world_model) as (_ & fv & Hfv & Hanswer).
  assert (fv = mkFeatures (Qc_of_Z 80) 0%Qc (Qc_of_Z 80)
                          (Qc_of_Z 120) 0%Qc (Qc_of_Z 120)) as ->.
  { apply (inj Some). rewrite <-Hfv. symmetry. by_evaluation. }
  destruct (Hanswer "A" [Qc_of_nat 1; Qc_of_nat 0])
    as (confidence & prob_dict & Heq & _ & Hmax & _ & Hall);
    [by vm_compute|by vm_compute|done|done|by vm_compute|].
  exists confidence, prob_dict. split_and!; [done|done|].
  apply Hall. vm_compute. in_list.
Defined.

(** C9, as stated: on a disk that holds a model and a recorded feature order
    different from the one in the code, prediction succeeds and the only file
    it loads is the model. *)
Lemma predict_user_never_loads_feature_order :
  files sample.model_world !! train.feature_order_path
    = Some (FeatureOrderJoblib (reverse train.feature_order)) ∧
  reverse train.feature_order ≠ train.feature_order ∧
  (∃ confidence prob_dict,
     (predict.predict_user sqrt_rounded sklearn.memorizer
        (sample.typing 80 120) train.default_model_path sample.model_world).1
     = Some (predict.Predicted "A" confidence prob_dict)) ∧
  loaded (predict.predict_user sqrt_rounded sklearn.memorizer
            (sample.typing 80 120) train.default_model_path
            sample.model_world).2
    = [train.default_model_path] ∧
  train.feature_order_path
    ∉ loaded (predict.predict_user sqrt_rounded sklearn.memorizer
                (sample.typing 80 120) train.default_model_path
                sample.model_world).2.
Proof.
  assert (loaded (predict.predict_user sqrt_rounded sklearn.memorizer
            (sample.typing 80 120) train.default_model_path
            sample.model_world).2 = [train.default_model_path]) as Hloaded
    by (by vm_compute).
  split_and!.
  - apply model_world_feature_order.
  - by vm_compute.
  - vm_compute. by eexists _, _.
  - done.
  - rewrite Hloaded. by intros [=]%list_elem_of_singleton.
Qed.

Lemma too_few_events_gate_witness :
  length (app.current_events sample.pasted_app) < 4 ∧
  length (app.predict_events sample.pasted_app) < 4 ∧
  app.stripped (app.text_input sample.pasted_app) ≠ "" ∧
  validate_typed_text (app.stripped (app.text_input sample.pasted_app))
    app.PROMPT_TEXT default_min_similarity = Some true ∧
  app.save_session sklearn.memorizer "2024-01-01T00:00:00" sample.pasted_app
    sample.empty_world
  = (Some (app.show (app.showwarning app.MSG_TOO_FEW_EVENTS) sample.pasted_app),
     sample.empty_world) ∧
  app.predict_action sqrt_rounded sklearn.memorizer sample.pasted_app
    sample.model_world
  = (Some (app.show (app.showwarning app.MSG_TOO_FEW_EVENTS) sample.pasted_app),
     sample.model_world).
Proof.
  assert (length (app.current_events sample.pasted_app) < 4) as H1
    by (simpl; lia).
  assert (length (app.predict_events sample.pasted_app) < 4) as H2
    by (simpl; lia).
  assert (app.stripped (app.text_input sample.pasted_app) ≠ "") as H3
    by (by vm_compute).
  assert (validate_typed_text (app.stripped (app.text_input sample.pasted_app))
            app.PROMPT_TEXT default_min_similarity = Some true) as H4
    by (by vm_compute).
  split_and!; [done..| |].
  - destruct (too_few_events_gate sqrt_rounded sklearn.memorizer
                "2024-01-01T00:00:00" sample.pasted_app sample.empty_world)
      as (Hsave & _ & Hmsg).
    rewrite (Hsave H1).
    destruct (Hmsg (app.stripped (app.text_input sample.pasted_app)))
      as (_ & _ & ->); done.
  - destruct (too_few_events_gate sqrt_rounded sklearn.memorizer
                "2024-01-01T00:00:00" sample.pasted_app sample.model_world)
      as (_ & Hpredict & Hmsg).
    rewrite (Hpredict H2).
    destruct (Hmsg (app.stripped (app.predict_text_input sample.pasted_app)))
      as (_ & _ & ->); done.
Defined.

(** C10, as stated: with no event captured and nothing typed, both actions
    stop at the empty-text warning, not at the too-few-events one, and
    [predict_user] itself answers on two events. *)
Lemma too_few_events_not_always_reported :
  length (app.current_events sample.fresh_app) < 4 ∧
  length (app.predict_events sample.fresh_app) < 4 ∧
  app.save_session sklearn.memorizer "2024-01-01T00:00:00" sample.fresh_app
    sample.empty_world
  = (Some (app.show (app.showwarning app.MSG_NOTHING_TYPED) sample.fresh_app),
     sample.empty_world) ∧
  app.predict_action sqrt_rounded sklearn.memorizer sample.fresh_app
    sample.model_world
  = (Some (app.show (app.showwarning app.MSG_NOTHING_TYPED) sample.fresh_app),
     sample.model_world) ∧
  app.MSG_NOTHING_TYPED ≠ app.MSG_TOO_FEW_EVENTS ∧
  length [press "t" 0; release "t" 80] < 4 ∧
  (∃ confidence prob_dict,
     (predict.predict_user sqrt_rounded sklearn.memorizer
        [press "t" 0; release "t" 80] train.default_model_path
        sample.model_world).1
     = Some (predict.Predicted "A" confidence prob_dict)).
Proof.
  split_and!.
  - simpl; lia.
  - simpl; lia.
  - rewrite save_session_gate by (simpl; lia). done.
  - rewrite predict_action_gate by (simpl; lia). done.
  - by vm_compute.
  - simpl; lia.
  - vm_compute. by eexists _, _.
Qed.

(** * Further properties of the code *)

(** ** Transcript validation: the threshold in whole numbers *)

Section validation_more.
Import py features spec.

Lemma Qc_of_nat_ratio_le (a b m n : nat) :
  0 < b → 0 < n →
  (Qc_of_nat a / Qc_of_nat b ≤ Qc_of_nat m / Qc_of_nat n)%Qc ↔ a * n ≤ m * b.
Proof.
  intros Hb Hn. destruct b as [|b]; [lia|]. destruct n as [|n]; [lia|].
  rewrite Nat2Z.inj_le, !Nat2Z.inj_mul.
  unfold Qcle, Qcdiv, Qcmult, Qcinv, Q2Qc, Qc_of_nat, Qc_of_Z. cbn [this].
  rewrite !Qred_correct.
  change (Z.of_nat (S b)) with (Z.pos (Pos.of_succ_nat b)).
  change (Z.of_nat (S n)) with (Z.pos (Pos.of_succ_nat n)).
  unfold Qle, Qmult, Qinv, inject_Z. cbn [Qnum Qden].
  by rewrite !Z.mul_1_r, !Pos.mul_1_l.
Qed.

Lemma matched_in_order_le typed prompt :
  matched_in_order typed prompt ≤ length typed ∧
  matched_in_order typed prompt ≤ length prompt.
Proof.
  revert prompt. induction typed as [|c typed IH]; intros prompt; simpl; [lia|].
  destruct prompt as [|p prompt]; [simpl; lia|].
  case_bool_decide.
  - destruct (IH prompt). simpl. lia.
  - destruct (IH (p :: prompt)). simpl in *. lia.
Qed.

Lemma matched_in_order_sublist typed : ∀ prompt,
  prompt `sublist_of` typed → matched_in_order typed prompt = length prompt.
Proof.
  induction typed as [|c typed IH]; intros prompt Hsub.
  { by apply sublist_nil_r in Hsub as ->. }
  destruct prompt as [|p prompt]; [done|]. simpl.
  case_bool_decide as Hc.
  - subst. f_equal. apply IH.
    apply sublist_cons_r in Hsub as [Hsub|(prompt' & [= ->] & Hsub)]; [|done].
    trans (p :: prompt); [by apply sublist_cons|done].
  - apply IH. apply sublist_cons_r in Hsub as [Hsub|(prompt' & [= -> ->] & _)];
      done.
Qed.

Lemma validate_typed_text_threshold typed_text prompt :
  validate_typed_text typed_text prompt default_min_similarity =
  Some (bool_decide
          (clean typed_text = clean prompt ∨
           (clean prompt ≠ [] ∧
            4 * length (clean prompt)
            ≤ 5 * matched_in_order (clean typed_text) (clean prompt)))).
Proof.
  unfold validate_typed_text. cbv zeta.
  set (typed_clean := clean typed_text). set (prompt_clean := clean prompt).
  case_bool_decide as Heq.
  { by rewrite bool_decide_eq_true_2 by (by left). }
  case_bool_decide as Hempty.
  { rewrite bool_decide_eq_false_2; [done|].
    intros [?|[Hne _]]; [done|]. by destruct prompt_clean. }
  destruct (match_loop_spec prompt_clean typed_clean 0 0) as [i' ->].
  cbn [mbind option_bind]. unfold int_div.
  rewrite bool_decide_eq_false_2 by done. cbn [mbind option_bind].
  rewrite drop_0, Nat.add_0_l. f_equal. apply bool_decide_ext.
  unfold default_min_similarity.
  rewrite Qc_of_nat_ratio_le by lia. split.
  - intros Hle. right. split; [by destruct prompt_clean|lia].
  - intros [?|[_ Hle]]; [done|lia].
Qed.

(** X1: a typed text that contains the prompt as a subsequence (characters
    inserted anywhere) is accepted, whatever its length. *)
Theorem validate_accepts_supersequence typed_text prompt :
  clean prompt ≠ [] →
  clean prompt `sublist_of` clean typed_text →
  validate_typed_text typed_text prompt default_min_similarity = Some true.
Proof.
  intros Hne Hsub. rewrite validate_typed_text_threshold.
  rewrite bool_decide_eq_true_2; [done|]. right. split; [done|].
  rewrite (matched_in_order_sublist _ _ Hsub). lia.
Qed.

(** X2: a typed text with fewer than 80% of the characters of the prompt is
    rejected. *)
Theorem validate_rejects_short typed_text prompt :
  5 * length (clean typed_text) < 4 * length (clean prompt) →
  validate_typed_text typed_text prompt default_min_similarity = Some false.
Proof.
  intros Hshort. rewrite validate_typed_text_threshold.
  rewrite bool_decide_eq_false_2; [done|].
  intros [Heq|[_ Hle]].
  - rewrite Heq in Hshort. lia.
  - destruct (matched_in_order_le (clean typed_text) (clean prompt)). lia.
Qed.

(** X3: against a prompt that is empty after normalization, only a text
    that is empty after normalization is accepted. *)
Theorem validate_empty_prompt typed_text prompt :
  clean prompt = [] →
  validate_typed_text typed_text prompt default_min_similarity
  = Some (bool_decide (clean typed_text = [])).
Proof.
  intros Hempty. rewrite validate_typed_text_threshold, Hempty.
  f_equal. apply bool_decide_ext. split; [|by left].
  by intros [?|[? _]].
Qed.

End validation_more.

(** ** Stripping twice *)

Section strip_facts.
Import py features spec.

Lemma lstrip_spaces ws l :
  Forall (λ c, is_space c = true) ws → lstrip (ws ++ l) = lstrip l.
Proof.
  induction 1 as [|c ws Hc _ IH]; [done|]. simpl. by rewrite Hc.
Qed.

Lemma lstrip_split l :
  ∃ ws, Forall (λ c, is_space c = true) ws ∧ l = ws ++ lstrip l.
Proof.
  induction l as [|c l (ws & Hws & IH)]; [by exists []|].
  simpl. destruct (is_space c) eqn:Hc.
  - exists (c :: ws). split; [by constructor|]. simpl. f_equal. exact IH.
  - by exists [].
Qed.

Lemma lstrip_head l c l' : lstrip l = c :: l' → is_space c = false.
Proof.
  induction l as [|x l IH]; [done|]. simpl.
  destruct (is_space x) eqn:Hx; [done|]. by intros [= <- _].
Qed.

Lemma lstrip_fixed l :
  (∀ c l', l = c :: l' → is_space c = false) → lstrip l = l.
Proof.
  destruct l as [|c l]; [done|]. intros Hhead. simpl.
  by rewrite (Hhead c l).
Qed.

Lemma lstrip_idemp l : lstrip (lstrip l) = lstrip l.
Proof. apply lstrip_fixed. intros c l'. apply lstrip_head. Qed.

Lemma strip_idemp l : strip (strip l) = strip l.
Proof.
  unfold strip. set (A := lstrip l).
  destruct (lstrip_split (reverse A)) as (ws & Hws & HR).
  set (B := reverse (lstrip (reverse A))).
  assert (A = B ++ reverse ws) as HA.
  { unfold B. rewrite <-reverse_app, <-HR. by rewrite reverse_involutive. }
  assert (lstrip B = B) as ->.
  { apply lstrip_fixed. intros c B' HB.
    apply (lstrip_head l c (B' ++ reverse ws)). fold A. by rewrite HA, HB. }
  unfold B. by rewrite reverse_involutive, lstrip_idemp.
Qed.

Lemma clean_stripped s : clean (app.stripped s) = clean s.
Proof.
  unfold clean, app.stripped.
  by rewrite list_ascii_of_string_of_list_ascii, strip_idemp.
Qed.

Lemma strip_nil_iff l : strip l = [] ↔ Forall (λ c, is_space c = true) l.
Proof.
  unfold strip. split.
  - intros Hnil. apply (f_equal reverse) in Hnil.
    rewrite reverse_involutive, reverse_nil in Hnil.
    destruct (lstrip_split l) as (ws & Hws & Hl).
    destruct (lstrip_split (reverse (lstrip l))) as (ws' & Hws' & Hl').
    rewrite Hnil, app_nil_r in Hl'.
    apply (f_equal reverse) in Hl'. rewrite reverse_involutive in Hl'.
    rewrite Hl, Hl'. apply Forall_app. split; [done|].
    by apply Forall_reverse.
  - intros Hall.
    assert (lstrip l = []) as ->.
    { rewrite <-(app_nil_r l). by rewrite lstrip_spaces. }
    done.
Qed.

(** X4: the actions strip the typed text before they validate it, and the
    validator strips again; the second stripping changes nothing, so the
    text in the widget is validated as it is. *)
Theorem validate_stripped s prompt min_similarity :
  validate_typed_text (app.stripped s) prompt min_similarity
  = validate_typed_text s prompt min_similarity.
Proof. unfold validate_typed_text. by rewrite clean_stripped. Qed.

Lemma stripped_empty_iff s :
  app.stripped s = "" ↔
  Forall (λ c, is_space c = true) (list_ascii_of_string s).
Proof.
  unfold app.stripped. rewrite <-strip_nil_iff. split.
  - intros Hs. apply (f_equal list_ascii_of_string) in Hs.
    by rewrite list_ascii_of_string_of_list_ascii in Hs.
  - by intros ->.
Qed.

End strip_facts.

(** ** Events that are neither a press nor a release *)

Section ignored_events.
Import py features spec more.

Lemma sort_by_filter_comm {A} (k : A → Qc) (P : A → Prop)
    `{!∀ x, Decision (P x)} (l : list A) :
  filter P (sort_by k l) = sort_by k (filter P l).
Proof.
  assert (Transitive (λ x y : A, (k x ≤ k y)%Qc)) as Htrans.
  { intros x y z. apply Qcle_trans. }
  apply (sorted_ties_unique k).
  - apply StronglySorted_Sorted, StronglySorted_filter.
    apply Sorted_StronglySorted; [done|]. apply sort_by_sorted.
  - apply sort_by_sorted.
  - by rewrite !sort_by_perm.
  - intros τ. rewrite sort_by_filter, !list_filter_filter.
    rewrite (list_filter_iff _ (λ x, P x ∧ k x = τ)) by (intros; tauto).
    rewrite <-(list_filter_filter P (λ x, k x = τ)), sort_by_filter.
    rewrite list_filter_filter. apply list_filter_iff. intros; tauto.
Qed.

Lemma fifo_dwell_transitions evs : ∀ q,
  fifo_dwell q (filter is_transition evs) = fifo_dwell q evs.
Proof.
  induction evs as [|e evs IH]; intros q; [done|].
  rewrite filter_cons. case_decide as Ht.
  - cbn [fifo_dwell]. cbv zeta.
    repeat case_bool_decide; rewrite ?IH; try done.
    destruct (q (ev_key e)); by rewrite ?IH.
  - rewrite IH. cbn [fifo_dwell]. cbv zeta.
    rewrite !bool_decide_eq_false_2; [done|..];
      intros ?; apply Ht; unfold is_transition; tauto.
Qed.

Lemma press_times_transitions evs :
  press_times (filter is_transition evs) = press_times evs.
Proof.
  unfold press_times. rewrite list_filter_filter. f_equal.
  apply list_filter_iff. intros e. unfold is_transition. tauto.
Qed.

Lemma dwell_times_of_transitions events :
  dwell_times_of (filter is_transition events) = dwell_times_of events.
Proof.
  rewrite !dwell_times_of_fifo, <-sort_by_filter_comm.
  by rewrite fifo_dwell_transitions.
Qed.

Lemma flight_times_of_transitions events :
  flight_times_of (filter is_transition events) = flight_times_of events.
Proof. by rewrite !flight_times_of_spec, press_times_transitions. Qed.

Lemma few_events_no_samples events :
  length events < 2 →
  dwell_times_of events = Some [] ∧ flight_times_of events = Some [].
Proof.
  intros Hlen. rewrite dwell_times_of_fifo, flight_times_of_spec.
  destruct events as [|e [|??]]; [done| |simpl in Hlen; lia].
  split.
  - simpl. unfold no_pending. by repeat case_bool_decide.
  - unfold press_times. rewrite filter_cons, filter_nil.
    by case_decide.
Qed.

(** X6: events whose type is neither ['down'] nor ['up'] have no effect on
    the result: removing them from the input changes nothing, even when it
    leaves fewer than two events. *)
Theorem extract_features_ignores_other_types sqrt events :
  extract_features sqrt (filter is_transition events)
  = extract_features sqrt events.
Proof.
  unfold extract_features.
  rewrite dwell_times_of_transitions, flight_times_of_transitions.
  pose proof (length_filter is_transition events) as Hlen.
  case_bool_decide as Hfew; case_bool_decide as Hfew'; [done| |lia|done].
  destruct (few_events_no_samples (filter is_transition events) Hfew)
    as [Hd Hf].
  rewrite dwell_times_of_transitions in Hd.
  rewrite flight_times_of_transitions in Hf.
  by rewrite Hd, Hf.
Qed.

End ignored_events.

(** ** Typing one key at a time *)

Section sequential.
Import py features spec more.

Lemma sort_by_of_sorted {A} (k : A → Qc) (l : list A) :
  Sorted (λ x y, k x ≤ k y)%Qc l → sort_by k l = l.
Proof.
  intros Hs. symmetry. apply stable_sorted_sort_by. by split_and!.
Qed.

Lemma Qc_lt_minus (a b : Qc) : (a < b)%Qc → (0 < b - a)%Qc.
Proof. intros Hlt. by apply Qclt_minus_iff in Hlt. Qed.

Lemma events_of_cons k strokes :
  events_of (k :: strokes) =
  mkEvent (stroke_key k) "down" (down k)
    :: mkEvent (stroke_key k) "up" (up k) :: events_of strokes.
Proof. done. Qed.

Lemma one_at_a_time_tail k strokes :
  one_at_a_time (k :: strokes) → one_at_a_time strokes.
Proof. by intros [_ ?]. Qed.

Lemma events_of_sorted strokes :
  held strokes → one_at_a_time strokes →
  Sorted (λ x y, ev_t x ≤ ev_t y)%Qc (events_of strokes).
Proof.
  induction 1 as [|k strokes Hk Hheld IH]; intros Hone; [constructor|].
  rewrite events_of_cons.
  constructor; [constructor|].
  - apply IH. by eapply one_at_a_time_tail.
  - destruct strokes as [|k' strokes]; [constructor|].
    rewrite events_of_cons. constructor. simpl.
    apply Qclt_le_weak. by destruct Hone as [? _].
  - constructor. simpl. by apply Qclt_le_weak.
Qed.

Lemma fifo_dwell_sequential strokes : ∀ q,
  (∀ k, q k = []) → held strokes →
  fifo_dwell q (events_of strokes) = (λ k, up k - down k)%Qc <$> strokes.
Proof.
  induction strokes as [|k strokes IH]; intros q Hq Hheld; [done|].
  apply Forall_cons in Hheld as [Hk Hheld].
  rewrite events_of_cons, fmap_cons. cbn [fifo_dwell]. cbv zeta.
  cbn [ev_key ev_t ev_type]. unfold is_press, is_release. cbn [ev_type].
  rewrite (bool_decide_eq_true_2 ("down" = "down")) by done.
  rewrite (bool_decide_eq_false_2 ("up" = "down")) by done.
  rewrite (bool_decide_eq_true_2 ("up" = "up")) by done.
  assert (set_queue q (stroke_key k) (q (stroke_key k) ++ [down k])
            (stroke_key k) = [down k]) as ->.
  { unfold set_queue. by rewrite bool_decide_eq_true_2, Hq. }
  rewrite bool_decide_eq_true_2 by (by apply Qc_lt_minus).
  cbn [app]. f_equal. apply IH; [|done].
  intros k'. unfold set_queue. case_bool_decide; [done|apply Hq].
Qed.

Lemma press_times_events_of strokes :
  press_times (events_of strokes) = down <$> strokes.
Proof.
  unfold press_times. induction strokes as [|k strokes IH]; [done|].
  rewrite events_of_cons, !filter_cons, fmap_cons.
  rewrite decide_True by done. rewrite decide_False by done.
  rewrite fmap_cons. by rewrite IH.
Qed.

Lemma downs_sorted strokes :
  held strokes → one_at_a_time strokes → Sorted Qcle (down <$> strokes).
Proof.
  induction 1 as [|k strokes Hk Hheld IH]; intros Hone; [constructor|].
  rewrite fmap_cons. constructor.
  - apply IH. by eapply one_at_a_time_tail.
  - destruct strokes as [|k' strokes]; [constructor|].
    rewrite fmap_cons. constructor.
    apply Qclt_le_weak. destruct Hone as [Hup _].
    by apply Qclt_trans with (up k).
Qed.

Lemma positive_gaps_cons2 (a b : Qc) ts :
  positive_gaps (a :: b :: ts)
  = (if bool_decide (0 < b - a)%Qc then [(b - a)%Qc] else [])
      ++ positive_gaps (b :: ts).
Proof. done. Qed.

Lemma positive_gaps_sequential strokes :
  held strokes → one_at_a_time strokes →
  positive_gaps (down <$> strokes)
  = zip_with (λ a b, down b - down a)%Qc strokes (tail strokes).
Proof.
  induction 1 as [|k strokes Hk Hheld IH]; intros Hone; [done|].
  destruct strokes as [|k' strokes]; [done|].
  specialize (IH (one_at_a_time_tail _ _ Hone)). rewrite fmap_cons in IH.
  rewrite !fmap_cons, positive_gaps_cons2, IH. cbn [tail zip_with].
  rewrite bool_decide_eq_true_2; [done|].
  apply Qc_lt_minus. destruct Hone as [Hup _].
  by apply Qclt_trans with (up k).
Qed.

(** X7: when the keys are typed one at a time (each released after it is
    pressed and before the next one is pressed), there is one dwell sample
    per key stroke, its hold time, and one flight sample per pair of
    neighbouring strokes, the time from press to press. *)
Theorem sequential_typing_samples strokes :
  held strokes → one_at_a_time strokes →
  dwell_times_of (events_of strokes)
    = Some ((λ k, up k - down k)%Qc <$> strokes) ∧
  flight_times_of (events_of strokes)
    = Some (zip_with (λ a b, down b - down a)%Qc strokes (tail strokes)).
Proof.
  intros Hheld Hone. split.
  - rewrite dwell_times_of_fifo, sort_by_of_sorted
      by (by apply events_of_sorted).
    by rewrite fifo_dwell_sequential.
  - rewrite flight_times_of_spec, press_times_events_of.
    rewrite (sort_by_of_sorted id) by (by apply downs_sorted).
    by rewrite positive_gaps_sequential.
Qed.

End sequential.

(** ** How many samples there can be *)

Section sample_counts.
Import py features spec more.

Lemma pending_update ks (q : queues) k l :
  NoDup ks → k ∈ ks →
  sum_list ((λ κ, length (set_queue q k l κ)) <$> ks) + length (q k)
  = sum_list ((λ κ, length (q κ)) <$> ks) + length l.
Proof.
  intros Hnd Hin. induction Hnd as [|κ0 ks Hnotin Hnd IH];
    [by apply elem_of_nil in Hin|].
  rewrite !fmap_cons. cbn [sum_list].
  destruct (decide (κ0 = k)) as [->|Hne].
  - assert (set_queue q k l k = l) as ->.
    { unfold set_queue. by rewrite bool_decide_eq_true_2. }
    assert ((λ κ, length (set_queue q k l κ)) <$> ks
            = (λ κ, length (q κ)) <$> ks) as ->;
      [|unfold id; lia].
    apply list_fmap_ext. intros i κ Hi. cbv beta. unfold set_queue.
    rewrite bool_decide_eq_false_2; [done|].
    intros ->. apply Hnotin. by eapply list_elem_of_lookup_2.
  - apply elem_of_cons in Hin as [->|Hin]; [done|].
    assert (set_queue q k l κ0 = q κ0) as ->.
    { unfold set_queue. by rewrite bool_decide_eq_false_2. }
    specialize (IH Hin). unfold id in *. lia.
Qed.

Lemma fifo_dwell_length ks evs : ∀ q,
  NoDup ks → (∀ e, e ∈ evs → ev_key e ∈ ks) →
  length (fifo_dwell q evs)
  ≤ sum_list ((λ κ, length (q κ)) <$> ks) + length (filter is_press evs) ∧
  length (fifo_dwell q evs) ≤ length (filter is_release evs).
Proof.
  induction evs as [|e evs IH]; intros q Hnd Hkeys; [simpl; lia|].
  assert (ev_key e ∈ ks) as Hk by (apply Hkeys; left).
  assert (∀ e', e' ∈ evs → ev_key e' ∈ ks) as Hkeys'
    by (intros e' He'; apply Hkeys; by right).
  cbn [fifo_dwell]. cbv zeta. rewrite !filter_cons.
  destruct (decide (is_press e)) as [Hp|Hp].
  - rewrite bool_decide_eq_true_2 by done.
    assert (¬ is_release e) as Hr
      by (unfold is_press, is_release in *; by rewrite Hp).
    rewrite (decide_False (P:=is_release e)) by done.
    destruct (IH (set_queue q (ev_key e) (q (ev_key e) ++ [ev_t e])) Hnd Hkeys')
      as [IH1 IH2].
    pose proof (pending_update ks q (ev_key e) (q (ev_key e) ++ [ev_t e])
                  Hnd Hk) as Hsum.
    rewrite length_app in Hsum. simpl in *. lia.
  - rewrite bool_decide_eq_false_2 by done.
    destruct (decide (is_release e)) as [Hr|Hr].
    + rewrite bool_decide_eq_true_2 by done.
      destruct (q (ev_key e)) as [|press_t rest] eqn:Hq.
      * destruct (IH q Hnd Hkeys') as [IH1 IH2]. simpl. lia.
      * destruct (IH (set_queue q (ev_key e) rest) Hnd Hkeys') as [IH1 IH2].
        pose proof (pending_update ks q (ev_key e) rest Hnd Hk) as Hsum.
        rewrite Hq in Hsum. rewrite length_app.
        case_bool_decide; simpl in *; lia.
    + rewrite bool_decide_eq_false_2 by done.
      destruct (IH q Hnd Hkeys') as [IH1 IH2]. lia.
Qed.

Lemma positive_gaps_length ts : length (positive_gaps ts) ≤ length ts - 1.
Proof.
  induction ts as [|a [|b ts] IH]; [simpl; lia..|].
  cbn [positive_gaps]. rewrite length_app.
  case_bool_decide; simpl in *; lia.
Qed.

(** X8: there are never more dwell samples than presses, nor than
    releases, and always fewer flight samples than presses. *)
Theorem sample_counts_bounded events :
  ∃ dwell_times flight_times,
    dwell_times_of events = Some dwell_times ∧
    flight_times_of events = Some flight_times ∧
    length dwell_times ≤ length (filter is_press events) ∧
    length dwell_times ≤ length (filter is_release events) ∧
    length flight_times ≤ length (filter is_press events) - 1.
Proof.
  eexists _, _. split_and!;
    [apply dwell_times_of_fifo|apply flight_times_of_spec|..].
  - destruct (fifo_dwell_length (remove_dups (ev_key <$> events))
                (sort_by ev_t events) no_pending) as [Hle _].
    + apply NoDup_remove_dups.
    + intros e He. apply elem_of_remove_dups, list_elem_of_fmap_2.
      by rewrite <-(sort_by_perm ev_t events).
    + assert (sum_list ((λ κ, length (no_pending κ))
                          <$> remove_dups (ev_key <$> events)) = 0) as Hz.
      { generalize (remove_dups (ev_key <$> events)).
        intros ks. by induction ks. }
      assert (length (filter is_press (sort_by ev_t events))
              = length (filter is_press events)) as Hp
        by (by rewrite sort_by_perm).
      rewrite Hz, Hp in Hle. done.
  - destruct (fifo_dwell_length (remove_dups (ev_key <$> events))
                (sort_by ev_t events) no_pending) as [_ Hle].
    + apply NoDup_remove_dups.
    + intros e He. apply elem_of_remove_dups, list_elem_of_fmap_2.
      by rewrite <-(sort_by_perm ev_t events).
    + assert (length (filter is_release (sort_by ev_t events))
              = length (filter is_release events)) as Hr
        by (by rewrite sort_by_perm).
      by rewrite Hr in Hle.
  - etrans; [apply positive_gaps_length|].
    unfold press_times. by rewrite length_sort_by, length_fmap.
Qed.

End sample_counts.

(** ** The counts of [check_minimum_samples] *)

Section counts_more.
Import py features io train spec aux more.

Lemma total_count_insert (m : gmap string nat) k v :
  total_count (<[k := v]> m) + default 0 (m !! k) = total_count m + v.
Proof.
  unfold total_count.
  assert (∀ (m' : gmap string nat) (j1 j2 : string) (z1 z2 y : nat),
            j1 ≠ j2 → m' !! j1 = Some z1 → m' !! j2 = Some z2 →
            z1 + (z2 + y) = z2 + (z1 + y)) as Hcomm by (intros; lia).
  destruct (m !! k) as [x|] eqn:Hk; simpl.
  - rewrite (map_fold_delete_L _ 0 k x m) by eauto.
    rewrite <-insert_delete_eq.
    rewrite map_fold_insert_L; [unfold id; lia|eauto|apply lookup_delete_eq].
  - rewrite map_fold_insert_L by eauto. lia.
Qed.

Lemma total_count_fold sessions : ∀ m,
  total_count (foldl count_step m sessions) = total_count m + length sessions.
Proof.
  induction sessions as [|s sessions IH]; intros m; [simpl; lia|].
  cbn [foldl]. rewrite IH. unfold count_step.
  pose proof (total_count_insert m (label s)
                (default 0 (m !! label s) + 1)) as Hins.
  simpl. lia.
Qed.

Lemma user_counts_dom sessions min_per_user :
  dom (check_minimum_samples sessions min_per_user).2
  = list_to_set (label <$> sessions).
Proof.
  apply set_eq. intros u.
  rewrite elem_of_dom, user_counts_spec, elem_of_list_to_set.
  split.
  - intros Hsome. case_bool_decide as Hz; [by destruct Hsome|].
    destruct (sessions_of_pos_inv sessions u) as (s & Hs & <-); [lia|].
    by apply list_elem_of_fmap_2.
  - intros (s & -> & Hs)%list_elem_of_fmap.
    pose proof (sessions_of_pos sessions s Hs).
    rewrite bool_decide_eq_false_2 by lia. done.
Qed.

Lemma user_counts_total sessions min_per_user :
  total_count (check_minimum_samples sessions min_per_user).2 = length sessions.
Proof.
  trans (total_count (foldl count_step ∅ sessions)); [done|].
  rewrite total_count_fold. unfold total_count. by rewrite map_fold_empty.
Qed.

(** X9: the counts of [check_minimum_samples] add up to the number of
    sessions, and its keys are exactly the labels that occur. *)
Theorem check_minimum_samples_counts sessions min_per_user :
  total_count (check_minimum_samples sessions min_per_user).2
    = length sessions ∧
  dom (check_minimum_samples sessions min_per_user).2
    = list_to_set (label <$> sessions).
Proof.
  split; [apply user_counts_total|apply user_counts_dom].
Qed.

Lemma two_labels (y : list string) :
  ¬ size (list_to_set y : gset string) < 2 →
  ∃ a b, a ∈ y ∧ b ∈ y ∧ a ≠ b.
Proof.
  intros Hsize.
  destruct (elements (list_to_set y : gset string)) as [|a [|b l]] eqn:Hel.
  - exfalso. apply Hsize. unfold size, set_size. simpl. rewrite Hel. simpl. lia.
  - exfalso. apply Hsize. unfold size, set_size. simpl. rewrite Hel. simpl. lia.
  - pose proof (NoDup_elements (list_to_set y : gset string)) as Hnd.
    rewrite Hel in Hnd. apply NoDup_cons in Hnd as [Hab _].
    exists a, b. split_and!.
    + apply (elem_of_list_to_set (C:=gset string)), elem_of_elements.
      rewrite Hel. left.
    + apply (elem_of_list_to_set (C:=gset string)), elem_of_elements.
      rewrite Hel. right. left.
    + intros ->. apply Hab. left.
Qed.

Lemma sessions_of_two sessions a b :
  a ≠ b → sessions_of sessions a + sessions_of sessions b ≤ length sessions.
Proof.
  intros Hne. unfold sessions_of.
  induction sessions as [|s sessions IH]; [simpl; lia|].
  rewrite !filter_cons. repeat case_decide; simpl; try lia. congruence.
Qed.

End counts_more.

(** ** Training as a whole *)

Section train_more.
Import py features io train spec aux more.
Variable sqrt : Qc → Qc.
Variable sk : sklearn.Classifier.

Lemma load_sessions_outcome data_path (w : World sk) :
  ∃ l, load_sessions sk data_path w
       = (match files w !! data_path with
          | None => Some []
          | Some (SessionsJson sessions) => Some sessions
          | Some _ => None
          end, mkWorld (files w) (loaded w ++ l)).
Proof.
  destruct (files w !! data_path) as [f|] eqn:Hf.
  - exists [data_path]. unfold load_sessions. io_simpl. unfold path_exists, load.
    rewrite Hf. rewrite bool_decide_eq_true_2 by done. cbn [negb].
    rewrite ?Hf. by destruct f.
  - exists []. rewrite load_sessions_missing by done.
    rewrite app_nil_r. by destruct w.
Qed.

Lemma train_model_load_raises w w' data_path model_path min_per_user test_size :
  load_sessions sk data_path w = (None, w') →
  train_model sqrt sk data_path model_path min_per_user test_size w = (None, w').
Proof.
  intros Hload. unfold train_model.
  unfold mbind at 1, io_bind at 1, bind at 1. by rewrite Hload.
Qed.

(** What a successful run went through. *)
Lemma train_model_success_inv w w2 data_path model_path min_per_user test_size
    accuracy user_counts total train_size test_count :
  train_model sqrt sk data_path model_path min_per_user test_size w
  = (Some (Trained accuracy user_counts total train_size test_count), w2) →
  ∃ sessions w1 X y X_train X_test y_train y_test model,
    load_sessions sk data_path w = (Some sessions, w1) ∧
    sessions ≠ [] ∧
    (check_minimum_samples sessions min_per_user).1 = true ∧
    user_counts = (check_minimum_samples sessions min_per_user).2 ∧
    prepare_features sqrt sessions = Some (X, y) ∧
    ¬ size (list_to_set y : gset string) < 2 ∧
    (if bool_decide (10 ≤ length sessions)
     then sklearn.train_test_split sk X y test_size 42 y
          = Some (X_train, X_test, y_train, y_test)
     else (X_train, X_test, y_train, y_test) = (X, X, y, y)) ∧
    sklearn.fit sk 100 42 X_train y_train = Some model ∧
    sklearn.accuracy_score y_test (sklearn.predict sk model X_test)
    = Some accuracy ∧
    total = length sessions ∧
    train_size = length X_train ∧
    test_count = length X_test ∧
    w2 = mkWorld (<[feature_order_path := FeatureOrderJoblib feature_order]>
                    (<[model_path := ModelJoblib model]> (files w1)))
                 (loaded w1).
Proof.
  destruct (load_sessions sk data_path w) as [[sessions|] w1] eqn:Hload;
    [|by rewrite (train_model_load_raises _ _ _ _ _ _ Hload)].
  rewrite (train_model_after_load _ _ _ _ _ _ _ _ _ Hload).
  case_bool_decide as Hlen; [done|].
  destruct (check_minimum_samples sessions min_per_user).1 eqn:Hen; [|done].
  cbn [negb]. io_simpl.
  destruct (prepare_features sqrt sessions) as [[X y]|] eqn:Hprep; [|done].
  case_bool_decide as Hsize; [done|].
  intros Hrun.
  assert (∃ X_train X_test y_train y_test,
            (if bool_decide (10 ≤ length sessions)
             then sklearn.train_test_split sk X y test_size 42 y
                  = Some (X_train, X_test, y_train, y_test)
             else (X_train, X_test, y_train, y_test) = (X, X, y, y)) ∧
            (let '(X_train, X_test, y_train, y_test) :=
               (X_train, X_test, y_train, y_test) in
             match sklearn.fit sk 100 42 X_train y_train with
             | Some model =>
                 match sklearn.accuracy_score y_test
                         (sklearn.predict sk model X_test) with
                 | Some accuracy' =>
                     (Some (Trained accuracy'
                              (check_minimum_samples sessions min_per_user).2
                              (length sessions) (length X_train) (length X_test)),
                      mkWorld (<[feature_order_path := FeatureOrderJoblib feature_order]>
                                 (<[model_path := ModelJoblib model]> (files w1)))
                              (loaded w1))
                 | None => (None, w1)
                 end
             | None => (None, w1)
             end) = (Some (Trained accuracy user_counts total train_size test_count), w2))
    as (X_train & X_test & y_train & y_test & Hsplit & Hrest).
  { case_bool_decide.
    - destruct (sklearn.train_test_split sk X y test_size 42 y)
        as [[[[X_train X_test] y_train] y_test]|]; [|done].
      exists X_train, X_test, y_train, y_test. split; [done|].
      cbn beta iota. cbn beta iota in Hrun.
      destruct (sklearn.fit sk 100 42 X_train y_train); [|done].
      by destruct (sklearn.accuracy_score _ _).
    - exists X, X, y, y. split; [done|].
      cbn beta iota. cbn beta iota in Hrun.
      destruct (sklearn.fit sk 100 42 X y); [|done].
      by destruct (sklearn.accuracy_score _ _). }
  cbn beta iota in Hrest.
  destruct (sklearn.fit sk 100 42 X_train y_train) as [model|] eqn:Hfit; [|done].
  destruct (sklearn.accuracy_score _ _) as [accuracy'|] eqn:Hacc; [|done].
  injection Hrest as <- <- <- <- <- <-.
  exists sessions, w1, X, y, X_train, X_test, y_train, y_test, model.
  split_and!; try done.
  by intros ->.
Qed.

End train_more.

Lemma enough_of_two_users sessions min_per_user :
  (train.check_minimum_samples sessions min_per_user).1 = true →
  ¬ size (list_to_set (train.label <$> sessions) : gset string) < 2 →
  2 ≤ length sessions ∧ (2 * min_per_user ≤ Z.of_nat (length sessions))%Z.
Proof.
  intros Hen Hsize.
  pose proof (proj1 (has_enough_spec sessions min_per_user) Hen) as Hmin.
  destruct (two_labels _ Hsize) as (a & b & Ha & Hb & Hab).
  apply list_elem_of_fmap in Ha as (sa & -> & Hsa).
  apply list_elem_of_fmap in Hb as (sb & -> & Hsb).
  pose proof (sessions_of_two sessions _ _ Hab) as Htwo.
  pose proof (sessions_of_pos sessions sa Hsa).
  pose proof (sessions_of_pos sessions sb Hsb).
  pose proof (Hmin sa Hsa). pose proof (Hmin sb Hsb).
  split; lia.
Qed.

Section train_extras.
Import py features io train spec aux more.
Variable sqrt : Qc → Qc.
Variable sk : sklearn.Classifier.

Lemma train_model_outcome w data_path model_path min_per_user test_size :
  (∃ accuracy user_counts total train_size test_count w2,
     train_model sqrt sk data_path model_path min_per_user test_size w
     = (Some (Trained accuracy user_counts total train_size test_count), w2)) ∨
  (∃ o l,
     train_model sqrt sk data_path model_path min_per_user test_size w
     = (o, mkWorld (files w) (loaded w ++ l)) ∧
     match o with Some (Trained _ _ _ _ _) => False | _ => True end).
Proof.
  destruct (load_sessions_outcome sk data_path w) as [l Hload].
  set (o := match files w !! data_path with
            | None => Some []
            | Some (SessionsJson sessions) => Some sessions
            | Some _ => None
            end) in Hload.
  destruct o as [sessions|];
    [|right; exists None, l;
      by rewrite (train_model_load_raises _ _ _ _ _ _ _ _ Hload)].
  rewrite (train_model_after_load _ _ _ _ _ _ _ _ _ Hload).
  case_bool_decide; [right; by exists (Some NoData), l|].
  destruct (check_minimum_samples sessions min_per_user).1;
    [|right; by eexists (Some (InsufficientSamples _ _)), l].
  cbn [negb]. io_simpl.
  destruct (prepare_features sqrt sessions) as [[X y]|];
    [|right; by exists None, l].
  case_bool_decide; [right; by exists (Some InsufficientClasses), l|].
  case_bool_decide.
  - destruct (sklearn.train_test_split sk X y test_size 42 y)
      as [[[[X_train X_test] y_train] y_test]|]; [|right; by exists None, l].
    destruct (sklearn.fit sk 100 42 X_train y_train); [|right; by exists None, l].
    destruct (sklearn.accuracy_score _ _); [|right; by exists None, l].
    left. by eexists _, _, _, _, _, _.
  - destruct (sklearn.fit sk 100 42 X y); [|right; by exists None, l].
    destruct (sklearn.accuracy_score _ _); [|right; by exists None, l].
    left. by eexists _, _, _, _, _, _.
Qed.


(** X11: in the report of a successful training the counts add up to the
    total, there are at least two users, every user has at least
    [min_per_user] sessions (and at least one), so the total is at least
    twice [min_per_user]. *)
Theorem trained_report_consistent w w2 data_path model_path min_per_user
    test_size accuracy user_counts total train_size test_count :
  train_model sqrt sk data_path model_path min_per_user test_size w
  = (Some (Trained accuracy user_counts total train_size test_count), w2) →
  total_count user_counts = total ∧
  2 ≤ size user_counts ∧
  (∀ u n, user_counts !! u = Some n →
          0 < n ∧ (min_per_user ≤ Z.of_nat n)%Z) ∧
  2 ≤ total ∧
  (2 * min_per_user ≤ Z.of_nat total)%Z.
Proof.
  intros (sessions & w1 & X & y & X_train & X_test & y_train & y_test & model &
          Hload & Hne & Hen & -> & Hprep & Hsize & _ & _ & _ & -> & _)
         %train_model_success_inv.
  destruct (prepare_features_spec sqrt sessions) as (X' & Hprep' & _).
  rewrite Hprep in Hprep'. injection Hprep' as _ ->.
  pose proof (user_counts_total sessions min_per_user) as Htotal.
  pose proof (user_counts_dom sessions min_per_user) as Hdom.
  pose proof (proj1 (has_enough_spec sessions min_per_user) Hen) as Hmin.
  destruct (enough_of_two_users sessions min_per_user Hen Hsize) as [Htwo Hbig].
  split_and!; [done| | |lia|lia].
  - rewrite <-size_dom, Hdom. lia.
  - intros u n. rewrite user_counts_spec. case_bool_decide as Hz; [done|].
    intros [= <-].
    destruct (sessions_of_pos_inv sessions u) as (s & Hs & <-); [lia|].
    split; [lia|by apply Hmin].
Qed.

(** X12: when [min_per_user] is five or more, as with the default of ten, a
    successful training had at least ten sessions, so the data was split:
    the branch that fits and evaluates on the full set is not taken. *)
Theorem strict_minimum_always_splits w w2 data_path model_path min_per_user
    test_size accuracy user_counts total train_size test_count :
  (5 ≤ min_per_user)%Z →
  train_model sqrt sk data_path model_path min_per_user test_size w
  = (Some (Trained accuracy user_counts total train_size test_count), w2) →
  10 ≤ total ∧
  ∃ sessions w1 X X_train X_test y_train y_test,
    load_sessions sk data_path w = (Some sessions, w1) ∧
    prepare_features sqrt sessions = Some (X, label <$> sessions) ∧
    sklearn.train_test_split sk X (label <$> sessions) test_size 42
      (label <$> sessions)
    = Some (X_train, X_test, y_train, y_test) ∧
    train_size = length X_train ∧
    test_count = length X_test.
Proof.
  intros Hfive Hrun.
  apply train_model_success_inv in Hrun
    as (sessions & w1 & X & y & X_train & X_test & y_train & y_test & model &
        Hload & Hne & Hen & -> & Hprep & Hsize & Hsplit & _ & _ & -> & -> & -> & _).
  destruct (prepare_features_spec sqrt sessions) as (X' & Hprep' & _).
  rewrite Hprep in Hprep'. injection Hprep' as _ ->.
  destruct (enough_of_two_users sessions min_per_user Hen Hsize) as [_ Hbig].
  split; [lia|].
  rewrite bool_decide_eq_true_2 in Hsplit by lia.
  by exists sessions, w1, X, X_train, X_test, y_train, y_test.
Qed.

End train_extras.

(** ** Training followed by prediction *)

Section train_predict.
Import py features io train spec aux more.
Variable sqrt : Qc → Qc.
Variable sk : sklearn.Classifier.

Lemma trained_files w w2 data_path model_path min_per_user
    test_size accuracy user_counts total train_size test_count :
  train_model sqrt sk data_path model_path min_per_user test_size w
  = (Some (Trained accuracy user_counts total train_size test_count), w2) →
  ∃ X_train y_train model,
    sklearn.fit sk 100 42 X_train y_train = Some model ∧
    train_size = length X_train ∧
    files w2 = <[feature_order_path := FeatureOrderJoblib feature_order]>
                 (<[model_path := ModelJoblib model]> (files w)).
Proof.
  intros (sessions & w1 & X & y & X_train & X_test & y_train & y_test & model &
          Hload & _ & _ & _ & _ & _ & _ & Hfit & _ & _ & -> & _ & ->)
         %train_model_success_inv.
  exists X_train, y_train, model. split_and!; [done..|].
  destruct (load_sessions_outcome sk data_path w) as [l Hload'].
  rewrite Hload in Hload'. by injection Hload' as _ ->.
Qed.


(** X14: training to the feature-order path itself reports success, but the
    list of feature names is written over the model; [predict_user] on that
    path then raises instead of answering. *)
Theorem train_to_feature_order_path w w2 data_path min_per_user
    test_size accuracy user_counts total train_size test_count :
  train_model sqrt sk data_path feature_order_path min_per_user test_size w
  = (Some (Trained accuracy user_counts total train_size test_count), w2) →
  files w2 !! feature_order_path = Some (FeatureOrderJoblib feature_order) ∧
  ∀ events,
    (predict.predict_user sqrt sk events feature_order_path w2).1 = None.
Proof.
  intros (X_train & y_train & model & _ & _ & Hfiles)%trained_files.
  assert (files w2 !! feature_order_path
          = Some (FeatureOrderJoblib feature_order)) as Horder
    by (rewrite Hfiles; apply lookup_insert_eq).
  split; [done|]. intros events.
  by rewrite (predict_user_present sqrt sk events _ w2 _ Horder).
Qed.

End train_predict.

(** ** Training on concrete data *)

Lemma sample_world_trains sessions model_path min_per_user :
  sessions ≠ [] →
  (train.check_minimum_samples sessions min_per_user).1 = true →
  ¬ size (list_to_set (train.label <$> sessions) : gset string) < 2 →
  ∃ accuracy train_size test_count w2,
    train.train_model sqrt_rounded sklearn.memorizer train.default_data_path
      model_path min_per_user train.default_test_size (sample.world sessions)
    = (Some (train.Trained accuracy
               (train.check_minimum_samples sessions min_per_user).2
               (length sessions) train_size test_count), w2).
Proof.
  intros Hne Hen Hsize.
  rewrite (train_model_after_load _ _ _ _ _ _ _ _ _ (sample_world_loads sessions)).
  rewrite bool_decide_eq_false_2 by (by destruct sessions).
  rewrite Hen. cbn [negb]. io_simpl.
  destruct (prepare_features_spec sqrt_rounded sessions) as (X & -> & HlenX).
  rewrite (bool_decide_eq_false_2 _ Hsize).
  set (y := train.label <$> sessions) in *.
  assert (length X = length y) as Hlen by (unfold y; by rewrite length_fmap).
  case_bool_decide.
  - rewrite memorizer_split.
    set (k := Z.to_nat _).
    assert (length (drop k X) = length (drop k y)) as Hdrop
      by (by rewrite !length_drop, Hlen).
    assert (length (take k X) = length (take k y)) as Htake
      by (by rewrite !length_take, Hlen).
    rewrite (memorizer_fit _ _ Hdrop).
    destruct (memorizer_accuracy (zip (drop k X) (drop k y)) _ _ Htake)
      as [accuracy Hacc].
    rewrite Hacc. by eexists _, _, _, _.
  - rewrite (memorizer_fit _ _ Hlen).
    destruct (memorizer_accuracy (zip X y) _ _ Hlen) as [accuracy Hacc].
    rewrite Hacc. by eexists _, _, _, _.
Qed.

Lemma alice_and_bob_train model_path :
  ∃ accuracy train_size test_count w2,
    train.train_model sqrt_rounded sklearn.memorizer train.default_data_path
      model_path 1 train.default_test_size
      (sample.world [sample.alice; sample.bob])
    = (Some (train.Trained accuracy
               (train.check_minimum_samples [sample.alice; sample.bob] 1).2
               2 train_size test_count), w2).
Proof.
  apply (sample_world_trains [sample.alice; sample.bob]); [done|by vm_compute|].
  intros Hlt.
  pose proof (proj1 (size_labels (train.label <$> [sample.alice; sample.bob])) Hlt
                "A" "B" ltac:(in_list) ltac:(in_list)). done.
Qed.

Lemma five_each_train model_path :
  ∃ accuracy train_size test_count w2,
    train.train_model sqrt_rounded sklearn.memorizer train.default_data_path
      model_path 5 train.default_test_size
      (sample.world (replicate 5 sample.alice ++ replicate 5 sample.bob))
    = (Some (train.Trained accuracy
               (train.check_minimum_samples
                  (replicate 5 sample.alice ++ replicate 5 sample.bob) 5).2
               10 train_size test_count), w2).
Proof.
  apply (sample_world_trains
           (replicate 5 sample.alice ++ replicate 5 sample.bob));
    [done|by vm_compute|].
  intros Hlt.
  pose proof (proj1 (size_labels _) Hlt
                "A" "B" ltac:(simpl; in_list) ltac:(simpl; in_list)). done.
Qed.

(** ** The key handlers *)

Section capture_facts.
Import py features spec more capture.
Variable clock : nat → Qc.
Hypothesis clock_monotone : monotone clock.

Lemma Qc_minus_le (a b c : Qc) : (a ≤ b)%Qc → (a - c ≤ b - c)%Qc.
Proof. intros Hle. unfold Qcminus. by apply Qcplus_le_compat; [|apply Qcle_refl]. Qed.

Lemma in_session_record i n l key type :
  type = "down" ∨ type = "up" →
  i ≤ n →
  StronglySorted (λ a b, ev_t a ≤ ev_t b)%Qc l →
  Forall (λ e, is_transition e ∧
               ∃ j, i ≤ j < n ∧ ev_t e = (clock j - clock i)%Qc) l →
  in_session clock
    (mkCapture (l ++ [mkEvent key type (clock n - clock i)%Qc])
               (Some (clock i)), n + 1).
Proof.
  intros Htype Hin Hsorted Hall. unfold in_session. cbn [fst snd start_time events].
  exists i. split_and!; [lia|done| |].
  - apply StronglySorted_app_2; [|done|repeat constructor].
    intros a b Ha ->%list_elem_of_singleton. cbn [ev_t].
    rewrite Forall_forall in Hall.
    destruct (Hall a Ha) as (_ & j & Hj & ->).
    apply Qc_minus_le, clock_monotone. lia.
  - apply Forall_app. split.
    + eapply Forall_impl; [exact Hall|].
      intros e (Htr & j & Hj & Ht). split; [done|]. exists j. split; [lia|done].
    + constructor; [|constructor]. split.
      * unfold is_transition, is_press, is_release. cbn [ev_type]. tauto.
      * exists n. cbn [ev_t]. split; [lia|done].
Qed.

Lemma handle_in_session a s :
  in_session clock s → in_session clock (handle clock a s).
Proof.
  destruct s as [[l start] n]. unfold in_session. cbn [fst snd start_time events].
  intros Hinv. destruct a as [|event|event|]; cbn [handle].
  - unfold on_focus_in. cbn [fst snd start_time events].
    exists n. split_and!; [lia|done|constructor|constructor].
  - unfold on_key_down. cbn [start_time events].
    destruct start as [start|].
    + destruct Hinv as (i & Hi & -> & Hsorted & Hall).
      apply in_session_record; [by left|lia|done|done].
    + rewrite Hinv.
      apply (in_session_record n (n + 1) []);
        [by left|lia|constructor|constructor].
  - unfold on_key_up. cbn [start_time events].
    destruct start as [start|]; [|done].
    destruct Hinv as (i & Hi & -> & Hsorted & Hall).
    apply in_session_record; [by right|lia|done|done].
  - done.
Qed.

Lemma run_in_session actions : ∀ s,
  in_session clock s → in_session clock (run clock actions s).
Proof.
  induction actions as [|a actions IH]; intros s Hinv; [done|].
  apply IH. by apply handle_in_session.
Qed.

Lemma in_session_events s :
  in_session clock s →
  StronglySorted (λ a b, ev_t a ≤ ev_t b)%Qc (events s.1) ∧
  Forall (λ e, is_transition e ∧ 0 ≤ ev_t e)%Qc (events s.1).
Proof.
  unfold in_session. destruct (start_time s.1) as [start|].
  - intros (i & Hi & -> & Hsorted & Hall). split; [done|].
    eapply Forall_impl; [exact Hall|].
    intros e (Htr & j & Hj & ->). split; [done|].
    rewrite <-(Qcplus_opp_r (clock i)).
    apply Qc_minus_le, clock_monotone. lia.
  - intros ->. split; constructor.
Qed.

End capture_facts.

Section capture_order.
Import py features spec more capture.

(** X15: when the readings of the clock never go back, whatever happens to
    the text widget (focus, presses, releases, clearing), the captured
    events are in time order with timestamps that are not negative, each of
    them a press or a release; sorting them by time, as the extractor does
    first, changes nothing. *)
Theorem captured_events_in_time_order clock actions n :
  monotone clock →
  let c := (run clock actions (initial, n)).1 in
  sort_by ev_t (events c) = events c ∧
  Forall (λ e, is_transition e ∧ 0 ≤ ev_t e)%Qc (events c) ∧
  (start_time c = None → events c = []).
Proof.
  intros Hmono c.
  assert (in_session clock (run clock actions (initial, n)))
    as Hinv by (by apply run_in_session).
  destruct (in_session_events clock Hmono _ Hinv) as [Hsorted Hall].
  split_and!; [|done|].
  - apply sort_by_of_sorted. by apply StronglySorted_Sorted.
  - unfold in_session in Hinv. fold c in Hinv. intros Hnone.
    by rewrite Hnone in Hinv.
Qed.

End capture_order.

(** ** The actions of the application *)

Section action_facts.
Import py features io spec aux more app.
Variable sqrt : Qc → Qc.
Variable sk : sklearn.Classifier.

Lemma predict_user_files events model_path (w : World sk) :
  files (predict.predict_user sqrt sk events model_path w).2 = files w.
Proof.
  destruct (files w !! model_path) as [f|] eqn:Hf.
  - by rewrite (predict_user_present sqrt sk events model_path w f Hf).
  - by rewrite (predict_user_missing sqrt sk events model_path w Hf).
Qed.

(** X5: when the widget holds white space only, each action stops at the
    "Please type something first." warning, however many events were
    captured, and touches neither the files nor the captured state. *)
Theorem whitespace_only_input now a (w : World sk) :
  (Forall (λ c, is_space c = true) (list_ascii_of_string (text_input a)) →
   save_session sk now a w
   = (Some (show (showwarning MSG_NOTHING_TYPED) a), w)) ∧
  (Forall (λ c, is_space c = true)
     (list_ascii_of_string (predict_text_input a)) →
   predict_action sqrt sk a w
   = (Some (show (showwarning MSG_NOTHING_TYPED) a), w)).
Proof.
  split; intros Hspace%stripped_empty_iff.
  - unfold save_session. cbv zeta. by rewrite bool_decide_eq_true_2.
  - unfold predict_action. cbv zeta. by rewrite bool_decide_eq_true_2.
Qed.

(** X16: [predict_action] never raises and never writes a file; it keeps
    the typed text and the captured events; it either shows exactly one
    dialog, or shows none and displays the prediction that [predict_user]
    returned for the captured events. *)
Theorem predict_action_never_raises a (w : World sk) :
  ∃ a',
    (predict_action sqrt sk a w).1 = Some a' ∧
    files (predict_action sqrt sk a w).2 = files w ∧
    predict_text_input a' = predict_text_input a ∧
    predict_events a' = predict_events a ∧
    ((∃ d, dialogs a' = dialogs a ++ [d]) ∨
     (dialogs a' = dialogs a ∧
      ∃ predicted_user confidence probabilities,
        predict_results a' =
          ResultsPrediction predicted_user confidence probabilities ∧
        (predict.predict_user sqrt sk (predict_events a)
           train.default_model_path w).1 =
          Some (predict.Predicted predicted_user confidence probabilities))).
Proof.
  unfold predict_action. cbv zeta.
  case_bool_decide as Hempty.
  { eexists. split_and!; [done..|]. left. by eexists. }
  destruct (validate_typed_text_total (stripped (predict_text_input a))
              PROMPT_TEXT default_min_similarity) as [valid Hvalid].
  io_simpl. rewrite Hvalid.
  destruct valid; cbn [negb];
    [|eexists; split_and!; [done..|]; left; by eexists].
  case_bool_decide as Hfew.
  { eexists. split_and!; [done..|]. left. by eexists. }
  unfold try_except. cbn [predict_events set_results].
  pose proof (predict_user_files (predict_events a) train.default_model_path w)
    as Hfiles.
  destruct (predict.predict_user sqrt sk (predict_events a)
              train.default_model_path w) as [[result|] w1].
  - destruct result as [|predicted_user confidence probabilities].
    + eexists. split_and!; [done..|]. left. by eexists.
    + eexists. split_and!; [done..|]. right. split; [done|].
      by exists predicted_user, confidence, probabilities.
  - eexists. split_and!; [done..|]. left. by eexists.
Qed.


(** X17: [train_model_action] never raises: it ends with the success dialog
    and the report of [train_model] when training succeeded, and otherwise
    with an error dialog and every file as it was. *)
Theorem train_model_action_never_raises (w : World sk) :
  ∃ pane d,
    (gui.train_model_action sqrt sk w).1 = Some (pane, d) ∧
    ((∃ accuracy user_counts total train_size test_count,
        (train.train_model sqrt sk train.default_data_path
           train.default_model_path train.default_min_per_user
           train.default_test_size w).1
        = Some (train.Trained accuracy user_counts total train_size test_count) ∧
        pane = gui.PaneSuccess accuracy total train_size test_count user_counts ∧
        d = showinfo "Model trained successfully!") ∨
     (files (gui.train_model_action sqrt sk w).2 = files w ∧
      ∃ message, d = showerror message)).
Proof.
  unfold gui.train_model_action, try_except. io_simpl.
  destruct (train_model_outcome sqrt sk w train.default_data_path
              train.default_model_path train.default_min_per_user
              train.default_test_size)
    as [(accuracy & user_counts & total & train_size & test_count & w2 & ->)
       |(o & l & -> & Ho)].
  - eexists _, _. split; [done|]. left.
    by exists accuracy, user_counts, total, train_size, test_count.
  - destruct o as [[]|]; [..|done|];
      (eexists _, _; split; [done|]; right; split; [done|by eexists]).
Qed.

Lemma count_user_loop sessions u : ∀ n,
  Forall has_user sessions →
  for_each (λ n s, su ← user s; Some (if String.eqb su u then n + 1 else n))
           sessions n
  = Some (n + sessions_of sessions u).
Proof.
  unfold sessions_of.
  induction sessions as [|s sessions IH]; intros n Hall.
  { simpl. by rewrite Nat.add_0_r. }
  apply Forall_cons in Hall as [[su Hsu] Hall].
  cbn [for_each]. rewrite Hsu. cbn [mbind option_bind].
  rewrite IH by done. rewrite filter_cons.
  assert (train.label s = su) as -> by (unfold train.label; by rewrite Hsu).
  destruct (String.eqb su u) eqn:Heq.
  - apply String.eqb_eq in Heq as ->. rewrite decide_True by done.
    cbn [length]. apply (f_equal Some). lia.
  - apply String.eqb_neq in Heq. by rewrite decide_False by done.
Qed.

Lemma count_user_spec sessions u :
  Forall has_user sessions →
  count_user sessions u = Some (sessions_of sessions u).
Proof. intros Hall. unfold count_user. by rewrite count_user_loop. Qed.

Lemma count_user_loop_raises sessions u s : ∀ n,
  s ∈ sessions → user s = None →
  for_each (λ n s, su ← user s; Some (if String.eqb su u then n + 1 else n))
           sessions n
  = None.
Proof.
  induction sessions as [|s' sessions IH]; intros n Hin Hnone.
  { by apply elem_of_nil in Hin. }
  cbn [for_each]. apply elem_of_cons in Hin as [<-|Hin].
  - by rewrite Hnone.
  - destruct (user s'); [|done]. cbn [mbind option_bind]. by apply IH.
Qed.

Lemma count_user_raises sessions u s :
  s ∈ sessions → user s = None → count_user sessions u = None.
Proof. apply count_user_loop_raises. Qed.

(** What [save_session] does once the three checks have passed, for a
    sessions file that is absent ([old = []]) or holds [old]. *)
Lemma save_session_passed now a (w : World sk) old :
  stripped (text_input a) ≠ "" →
  validate_typed_text (stripped (text_input a)) PROMPT_TEXT
    default_min_similarity = Some true →
  4 ≤ length (current_events a) →
  files w !! SESSIONS_FILE = Some (SessionsJson old) ∨
  (files w !! SESSIONS_FILE = None ∧ old = []) →
  ∃ l,
    save_session sk now a w =
    (let user := user_var a in
     let sessions :=
       old ++ [mkSession (Some user) (Some (current_events a))
                         (stripped (text_input a)) now] in
     (n ← count_user sessions user;
      Some (show (showinfo ("Session saved for user " ++ user ++ "!")%string)
              (mkApp "" user [] None
                 ("Session saved! Total sessions for user " ++ user ++ ": "
                    ++ pretty n)%string
                 (predict_text_input a) (predict_events a) (predict_results a)
                 (dialogs a))),
      mkWorld (<[SESSIONS_FILE := SessionsJson sessions]> (files w))
              (loaded w ++ l))).
Proof.
  intros Hne Hvalid Hlen Hfile. unfold save_session. cbv zeta.
  rewrite (bool_decide_eq_false_2 _ Hne). io_simpl. rewrite Hvalid. cbn [negb].
  rewrite bool_decide_eq_false_2 by lia.
  unfold path_exists, load, dump.
  destruct Hfile as [Hsome|[Hnone ->]].
  - exists [SESSIONS_FILE].
    rewrite Hsome. rewrite bool_decide_eq_true_2 by done.
    rewrite ?Hsome. cbn [files loaded].
    by destruct (count_user _ _).
  - exists []. rewrite Hnone.
    rewrite bool_decide_eq_false_2 by (by intros [??]).
    cbn [files loaded app]. rewrite app_nil_r.
    by destruct (count_user _ _).
Qed.

(** X18: a session that passes the three checks is appended to the stored
    collection: the file then holds the old sessions followed by the new one,
    reading it back gives that list, the input and the captured events are
    cleared, the success dialog is shown, and the number in the status line
    is the count training will find for that user. *)
Theorem save_session_appends now a (w : World sk) old min_per_user :
  stripped (text_input a) ≠ "" →
  validate_typed_text (stripped (text_input a)) PROMPT_TEXT
    default_min_similarity = Some true →
  4 ≤ length (current_events a) →
  files w !! SESSIONS_FILE = Some (SessionsJson old) ∨
  (files w !! SESSIONS_FILE = None ∧ old = []) →
  Forall has_user old →
  let user := user_var a in
  let sessions :=
    old ++ [mkSession (Some user) (Some (current_events a))
                      (stripped (text_input a)) now] in
  ∃ a' w',
    save_session sk now a w = (Some a', w') ∧
    files w' = <[SESSIONS_FILE := SessionsJson sessions]> (files w) ∧
    (train.load_sessions sk SESSIONS_FILE w').1 = Some sessions ∧
    text_input a' = "" ∧
    current_events a' = [] ∧
    session_start_time a' = None ∧
    dialogs a' =
      dialogs a ++ [showinfo ("Session saved for user " ++ user ++ "!")%string] ∧
    collect_status a' =
      ("Session saved! Total sessions for user " ++ user ++ ": "
         ++ pretty (sessions_of old user + 1))%string ∧
    (train.check_minimum_samples sessions min_per_user).2 !! user
      = Some (sessions_of old user + 1).
Proof.
  intros Hne Hvalid Hlen Hfile Hold user sessions.
  destruct (save_session_passed now a w old Hne Hvalid Hlen Hfile) as [l Hrun].
  cbv zeta in Hrun. fold user sessions in Hrun.
  assert (sessions_of sessions user = sessions_of old user + 1) as Hcount.
  { unfold sessions_of, sessions. rewrite filter_app, length_app.
    rewrite filter_cons, decide_True by done. done. }
  rewrite count_user_spec in Hrun; last first.
  { apply Forall_app. split; [done|]. constructor; [by eexists|constructor]. }
  cbn [mbind option_bind] in Hrun. rewrite Hcount in Hrun.
  eexists _, _. split; [exact Hrun|]. cbn [files].
  split_and!; [done| |done..|].
  - erewrite load_sessions_present; [done|]. cbn [files]. apply lookup_insert_eq.
  - rewrite user_counts_spec, Hcount. by rewrite bool_decide_eq_false_2 by lia.
Qed.

(** X19: when a stored session has no ['user'] entry, [save_session] raises
    while it counts the user's sessions: the collection with the new session
    has already been written, but the input is not cleared and no dialog is
    shown. *)
Theorem save_session_raises_after_writing now a (w : World sk) old s :
  stripped (text_input a) ≠ "" →
  validate_typed_text (stripped (text_input a)) PROMPT_TEXT
    default_min_similarity = Some true →
  4 ≤ length (current_events a) →
  files w !! SESSIONS_FILE = Some (SessionsJson old) →
  s ∈ old → user s = None →
  (save_session sk now a w).1 = None ∧
  files (save_session sk now a w).2 =
    <[SESSIONS_FILE :=
        SessionsJson (old ++ [mkSession (Some (user_var a))
                                (Some (current_events a))
                                (stripped (text_input a)) now])]> (files w).
Proof.
  intros Hne Hvalid Hlen Hfile Hin Hnone.
  destruct (save_session_passed now a w old Hne Hvalid Hlen (or_introl Hfile))
    as [l ->].
  cbv zeta. cbn [fst snd files]. split; [|done].
  rewrite (count_user_raises _ _ s); [done| |done].
  apply elem_of_app. by left.
Qed.

End action_facts.

(** ** The sign of the features *)

Section feature_signs.
Import py features spec.
Variable sqrt : Qc → Qc.
Hypothesis sqrt_nonneg : ∀ x, (0 ≤ sqrt x)%Qc.

Lemma Qc_sum_nonneg l : Forall (λ x, 0 < x)%Qc l → (0 ≤ Qc_sum l)%Qc.
Proof.
  induction 1 as [|x l Hx _ IH]; [apply Qcle_refl|].
  cbn [Qc_sum foldr]. rewrite <-(Qcplus_0_l 0).
  apply Qcplus_le_compat; [by apply Qclt_le_weak|exact IH].
Qed.

Lemma Qc_of_nat_nonneg n : (0 ≤ Qc_of_nat n)%Qc.
Proof.
  unfold Qc_of_nat, Qc_of_Z, Qcle. cbn [this Q2Qc].
  rewrite Qred_correct. unfold Qle. simpl. lia.
Qed.

Lemma Qc_div_nonneg (a b : Qc) : (0 ≤ a → 0 ≤ b → 0 ≤ a / b)%Qc.
Proof.
  intros Ha Hb. unfold Qcdiv.
  assert (0 ≤ / b)%Qc as Hinv.
  { unfold Qcle in Hb |- *. unfold Qcinv. cbn [this Q2Qc].
    change (this 0%Qc) with 0%Q in *.
    apply (Qle_trans _ (/ this b)%Q); [by apply Qinv_le_0_compat|].
    apply Qle_lteq. right. symmetry. apply Qred_correct. }
  rewrite <-(Qcmult_0_l (/ b)). by apply Qcmult_le_compat_r.
Qed.

Lemma calc_stats_nonneg values mean std median :
  Forall (λ x, 0 < x)%Qc values →
  calc_stats sqrt values = Some (mean, std, median) →
  (0 ≤ mean ∧ 0 ≤ std ∧ 0 ≤ median)%Qc.
Proof.
  intros Hpos. destruct (decide (values = [])) as [->|Hne].
  { intros [= <- <- <-]. split_and!; apply Qcle_refl. }
  destruct (calc_stats_nonempty sqrt values Hne) as (m & Hmed & ->).
  intros [= <- <- <-]. split_and!.
  - apply Qc_div_nonneg; [by apply Qc_sum_nonneg|apply Qc_of_nat_nonneg].
  - case_bool_decide; [apply sqrt_nonneg|apply Qcle_refl].
  - assert (∀ i x, sort_by id values !! i = Some x → (0 ≤ x)%Qc) as Hsorted.
    { intros i x Hx%list_elem_of_lookup_2. rewrite sort_by_perm in Hx.
      rewrite Forall_forall in Hpos. by apply Qclt_le_weak, Hpos. }
    destruct Hmed as [Hodd Heven].
    pose proof (Nat.mod_upper_bound (length (sort_by id values)) 2) as Hmod.
    destruct (decide (length (sort_by id values) `mod` 2 = 1)) as [H1|H1].
    + by eapply Hsorted, Hodd.
    + destruct Heven as (a & b & Ha & Hb & ->); [lia|].
      apply Qc_div_nonneg; [|apply Qc_of_nat_nonneg].
      rewrite <-(Qcplus_0_l 0).
      apply Qcplus_le_compat; by eapply Hsorted.
Qed.

(** X20: with a square root that is never negative, [extract_features]
    returns six features none of which is negative, for every event list. *)
Theorem features_nonnegative events :
  ∃ fv, extract_features sqrt events = Some fv ∧
        (0 ≤ dwell_mean fv ∧ 0 ≤ dwell_std fv ∧ 0 ≤ dwell_median fv ∧
         0 ≤ flight_mean fv ∧ 0 ≤ flight_std fv ∧ 0 ≤ flight_median fv)%Qc.
Proof.
  destruct (decide (length events < 2)) as [Hlt|Hge].
  { exists zero_features. unfold extract_features.
    rewrite bool_decide_eq_true_2 by done. split; [done|].
    split_and!; apply Qcle_refl. }
  destruct (extract_features_unfold sqrt events)
    as (dm & ds & dmed & fm & fs & fmed & Hd & Hf & ->); [lia|].
  eexists. split; [done|]. cbn.
  apply calc_stats_nonneg in Hd as (? & ? & ?); last first.
  { apply Forall_forall. intros d Hd'. by eapply fifo_dwell_positive. }
  apply calc_stats_nonneg in Hf as (? & ? & ?); last first.
  { apply Forall_forall. intros d Hd'. by eapply positive_gaps_positive. }
  done.
Qed.

End feature_signs.

(** ** The further properties on concrete data *)

Lemma validate_accepts_supersequence_witness :
  clean "fox" ≠ [] ∧
  clean "fox" `sublist_of` clean "a fix, an ox" ∧
  validate_typed_text "a fix, an ox" "fox" default_min_similarity = Some true.
Proof.
  assert (clean "fox" ≠ []) as Hne by done.
  assert (clean "fox" `sublist_of` clean "a fix, an ox") as Hsub.
  { apply (sublist_inserts_l ["a"; " "]%char), sublist_skip.
    apply (sublist_inserts_l ["i"; "x"; ","; " "; "a"; "n"; " "]%char).
    done. }
  split_and!; [done..|].
  by apply validate_accepts_supersequence.
Defined.

Lemma validate_rejects_short_witness :
  5 * length (clean "the quick") < 4 * length (clean app.PROMPT_TEXT) ∧
  validate_typed_text "the quick" app.PROMPT_TEXT default_min_similarity
  = Some false.
Proof.
  assert (5 * length (clean "the quick") < 4 * length (clean app.PROMPT_TEXT))
    as Hshort by (vm_compute; lia).
  split; [done|]. by apply validate_rejects_short.
Defined.

Lemma validate_empty_prompt_witness :
  clean "   " = [] ∧
  validate_typed_text "x" "   " default_min_similarity = Some false.
Proof.
  split; [done|]. by apply (validate_empty_prompt "x" "   ").
Defined.

Lemma sequential_typing_samples_witness :
  more.held [more.mkStroke "t" (Qc_of_Z 0) (Qc_of_Z 80);
             more.mkStroke "h" (Qc_of_Z 120) (Qc_of_Z 200)] ∧
  more.one_at_a_time [more.mkStroke "t" (Qc_of_Z 0) (Qc_of_Z 80);
                      more.mkStroke "h" (Qc_of_Z 120) (Qc_of_Z 200)] ∧
  dwell_times_of
    (more.events_of [more.mkStroke "t" (Qc_of_Z 0) (Qc_of_Z 80);
                     more.mkStroke "h" (Qc_of_Z 120) (Qc_of_Z 200)])
  = Some [(Qc_of_Z 80 - Qc_of_Z 0)%Qc; (Qc_of_Z 200 - Qc_of_Z 120)%Qc].
Proof.
  assert (more.held [more.mkStroke "t" (Qc_of_Z 0) (Qc_of_Z 80);
                     more.mkStroke "h" (Qc_of_Z 120) (Qc_of_Z 200)]) as Hheld
    by (repeat constructor).
  assert (more.one_at_a_time
            [more.mkStroke "t" (Qc_of_Z 0) (Qc_of_Z 80);
             more.mkStroke "h" (Qc_of_Z 120) (Qc_of_Z 200)]) as Hone
    by (repeat split).
  split_and!; [done..|].
  exact (proj1 (sequential_typing_samples _ Hheld Hone)).
Defined.

Lemma trained_report_consistent_witness :
  ∃ accuracy user_counts train_size test_count w2,
    train.train_model sqrt_rounded sklearn.memorizer train.default_data_path
      train.default_model_path 1 train.default_test_size
      (sample.world [sample.alice; sample.bob])
    = (Some (train.Trained accuracy user_counts 2 train_size test_count), w2) ∧
    more.total_count user_counts = 2 ∧
    2 ≤ size user_counts.
Proof.
  destruct (alice_and_bob_train train.default_model_path)
    as (accuracy & train_size & test_count & w2 & Hrun).
  eexists accuracy, _, train_size, test_count, w2. split; [exact Hrun|].
  destruct (trained_report_consistent _ _ _ _ _ _ _ _ _ _ _ _ _ Hrun)
    as (Htotal & Hsize & _).
  by split.
Defined.

Lemma strict_minimum_always_splits_witness :
  (5 ≤ 5)%Z ∧
  ∃ accuracy user_counts train_size test_count w2,
    train.train_model sqrt_rounded sklearn.memorizer train.default_data_path
      train.default_model_path 5 train.default_test_size
      (sample.world (replicate 5 sample.alice ++ replicate 5 sample.bob))
    = (Some (train.Trained accuracy user_counts 10 train_size test_count), w2) ∧
    10 ≤ 10.
Proof.
  assert (5 ≤ 5)%Z as Hfive by lia.
  split; [done|].
  destruct (five_each_train train.default_model_path)
    as (accuracy & train_size & test_count & w2 & Hrun).
  eexists accuracy, _, train_size, test_count, w2. split; [exact Hrun|].
  exact (proj1 (strict_minimum_always_splits _ _ _ _ _ _ _ _ _ _ _ _ _
                  Hfive Hrun)).
Defined.


Lemma train_to_feature_order_path_witness :
  ∃ accuracy user_counts train_size test_count w2,
    train.train_model sqrt_rounded sklearn.memorizer train.default_data_path
      train.feature_order_path 1 train.default_test_size
      (sample.world [sample.alice; sample.bob])
    = (Some (train.Trained accuracy user_counts 2 train_size test_count), w2) ∧
    (predict.predict_user sqrt_rounded sklearn.memorizer
       (sample.typing 80 120) train.feature_order_path w2).1 = None.
Proof.
  destruct (alice_and_bob_train train.feature_order_path)
    as (accuracy & train_size & test_count & w2 & Hrun).
  eexists accuracy, _, train_size, test_count, w2. split; [exact Hrun|].
  apply (train_to_feature_order_path _ _ _ _ _ _ _ _ _ _ _ _ Hrun).
Defined.

Lemma tick_monotone : more.monotone (λ i, Qc_of_nat (10 * i)).
Proof.
  intros i j Hij. unfold Qc_of_nat, Qc_of_Z, Qcle. cbn [this Q2Qc].
  unfold Qle. cbn [Qnum Qden inject_Z]. lia.
Qed.

Lemma captured_events_in_time_order_witness :
  more.monotone (λ i, Qc_of_nat (10 * i)) ∧
  sort_by ev_t
    (capture.events
       (capture.run (λ i, Qc_of_nat (10 * i))
          [capture.FocusIn;
           capture.KeyPress (capture.mkTkEvent "t" "t");
           capture.KeyRelease (capture.mkTkEvent "t" "t");
           capture.KeyPress (capture.mkTkEvent "" "Shift_L")]
          (capture.initial, 0)).1)
  = capture.events
      (capture.run (λ i, Qc_of_nat (10 * i))
         [capture.FocusIn;
          capture.KeyPress (capture.mkTkEvent "t" "t");
          capture.KeyRelease (capture.mkTkEvent "t" "t");
          capture.KeyPress (capture.mkTkEvent "" "Shift_L")]
         (capture.initial, 0)).1.
Proof.
  split; [exact tick_monotone|].
  apply (captured_events_in_time_order _ _ 0 tick_monotone).
Defined.

Lemma sqrt_rounded_nonneg x : (0 ≤ sqrt_rounded x)%Qc.
Proof.
  unfold sqrt_rounded, Qcle. cbn [this Q2Qc].
  change (this 0%Qc) with (Qred 0). apply (proj2 (Qred_le _ _)).
  unfold Qle. cbn [Qnum Qden].
  pose proof (Z.sqrt_nonneg (Qnum x * 1000000 / Z.pos (Qden x))). lia.
Qed.

Lemma features_nonnegative_witness :
  (∀ x, 0 ≤ sqrt_rounded x)%Qc ∧
  ∃ fv, extract_features sqrt_rounded (sample.typing 80 120) = Some fv ∧
        (0 ≤ dwell_mean fv ∧ 0 ≤ dwell_std fv ∧ 0 ≤ dwell_median fv ∧
         0 ≤ flight_mean fv ∧ 0 ≤ flight_std fv ∧ 0 ≤ flight_median fv)%Qc.
Proof.
  split; [exact sqrt_rounded_nonneg|].
  apply (features_nonnegative sqrt_rounded sqrt_rounded_nonneg).
Defined.

Lemma whitespace_only_input_witness :
  Forall (λ c, is_space c = true)
    (list_ascii_of_string
       (app.text_input
          (app.mkApp "   " "A" (sample.typing 80 120) None
             "Ready to collect data" "" [] app.ResultsEmpty []))) ∧
  app.save_session sklearn.memorizer "2024-01-01T00:00:00"
    (app.mkApp "   " "A" (sample.typing 80 120) None
       "Ready to collect data" "" [] app.ResultsEmpty [])
    sample.empty_world
  = (Some (app.show (app.showwarning app.MSG_NOTHING_TYPED)
             (app.mkApp "   " "A" (sample.typing 80 120) None
                "Ready to collect data" "" [] app.ResultsEmpty [])),
     sample.empty_world).
Proof.
  assert (Forall (λ c, is_space c = true)
            (list_ascii_of_string
               (app.text_input
                  (app.mkApp "   " "A" (sample.typing 80 120) None
                     "Ready to collect data" "" [] app.ResultsEmpty []))))
    as Hspace by (repeat constructor).
  split; [done|].
  by apply (proj1 (whitespace_only_input sqrt_rounded sklearn.memorizer _ _ _)).
Defined.

Lemma save_session_appends_witness :
  app.stripped app.PROMPT_TEXT ≠ "" ∧
  validate_typed_text (app.stripped app.PROMPT_TEXT) app.PROMPT_TEXT
    default_min_similarity = Some true ∧
  4 ≤ length (sample.typing 80 120) ∧
  files sample.empty_world !! app.SESSIONS_FILE = None ∧
  ∃ a' w',
    app.save_session sklearn.memorizer "2024-01-01T00:00:00"
      (app.mkApp app.PROMPT_TEXT "A" (sample.typing 80 120) None
         "Ready to collect data" "" [] app.ResultsEmpty [])
      sample.empty_world
    = (Some a', w') ∧
    (train.load_sessions sklearn.memorizer app.SESSIONS_FILE w').1
      = Some [mkSession (Some "A") (Some (sample.typing 80 120))
                (app.stripped app.PROMPT_TEXT) "2024-01-01T00:00:00"] ∧
    app.text_input a' = "" ∧
    app.current_events a' = [].
Proof.
  assert (app.stripped app.PROMPT_TEXT ≠ "") as Hne by (by vm_compute).
  assert (validate_typed_text (app.stripped app.PROMPT_TEXT) app.PROMPT_TEXT
            default_min_similarity = Some true) as Hvalid
    by (vm_compute; reflexivity).
  assert (4 ≤ length (sample.typing 80 120)) as Hlen by (simpl; lia).
  assert (files sample.empty_world !! app.SESSIONS_FILE = None) as Hfile
    by apply lookup_empty.
  split_and!; [done..|].
  destruct (save_session_appends sklearn.memorizer "2024-01-01T00:00:00"
              (app.mkApp app.PROMPT_TEXT "A" (sample.typing 80 120) None
                 "Ready to collect data" "" [] app.ResultsEmpty [])
              sample.empty_world [] 1 Hne Hvalid Hlen
              (or_intror (conj Hfile eq_refl)) (Forall_nil_2 _))
    as (a' & w' & Hrun & _ & Hload & Htext & Hevents & _).
  exists a', w'. by split_and!.
Defined.

Lemma save_session_raises_after_writing_witness :
  files (sample.world [mkSession None None "" ""]) !! app.SESSIONS_FILE
    = Some (SessionsJson [mkSession None None "" ""]) ∧
  (app.save_session sklearn.memorizer "2024-01-01T00:00:00"
     (app.mkApp app.PROMPT_TEXT "A" (sample.typing 80 120) None
        "Ready to collect data" "" [] app.ResultsEmpty [])
     (sample.world [mkSession None None "" ""])).1 = None.
Proof.
  assert (files (sample.world [mkSession None None "" ""]) !! app.SESSIONS_FILE
          = Some (SessionsJson [mkSession None None "" ""])) as Hfile
    by apply lookup_singleton_eq.
  split; [done|].
  apply (save_session_raises_after_writing sklearn.memorizer
           "2024-01-01T00:00:00"
           (app.mkApp app.PROMPT_TEXT "A" (sample.typing 80 120) None
              "Ready to collect data" "" [] app.ResultsEmpty [])
           (sample.world [mkSession None None "" ""])
           [mkSession None None "" ""] (mkSession None None "" "")).
  - by vm_compute.
  - vm_compute; reflexivity.
  - simpl; lia.
  - exact Hfile.
  - in_list.
  - done.
Defined.
